(** * AnalyzeAI frontend: session handling and the generation request cycle

    A shallow embedding of the React components that hold state in the
    AnalyzeAI frontend:

    - [AuthProvider] (components/auth/AuthContext.js): the cached identity,
      the OAuth callback exchange, the status probe, login and logout;
    - [HomePage] and [QueryForm] (components/home): the form guard, the
      generation call, the cached document and its re-download;
    - [generateDocument] (services/api.js, the copy that calls the
      backend) and the helpers of utils/helpers.js.

    JavaScript values are modelled first (strings as UTF-16 code units,
    JSON values, objects as ordered property lists, JSON text), then the
    browser as an explicit world threaded through a small state and
    exception monad, then the components.  Every [await] splits an async
    function in the part that runs at the call and the part that runs when
    the awaited promise settles. *)

From Stdlib Require Import String Ascii.
From Stdlib Require Import List ZArith NArith Bool Lia.
Import ListNotations.

Set Implicit Arguments.
Set Warnings "-register-all".
Local Open Scope list_scope.

(* ================================================================= *)
(** ** JavaScript strings *)

(** A JavaScript string is a sequence of UTF-16 code units. *)
Definition code_unit := N.
Definition jsstring := list code_unit.

(** ASCII literals of the source text. *)
Definition lit (s : string) : jsstring :=
  map N_of_ascii (list_ascii_of_string s).

Fixpoint str_eqb (a b : jsstring) : bool :=
  match a, b with
  | [], [] => true
  | x :: a', y :: b' => N.eqb x y && str_eqb a' b'
  | _, _ => false
  end.

(** WhiteSpace and LineTerminator code points of ECMAScript, the ones
    [String.prototype.trim] strips. *)
Definition is_js_space (c : code_unit) : bool :=
  existsb (N.eqb c)
    [9; 10; 11; 12; 13; 32; 160; 5760; 8192; 8193; 8194; 8195; 8196; 8197;
     8198; 8199; 8200; 8201; 8202; 8232; 8233; 8239; 8287; 12288; 65279]%N.

Fixpoint drop_while (p : code_unit -> bool) (s : jsstring) : jsstring :=
  match s with
  | [] => []
  | c :: s' => if p c then drop_while p s' else s
  end.

(** [s.trim()] *)
Definition trim (s : jsstring) : jsstring :=
  rev (drop_while is_js_space (rev (drop_while is_js_space s))).

(** [s.slice(0, n)] for [n] not negative. *)
Definition slice0 (n : nat) (s : jsstring) : jsstring := firstn n s.

(** Decimal digits of a natural number, most significant first. *)
Fixpoint digits_aux (fuel : nat) (n : N) (acc : jsstring) : jsstring :=
  match fuel with
  | O => acc
  | S fuel' =>
      let acc' := (48 + n mod 10)%N :: acc in
      if (n <? 10)%N then acc' else digits_aux fuel' (n / 10)%N acc'
  end.

Definition decimal (n : N) : jsstring :=
  digits_aux (S (N.to_nat (N.log2 n))) n [].

Definition is_digit (c : code_unit) : bool := (48 <=? c)%N && (c <=? 57)%N.

(** Value of a digit string. *)
Definition digits_value (s : jsstring) : N :=
  fold_left (fun acc c => (10 * acc + (c - 48))%N) s 0%N.

(* ================================================================= *)
(** ** JavaScript values

    The values JSON text can denote, and [undefined].  A number is held as
    the exact decimal [m * 10^e] its literal denotes; the program never
    computes with numbers, it tests them for zero and prints them.  The
    rounding of literals that binary64 cannot hold is outside the model. *)

Inductive jsval : Type :=
| JUndefined
| JNull
| JBool (b : bool)
| JNum (m : Z) (e : Z)
| JStr (s : jsstring)
| JArr (elems : list jsval)
| JObj (props : list (jsstring * jsval)).

Definition JInt (z : Z) : jsval := JNum z 0.

(** ToBoolean *)
Definition truthy (v : jsval) : bool :=
  match v with
  | JUndefined | JNull => false
  | JBool b => b
  | JNum m _ => negb (Z.eqb m 0)
  | JStr s => match s with [] => false | _ => true end
  | JArr _ | JObj _ => true
  end.

(** [a || b] and [a && b] *)
Definition js_or (a b : jsval) : jsval := if truthy a then a else b.
Definition js_and (a b : jsval) : jsval := if truthy a then b else a.

(* ----------------------------------------------------------------- *)
(** *** Number::toString *)

Fixpoint strip_zeros_rev (r : jsstring) (e : Z) : jsstring * Z :=
  match r with
  | c :: r' => if N.eqb c 48 then strip_zeros_rev r' (e + 1)%Z else (r, e)
  | [] => ([], e)
  end.

(** The digits [s] of the number without trailing zeros and [n] such that
    the number is [0.s * 10^n]. *)
Definition sci_digits (m e : Z) : jsstring * Z :=
  let '(r, e') := strip_zeros_rev (rev (decimal (Z.abs_N m))) e in
  (rev r, (Z.of_nat (length r) + e')%Z).

Definition zeros (n : Z) : jsstring := repeat 48%N (Z.to_nat n).

Definition number_to_string (m e : Z) : jsstring :=
  if Z.eqb m 0 then lit "0" else
  let sign := if (m <? 0)%Z then lit "-" else [] in
  let '(s, n) := sci_digits m e in
  let k := Z.of_nat (length s) in
  sign ++
  (if (k <=? n)%Z && (n <=? 21)%Z then s ++ zeros (n - k)
   else if (0 <? n)%Z && (n <=? 21)%Z then
     firstn (Z.to_nat n) s ++ lit "." ++ skipn (Z.to_nat n) s
   else if (-6 <? n)%Z && (n <=? 0)%Z then lit "0." ++ zeros (- n) ++ s
   else
     let x := (n - 1)%Z in
     let ex := lit "e" ++ (if (x <? 0)%Z then lit "-" else lit "+")
                 ++ decimal (Z.abs_N x) in
     match s with
     | [d] => [d] ++ ex
     | d :: ds => [d] ++ lit "." ++ ds ++ ex
     | [] => ex
     end).

(** [parts.join(sep)] on strings. *)
Fixpoint join (sep : jsstring) (l : list jsstring) : jsstring :=
  match l with
  | [] => []
  | [x] => x
  | x :: l' => x ++ sep ++ join sep l'
  end.

(* ================================================================= *)
(** ** Objects

    An object is the list of its own enumerable properties in the order
    [OrdinaryOwnPropertyKeys] lists them: array indices first, ascending,
    then the other keys in the order they were created. *)

Section Assoc.
Variable A : Type.

Fixpoint lookup (k : jsstring) (o : list (jsstring * A)) : option A :=
  match o with
  | [] => None
  | (k', x) :: o' => if str_eqb k' k then Some x else lookup k o'
  end.

Fixpoint replace_prop (k : jsstring) (x : A) (o : list (jsstring * A))
  : list (jsstring * A) :=
  match o with
  | [] => []
  | (k', y) :: o' =>
      if str_eqb k' k then (k', x) :: o' else (k', y) :: replace_prop k x o'
  end.

Fixpoint remove_prop (k : jsstring) (o : list (jsstring * A))
  : list (jsstring * A) :=
  match o with
  | [] => []
  | (k', y) :: o' =>
      if str_eqb k' k then remove_prop k o' else (k', y) :: remove_prop k o'
  end.

(** A canonical numeric string below 2^32 - 1 is an array index. *)
Definition array_index (k : jsstring) : option N :=
  let n := digits_value k in
  if forallb is_digit k && str_eqb (decimal n) k && (n <? 4294967295)%N
  then Some n else None.

Fixpoint insert_index (n : N) (k : jsstring) (x : A)
  (o : list (jsstring * A)) : list (jsstring * A) :=
  match o with
  | [] => [(k, x)]
  | (k', y) :: o' =>
      match array_index k' with
      | Some n' =>
          if (n' <? n)%N then (k', y) :: insert_index n k x o'
          else (k, x) :: o
      | None => (k, x) :: o
      end
  end.

(** CreateDataProperty: an existing property keeps its place. *)
Definition define (k : jsstring) (x : A) (o : list (jsstring * A))
  : list (jsstring * A) :=
  match lookup k o with
  | Some _ => replace_prop k x o
  | None =>
      match array_index k with
      | Some n => insert_index n k x o
      | None => o ++ [(k, x)]
      end
  end.
End Assoc.

Definition props := list (jsstring * jsval).

(** The own enumerable properties of a value: the elements of an array
    and the code units of a string are properties named by their index. *)
Fixpoint indexed (A : Type) (i : N) (l : list A) : list (jsstring * A) :=
  match l with
  | [] => []
  | x :: l' => (decimal i, x) :: indexed (N.succ i) l'
  end.

Definition own_props (v : jsval) : props :=
  match v with
  | JObj o => o
  | JArr l => indexed 0 l
  | JStr s => indexed 0 (map (fun c => JStr [c]) s)
  | _ => []
  end.

(** Errors carry the message handlers read through [err.message]. *)
Record jserror := Error_ { err_name : jsstring; message : jsstring }.

Inductive completion (A : Type) : Type :=
| Normal (a : A)
| Thrown (e : jserror).
Arguments Normal {A} a.
Arguments Thrown {A} e.

(* ----------------------------------------------------------------- *)
(** *** ToString *)

(** The TypeError of OrdinaryToPrimitive; the wording is the engine's. *)
Definition not_primitive : jserror :=
  Error_ (lit "TypeError") (lit "Cannot convert object to primitive value").

(** ToString, as template literals, [new Error] and the string
    attributes of the DOM apply it.  Primitive values have their text.
    An array goes through [Array.prototype.toString], which joins its
    elements with commas: [null] and [undefined] print as nothing, the
    others are converted in turn.  An object goes through
    OrdinaryToPrimitive: without an own [toString] it inherits
    [Object.prototype.toString] and prints as "[object Object]"; with an
    own [toString], which in a value made of JSON is never a function,
    the conversion falls to [valueOf], inherited or own, which gives no
    primitive either, and ToString throws a TypeError. *)
Fixpoint to_string (v : jsval) : completion jsstring :=
  match v with
  | JUndefined => Normal (lit "undefined")
  | JNull => Normal (lit "null")
  | JBool true => Normal (lit "true")
  | JBool false => Normal (lit "false")
  | JNum m e => Normal (number_to_string m e)
  | JStr s => Normal s
  | JArr l =>
      match (fix elements (l : list jsval) : completion (list jsstring) :=
               match l with
               | [] => Normal []
               | x :: l' =>
                   match match x with
                         | JUndefined | JNull => Normal []
                         | _ => to_string x
                         end with
                   | Normal s =>
                       match elements l' with
                       | Normal r => Normal (s :: r)
                       | Thrown e => Thrown e
                       end
                   | Thrown e => Thrown e
                   end
               end) l with
      | Normal parts => Normal (join (lit ",") parts)
      | Thrown e => Thrown e
      end
  | JObj o =>
      match lookup (lit "toString") o with
      | Some _ => Thrown not_primitive
      | None => Normal (lit "[object Object]")
      end
  end.

(** The text of a value that ToString converts (nothing where it
    throws; the statements use it on values that convert). *)
Definition text_of (v : jsval) : jsstring :=
  match to_string v with
  | Normal s => s
  | Thrown _ => []
  end.

(** [new Error(msg)]: the message is ToString of the argument, which may
    throw; without an argument the message is empty. *)
Definition new_Error (msg : jsval) : completion jserror :=
  match msg with
  | JUndefined => Normal (Error_ (lit "Error") [])
  | _ =>
      match to_string msg with
      | Normal s => Normal (Error_ (lit "Error") s)
      | Thrown e => Thrown e
      end
  end.

(** [v.k] for a value that is neither [null] nor [undefined].  Besides own
    properties only [length] is looked up; none of the names the program
    reads is inherited from a prototype. *)
Definition property (v : jsval) (k : jsstring) : jsval :=
  match lookup k (own_props v) with
  | Some x => x
  | None =>
      match v with
      | JArr l => if str_eqb k (lit "length")
                  then JInt (Z.of_nat (length l)) else JUndefined
      | JStr s => if str_eqb k (lit "length")
                  then JInt (Z.of_nat (length s)) else JUndefined
      | _ => JUndefined
      end
  end.

(** [v.k]: reading a property of [null] or [undefined] throws. *)
Definition get_prop (v : jsval) (k : jsstring) : completion jsval :=
  match v with
  | JUndefined | JNull =>
      Thrown (Error_ (lit "TypeError")
                (lit "Cannot read properties of " ++ text_of v
                 ++ lit " (reading '" ++ k ++ lit "')"))
  | _ => Normal (property v k)
  end.

(** [v?.k] *)
Definition get_opt (v : jsval) (k : jsstring) : jsval :=
  match v with
  | JUndefined | JNull => JUndefined
  | _ => property v k
  end.

(** [{...dst, ...src}]: CopyDataProperties reads every own key of [src]
    and defines it on the object under construction. *)
Definition spread (src : jsval) (dst : props) : props :=
  fold_left
    (fun acc kv =>
       match lookup (fst kv) (own_props src) with
       | Some x => define (fst kv) x acc
       | None => acc
       end)
    (own_props src) dst.

(** [{ k1: v1, ..., kn: vn }] *)
Definition object_literal (l : props) : props :=
  fold_left (fun acc kv => define (fst kv) (snd kv) acc) l [].

(* ================================================================= *)
(** ** JSON text

    [JSON.parse] and [JSON.stringify] on the values above. *)

Definition is_json_ws (c : code_unit) : bool :=
  existsb (N.eqb c) [32; 9; 10; 13]%N.

Definition skip_ws (s : jsstring) : jsstring := drop_while is_json_ws s.

Definition hex_value (c : code_unit) : option N :=
  if (48 <=? c)%N && (c <=? 57)%N then Some (c - 48)%N
  else if (97 <=? c)%N && (c <=? 102)%N then Some (c - 87)%N
  else if (65 <=? c)%N && (c <=? 70)%N then Some (c - 55)%N
  else None.

Definition hex4 (a b c d : code_unit) : option code_unit :=
  match hex_value a, hex_value b, hex_value c, hex_value d with
  | Some x, Some y, Some z, Some w =>
      Some (4096 * x + 256 * y + 16 * z + w)%N
  | _, _, _, _ => None
  end.

(** The character a one-letter escape stands for. *)
Definition unescape (c : code_unit) : option code_unit :=
  if N.eqb c 34 then Some 34%N            (* quote *)
  else if N.eqb c 92 then Some 92%N       (* backslash *)
  else if N.eqb c 47 then Some 47%N       (* slash *)
  else if N.eqb c 98 then Some 8%N        (* b: backspace *)
  else if N.eqb c 102 then Some 12%N      (* f: form feed *)
  else if N.eqb c 110 then Some 10%N      (* n: line feed *)
  else if N.eqb c 114 then Some 13%N      (* r: carriage return *)
  else if N.eqb c 116 then Some 9%N       (* t: tab *)
  else None.

(** The characters of a string literal after its opening quote; [acc]
    holds the code units read so far, last first. *)
Fixpoint parse_chars (s : jsstring) (acc : jsstring)
  : option (jsstring * jsstring) :=
  match s with
  | [] => None
  | c :: r =>
      if N.eqb c 34 then Some (rev acc, r)
      else if N.eqb c 92 then
        match r with
        | [] => None
        | x :: r' =>
            if N.eqb x 117 then
              match r' with
              | a :: b :: c' :: d :: r'' =>
                  match hex4 a b c' d with
                  | Some u => parse_chars r'' (u :: acc)
                  | None => None
                  end
              | _ => None
              end
            else
              match unescape x with
              | Some u => parse_chars r' (u :: acc)
              | None => None
              end
        end
      else if (c <? 32)%N then None
      else parse_chars r (c :: acc)
  end.

Fixpoint span_digits (s : jsstring) : jsstring * jsstring :=
  match s with
  | c :: r =>
      if is_digit c then let '(d, r') := span_digits r in (c :: d, r')
      else ([], s)
  | [] => ([], [])
  end.

(** An optional character [c] in front of [s]. *)
Definition eat (c : code_unit) (s : jsstring) : bool * jsstring :=
  match s with
  | x :: r => if N.eqb x c then (true, r) else (false, s)
  | [] => (false, s)
  end.

(** [int]: one digit, or several not starting with 0. *)
Definition int_ok (int : jsstring) : bool :=
  match int with
  | [] => false
  | [_] => true
  | d :: _ => negb (N.eqb d 48)
  end.

(** [frac?]: a dot and at least one digit. *)
Definition parse_fraction (s : jsstring) : option (jsstring * jsstring) :=
  let '(dot, r) := eat 46%N s in
  if dot then
    let '(f, r') := span_digits r in
    match f with
    | [] => None
    | _ => Some (f, r')
    end
  else Some ([], s).

(** [exp?]: e or E, an optional sign and at least one digit. *)
Definition parse_exponent (s : jsstring) : option (Z * jsstring) :=
  match s with
  | c :: r =>
      if N.eqb c 101 || N.eqb c 69 then
        let '(minus, r1) := eat 45%N r in
        let '(_, r2) := if minus then (true, r1) else eat 43%N r1 in
        let '(x, r3) := span_digits r2 in
        match x with
        | [] => None
        | _ => let xv := Z.of_N (digits_value x) in
               Some (if minus then (- xv)%Z else xv, r3)
        end
      else Some (0%Z, s)
  | [] => Some (0%Z, s)
  end.

(** [-? int frac? exp?] of the JSON grammar. *)
Definition parse_number (s : jsstring) : option (jsval * jsstring) :=
  let '(neg, s1) := eat 45%N s in
  let '(int, s2) := span_digits s1 in
  if negb (int_ok int) then None else
  match parse_fraction s2 with
  | None => None
  | Some (frac, s3) =>
      match parse_exponent s3 with
      | None => None
      | Some (x, s4) =>
          let m := Z.of_N (digits_value (int ++ frac)) in
          Some (JNum (if neg then (- m)%Z else m)
                     (x - Z.of_nat (length frac))%Z, s4)
      end
  end.

Inductive parsed : Type :=
| POk (v : jsval) (rest : jsstring)
| PSyntax
| PFuel.

(** [s] without the prefix [p], if it starts with it. *)
Fixpoint strip_prefix (p s : jsstring) : option jsstring :=
  match p, s with
  | [], _ => Some s
  | x :: p', y :: s' => if N.eqb x y then strip_prefix p' s' else None
  | _ :: _, [] => None
  end.

Definition parse_literal (s : jsstring) : option (jsval * jsstring) :=
  match strip_prefix (lit "true") s with
  | Some r => Some (JBool true, r)
  | None =>
      match strip_prefix (lit "false") s with
      | Some r => Some (JBool false, r)
      | None =>
          match strip_prefix (lit "null") s with
          | Some r => Some (JNull, r)
          | None => parse_number s
          end
      end
  end.

Fixpoint parse_value (fuel : nat) (s : jsstring) : parsed :=
  match fuel with
  | O => PFuel
  | S f =>
      match skip_ws s with
      | [] => PSyntax
      | c :: r =>
          if N.eqb c 123 then               (* left brace *)
            match skip_ws r with
            | [] => PSyntax
            | c' :: r' =>
                if N.eqb c' 125 then POk (JObj []) r'
                else parse_members f (c' :: r') []
            end
          else if N.eqb c 91 then           (* left bracket *)
            match skip_ws r with
            | [] => PSyntax
            | c' :: r' =>
                if N.eqb c' 93 then POk (JArr []) r'
                else parse_elements f (c' :: r') []
            end
          else if N.eqb c 34 then
            match parse_chars r [] with
            | Some (str, r') => POk (JStr str) r'
            | None => PSyntax
            end
          else
            match parse_literal (c :: r) with
            | Some (v, r') => POk v r'
            | None => PSyntax
            end
      end
  end
with parse_elements (fuel : nat) (s : jsstring) (acc : list jsval) : parsed :=
  match fuel with
  | O => PFuel
  | S f =>
      match parse_value f s with
      | POk v r =>
          match skip_ws r with
          | [] => PSyntax
          | c :: r' =>
              if N.eqb c 44 then parse_elements f r' (v :: acc)
              else if N.eqb c 93 then POk (JArr (rev (v :: acc))) r'
              else PSyntax
          end
      | bad => bad
      end
  end
with parse_members (fuel : nat) (s : jsstring) (acc : props) : parsed :=
  match fuel with
  | O => PFuel
  | S f =>
      match skip_ws s with
      | [] => PSyntax
      | q :: r =>
          if negb (N.eqb q 34) then PSyntax else
          match parse_chars r [] with
          | None => PSyntax
          | Some (k, r1) =>
              match skip_ws r1 with
              | [] => PSyntax
              | colon :: r2 =>
                  if negb (N.eqb colon 58) then PSyntax else
                  match parse_value f r2 with
                  | POk v r3 =>
                      match skip_ws r3 with
                      | [] => PSyntax
                      | c :: r4 =>
                          if N.eqb c 44
                          then parse_members f r4 (define k v acc)
                          else if N.eqb c 125
                          then POk (JObj (define k v acc)) r4
                          else PSyntax
                      end
                  | bad => bad
                  end
              end
          end
      end
  end.

(** [JSON.parse(text)]: the value, or [None] where it throws SyntaxError. *)
Definition JSON_parse (text : jsstring) : option jsval :=
  match parse_value (2 * length text + 2) text with
  | POk v r => match skip_ws r with [] => Some v | _ => None end
  | _ => None
  end.

Definition hex_digit (n : N) : code_unit :=
  if (n <? 10)%N then (48 + n)%N else (87 + n)%N.

Definition unicode_escape (c : code_unit) : jsstring :=
  lit "\u" ++ [hex_digit (c / 4096 mod 16); hex_digit (c / 256 mod 16);
               hex_digit (c / 16 mod 16); hex_digit (c mod 16)]%N.

Definition is_high_surrogate (c : code_unit) : bool :=
  (55296 <=? c)%N && (c <=? 56319)%N.
Definition is_low_surrogate (c : code_unit) : bool :=
  (56320 <=? c)%N && (c <=? 57343)%N.

(** QuoteJSONString, without the enclosing quotes. *)
Fixpoint quote_chars (s : jsstring) : jsstring :=
  match s with
  | [] => []
  | c :: r =>
      if N.eqb c 34 then [92; 34]%N ++ quote_chars r
      else if N.eqb c 92 then lit "\\" ++ quote_chars r
      else if N.eqb c 8 then lit "\b" ++ quote_chars r
      else if N.eqb c 12 then lit "\f" ++ quote_chars r
      else if N.eqb c 10 then lit "\n" ++ quote_chars r
      else if N.eqb c 13 then lit "\r" ++ quote_chars r
      else if N.eqb c 9 then lit "\t" ++ quote_chars r
      else if (c <? 32)%N then unicode_escape c ++ quote_chars r
      else if is_high_surrogate c then
        match r with
        | d :: r' =>
            if is_low_surrogate d then c :: d :: quote_chars r'
            else unicode_escape c ++ quote_chars r
        | [] => unicode_escape c
        end
      else if is_low_surrogate c then unicode_escape c ++ quote_chars r
      else c :: quote_chars r
  end.

Definition quote (s : jsstring) : jsstring := [34%N] ++ quote_chars s ++ [34%N].

(** SerializeJSONProperty: [None] is [undefined] (the property is left
    out of an object and written [null] in an array). *)
Fixpoint stringify (v : jsval) : option jsstring :=
  match v with
  | JUndefined => None
  | JNull => Some (lit "null")
  | JBool true => Some (lit "true")
  | JBool false => Some (lit "false")
  | JNum m e => Some (number_to_string m e)
  | JStr s => Some (quote s)
  | JArr l =>
      Some (lit "[" ++
            join (lit ",")
              (map (fun x => match stringify x with
                             | Some t => t
                             | None => lit "null"
                             end) l)
            ++ lit "]")
  | JObj o =>
      Some (lit "{" ++
            join (lit ",")
              ((fix members (o : props) : list jsstring :=
                  match o with
                  | [] => []
                  | (k, x) :: o' =>
                      match stringify x with
                      | Some t => (quote k ++ lit ":" ++ t) :: members o'
                      | None => members o'
                      end
                  end) o)
            ++ lit "}")
  end.

(** [JSON.stringify(v)] used as a string: [undefined] prints as such. *)
Definition JSON_stringify (v : jsval) : jsstring :=
  match stringify v with
  | Some t => t
  | None => lit "undefined"
  end.

(** JSON text written with ['] where the text has the double quote. *)
Definition json_text (s : string) : jsstring :=
  map (fun c => if N.eqb c 39 then 34%N else c) (lit s).

(* ================================================================= *)
(** ** The browser and the component state *)

(** [window.location]: [search] holds the decoded name/value pairs that
    [URLSearchParams] reads out of the query string. *)
Record Location := {
  pathname : jsstring;
  search : list (jsstring * jsstring);
  hash : jsstring
}.

(** The arguments of a [fetch] call; [body] is [None] where none is given. *)
Record Request := {
  url : jsstring;
  method : jsstring;
  content_type : option jsstring;
  credentials : jsstring;
  body : option jsstring
}.

(** An async function suspended at [await fetch(...)], with the variables
    its continuation reads. *)
Inductive Awaiting : Type :=
| AwaitCallback
| AwaitStatus
| AwaitLogout
| AwaitGenerate (sqlQuery businessDomain : jsstring).

(** How a [fetch] settles: it rejects (network failure), or resolves to a
    response with a status and a body text. *)
Inductive Outcome : Type :=
| Rejected (e : jserror)
| Response (status : Z) (body_text : jsstring).

(** [response.ok] *)
Definition response_ok (status : Z) : bool :=
  (200 <=? status)%Z && (status <=? 299)%Z.

(** A [Date]: [getTime()] in milliseconds and [toISOString()]. *)
Record Date_ := { getTime : Z; toISOString : jsstring }.

(** A file handed to the browser by [downloadFile]. *)
Record Download := {
  content : jsstring;
  filename : jsstring;
  contentType : jsstring
}.

Inductive Logged : Type :=
| LogError (label : jsstring) (e : jserror)
| LogInfo (label : jsstring) (v : jsval).

(** State of [AuthProvider]: [useState(null)], [useState(true)]. *)
Record AuthState := { user : jsval; loading : bool }.

(** State of [LoginDialog]. *)
Record DialogState := { dlg_loading : bool; dlg_error : jsval }.

(** State of [HomePage]. *)
Record HomeState := {
  sqlQuery : jsstring;
  businessDomain : jsstring;
  isLoading : bool;
  showSuccess : bool;
  error : jsval;
  lastDocument : jsval
}.

Record World := {
  REACT_APP_API_BASE_URL : jsval;      (* process.env, fixed at build:
                                          a string, or undefined *)
  localStorage : list (jsstring * jsstring);
  location : Location;
  navigations : list jsstring;         (* assignments to location.href *)
  console : list Logged;
  fetches : list Request;              (* every fetch issued, oldest first *)
  awaiting : list Awaiting;            (* fetches not settled yet *)
  downloads : list Download;
  clock : nat -> Date_;                (* what the n-th clock read returns *)
  ticks : nat;                         (* clock reads made so far *)
  auth : AuthState;
  dialog : DialogState;
  home : HomeState
}.

Definition with_localStorage (f : list (jsstring * jsstring) ->
                                  list (jsstring * jsstring)) (w : World) :=
  {| REACT_APP_API_BASE_URL := REACT_APP_API_BASE_URL w;
     localStorage := f (localStorage w); location := location w;
     navigations := navigations w; console := console w;
     fetches := fetches w; awaiting := awaiting w; downloads := downloads w;
     clock := clock w; ticks := ticks w; auth := auth w; dialog := dialog w;
     home := home w |}.

Definition with_location (f : Location -> Location) (w : World) :=
  {| REACT_APP_API_BASE_URL := REACT_APP_API_BASE_URL w;
     localStorage := localStorage w; location := f (location w);
     navigations := navigations w; console := console w;
     fetches := fetches w; awaiting := awaiting w; downloads := downloads w;
     clock := clock w; ticks := ticks w; auth := auth w; dialog := dialog w;
     home := home w |}.

Definition with_navigations (f : list jsstring -> list jsstring) (w : World) :=
  {| REACT_APP_API_BASE_URL := REACT_APP_API_BASE_URL w;
     localStorage := localStorage w; location := location w;
     navigations := f (navigations w); console := console w;
     fetches := fetches w; awaiting := awaiting w; downloads := downloads w;
     clock := clock w; ticks := ticks w; auth := auth w; dialog := dialog w;
     home := home w |}.

Definition with_console (f : list Logged -> list Logged) (w : World) :=
  {| REACT_APP_API_BASE_URL := REACT_APP_API_BASE_URL w;
     localStorage := localStorage w; location := location w;
     navigations := navigations w; console := f (console w);
     fetches := fetches w; awaiting := awaiting w; downloads := downloads w;
     clock := clock w; ticks := ticks w; auth := auth w; dialog := dialog w;
     home := home w |}.

Definition with_network (f : list Request -> list Request)
  (g : list Awaiting -> list Awaiting) (w : World) :=
  {| REACT_APP_API_BASE_URL := REACT_APP_API_BASE_URL w;
     localStorage := localStorage w; location := location w;
     navigations := navigations w; console := console w;
     fetches := f (fetches w); awaiting := g (awaiting w);
     downloads := downloads w;
     clock := clock w; ticks := ticks w; auth := auth w; dialog := dialog w;
     home := home w |}.

Definition with_downloads (f : list Download -> list Download) (w : World) :=
  {| REACT_APP_API_BASE_URL := REACT_APP_API_BASE_URL w;
     localStorage := localStorage w; location := location w;
     navigations := navigations w; console := console w;
     fetches := fetches w; awaiting := awaiting w;
     downloads := f (downloads w);
     clock := clock w; ticks := ticks w; auth := auth w; dialog := dialog w;
     home := home w |}.

Definition with_ticks (f : nat -> nat) (w : World) :=
  {| REACT_APP_API_BASE_URL := REACT_APP_API_BASE_URL w;
     localStorage := localStorage w; location := location w;
     navigations := navigations w; console := console w;
     fetches := fetches w; awaiting := awaiting w; downloads := downloads w;
     clock := clock w; ticks := f (ticks w); auth := auth w;
     dialog := dialog w; home := home w |}.

Definition with_auth (f : AuthState -> AuthState) (w : World) :=
  {| REACT_APP_API_BASE_URL := REACT_APP_API_BASE_URL w;
     localStorage := localStorage w; location := location w;
     navigations := navigations w; console := console w;
     fetches := fetches w; awaiting := awaiting w; downloads := downloads w;
     clock := clock w; ticks := ticks w; auth := f (auth w);
     dialog := dialog w; home := home w |}.

Definition with_dialog (f : DialogState -> DialogState) (w : World) :=
  {| REACT_APP_API_BASE_URL := REACT_APP_API_BASE_URL w;
     localStorage := localStorage w; location := location w;
     navigations := navigations w; console := console w;
     fetches := fetches w; awaiting := awaiting w; downloads := downloads w;
     clock := clock w; ticks := ticks w; auth := auth w;
     dialog := f (dialog w); home := home w |}.

Definition with_home (f : HomeState -> HomeState) (w : World) :=
  {| REACT_APP_API_BASE_URL := REACT_APP_API_BASE_URL w;
     localStorage := localStorage w; location := location w;
     navigations := navigations w; console := console w;
     fetches := fetches w; awaiting := awaiting w; downloads := downloads w;
     clock := clock w; ticks := ticks w; auth := auth w; dialog := dialog w;
     home := f (home w) |}.

(* ================================================================= *)
(** ** Computations: state and exceptions *)

Definition M (A : Type) : Type := World -> completion A * World.

Definition ret {A} (a : A) : M A := fun w => (Normal a, w).

Definition bind {A B} (m : M A) (k : A -> M B) : M B :=
  fun w => match m w with
           | (Normal a, w') => k a w'
           | (Thrown e, w') => (Thrown e, w')
           end.

Definition throw {A} (e : jserror) : M A := fun w => (Thrown e, w).

(** Lift a pure step that may throw. *)
Definition lift {A} (c : completion A) : M A := fun w => (c, w).

Definition gets {A} (f : World -> A) : M A := fun w => (Normal (f w), w).

Definition modify (f : World -> World) : M unit := fun w => (Normal tt, f w).

(** [try { m } catch (e) { h e }] *)
Definition try_catch {A} (m : M A) (h : jserror -> M A) : M A :=
  fun w => match m w with
           | (Thrown e, w') => h e w'
           | r => r
           end.

(** [try { m } finally { f }] *)
Definition try_finally {A} (m : M A) (f : M unit) : M A :=
  fun w => let '(r, w') := m w in
           match f w' with
           | (Normal _, w'') => (r, w'')
           | (Thrown e, w'') => (Thrown e, w'')
           end.

(** Calling an async function without awaiting it: what it throws lands
    in the promise it returns and never reaches the caller. *)
Definition async_call (m : M unit) : M unit :=
  fun w => (Normal tt, snd (m w)).

Definition when (b : bool) (m : M unit) : M unit := if b then m else ret tt.

Declare Scope js_scope.
Delimit Scope js_scope with js.
Notation "x <- m ;; k" := (bind m (fun x => k))
  (at level 61, m at next level, right associativity) : js_scope.
Notation "m ;; k" := (bind m (fun _ => k))
  (at level 61, right associativity) : js_scope.
Local Open Scope js_scope.

(** The world a computation leaves. *)
Definition exec {A} (m : M A) (w : World) : World := snd (m w).

(* ----------------------------------------------------------------- *)
(** *** Browser operations *)

(** [localStorage.getItem(k)]: the stored string, or [null]. *)
Definition localStorage_getItem (k : jsstring) : M jsval :=
  gets (fun w => match lookup k (localStorage w) with
                 | Some s => JStr s
                 | None => JNull
                 end).

Definition localStorage_setItem (k v : jsstring) : M unit :=
  modify (with_localStorage
            (fun st => match lookup k st with
                       | Some _ => replace_prop k v st
                       | None => st ++ [(k, v)]
                       end)).

Definition localStorage_removeItem (k : jsstring) : M unit :=
  modify (with_localStorage (remove_prop k)).

(** [new URLSearchParams(window.location.search).get(name)] *)
Definition URLSearchParams_get (name : jsstring) : M jsval :=
  gets (fun w => match lookup name (search (location w)) with
                 | Some s => JStr s
                 | None => JNull
                 end).

(** [window.history.replaceState({}, document.title, path)] with a path:
    the address shown becomes that path, without query or fragment; the
    document is not loaded again. *)
Definition history_replaceState (path : jsstring) : M unit :=
  modify (with_location
            (fun _ => {| pathname := path; search := []; hash := [] |})).

(** [window.location.href = target]: the page navigates away. *)
Definition location_assign (target : jsstring) : M unit :=
  modify (with_navigations (fun l => l ++ [target])).

Definition console_error (label : jsstring) (e : jserror) : M unit :=
  modify (with_console (fun l => l ++ [LogError label e])).

Definition console_log (label : jsstring) (v : jsval) : M unit :=
  modify (with_console (fun l => l ++ [LogInfo label v])).

(** [fetch(url, options)] up to the [await]: the request leaves and the
    caller is suspended as [k]. *)
Definition fetch (r : Request) (k : Awaiting) : M unit :=
  modify (with_network (fun l => l ++ [r]) (fun l => l ++ [k])).

(** The value of [await fetch(...)] once the promise has settled. *)
Definition await (o : Outcome) : M (Z * jsstring) :=
  match o with
  | Rejected e => throw e
  | Response status text => ret (status, text)
  end.

(** The SyntaxError of [JSON.parse]; the wording is the engine's. *)
Definition syntax_error : jserror :=
  Error_ (lit "SyntaxError") (lit "Unexpected token in JSON").

Definition JSON_parse_or_throw (text : jsstring) : M jsval :=
  match JSON_parse text with
  | Some v => ret v
  | None => throw syntax_error
  end.

(** [new Date()] *)
Definition new_Date : M Date_ :=
  fun w => (Normal (clock w (ticks w)), with_ticks S w).

(** [downloadFile]: the link is clicked once its [download] attribute is
    set; the attribute is a string, so the assignment converts the name
    with ToString and throws, before the click, where that throws. *)
Definition downloadFile (content : jsstring) (filename : jsval)
  (contentType : jsstring) : M unit :=
  name <- lift (to_string filename) ;;
  modify (with_downloads
            (fun l => l ++ [{| content := content;
                               filename := name;
                               contentType := contentType |}])).

(* ----------------------------------------------------------------- *)
(** *** config/api.js *)

(** The two base URLs, as the template literals of [API_ENDPOINTS] print
    them.  A variable of [process.env] is a string or is not defined, and
    ToString does not throw on these. *)
Definition API_BASE_URL (w : World) : jsstring :=
  text_of (js_or (REACT_APP_API_BASE_URL w) (JStr (lit "http://localhost:8000"))).

Definition API_BASE_URL1 (w : World) : jsstring :=
  text_of (js_or (REACT_APP_API_BASE_URL w) (JStr (lit "http://localhost:8001"))).

Definition LOGIN_GOOGLE w := API_BASE_URL w ++ lit "/login/google".
Definition LOGIN_MICROSOFT w := API_BASE_URL w ++ lit "/login/microsoft".
Definition LOGIN_GITHUB w := API_BASE_URL w ++ lit "/login/github".
Definition AUTH_STATUS w := API_BASE_URL w ++ lit "/status".
Definition AUTH_CALLBACK w := API_BASE_URL w ++ lit "/auth/callback".
Definition LOGOUT w := API_BASE_URL w ++ lit "/auth/logout".

(** [API_ENDPOINTS.DOCUMENT_STATUS] *)
Definition DOCUMENT_STATUS w := API_BASE_URL1 w ++ lit "/documents/status".

(* ================================================================= *)
(** ** components/auth/AuthContext.js *)

Definition setUser (v : jsval) : M unit :=
  modify (with_auth (fun a => {| user := v; loading := loading a |})).

Definition setLoading (b : bool) : M unit :=
  modify (with_auth (fun a => {| user := user a; loading := b |})).

(** [isAuthenticated: !!user] *)
Definition isAuthenticated (w : World) : bool := truthy (user (auth w)).

Definition login (userData : jsval) : M unit :=
  name <- lift (get_prop userData (lit "name")) ;;
  email <- lift (get_prop userData (lit "email")) ;;
  id <- lift (get_prop userData (lit "id")) ;;
  provider <- lift (get_prop userData (lit "provider")) ;;
  let user := JObj (object_literal
                      [(lit "name", name);
                       (lit "email", email);
                       (lit "id", js_or id email);
                       (lit "provider", js_or provider (JStr (lit "oauth")))]) in
  setUser user ;;
  localStorage_setItem (lit "user") (JSON_stringify user).

(** [checkOAuthCallback], up to [await fetch]. *)
Definition checkOAuthCallback : M unit :=
  code <- URLSearchParams_get (lit "code") ;;
  state <- URLSearchParams_get (lit "state") ;;
  when (truthy code)
    (try_catch
       (endpoint <- gets AUTH_CALLBACK ;;
        fetch {| url := endpoint;
                 method := lit "POST";
                 content_type := Some (lit "application/json");
                 credentials := lit "include";
                 body := Some (JSON_stringify
                                 (JObj (object_literal
                                          [(lit "code", code);
                                           (lit "state", state)]))) |}
              AwaitCallback)
       (fun error => console_error (lit "OAuth callback error:") error)).

(** [checkOAuthCallback], from the settled [fetch] on.  The two awaits
    ([fetch], [response.json()]) touch no state between them and are
    taken in one step. *)
Definition checkOAuthCallback_resume (o : Outcome) : M unit :=
  try_catch
    (response <- await o ;;
     when (response_ok (fst response))
       (data <- JSON_parse_or_throw (snd response) ;;
        name <- lift (get_prop data (lit "name")) ;;
        email <- lift (get_prop data (lit "email")) ;;
        when (truthy (js_and name email))
          (login data ;;
           path <- gets (fun w => pathname (location w)) ;;
           history_replaceState path)))
    (fun error => console_error (lit "OAuth callback error:") error).

(** [checkAuthStatus], up to [await fetch]. *)
Definition checkAuthStatus : M unit :=
  endpoint <- gets AUTH_STATUS ;;
  fetch {| url := endpoint;
           method := lit "GET";
           content_type := None;
           credentials := lit "include";
           body := None |}
        AwaitStatus.

(** [checkAuthStatus], from the settled [fetch] on. *)
Definition checkAuthStatus_resume (o : Outcome) : M unit :=
  try_finally
    (try_catch
       (response <- await o ;;
        if response_ok (fst response) then
          data <- JSON_parse_or_throw (snd response) ;;
          name <- lift (get_prop data (lit "name")) ;;
          email <- lift (get_prop data (lit "email")) ;;
          when (truthy (js_and name email))
            (id <- lift (get_prop data (lit "id")) ;;
             provider <- lift (get_prop data (lit "provider")) ;;
             let userData :=
               JObj (object_literal
                       [(lit "name", name);
                        (lit "email", email);
                        (lit "id", js_or id email);
                        (lit "provider",
                          js_or provider (JStr (lit "oauth")))]) in
             setUser userData ;;
             localStorage_setItem (lit "user") (JSON_stringify userData))
        else if Z.eqb (fst response) 401 then
          setUser JNull ;;
          localStorage_removeItem (lit "user")
        else ret tt)
       (fun error => console_error (lit "Auth status check error:") error))
    (setLoading false).

(** [logout], up to [await fetch]. *)
Definition logout : M unit :=
  endpoint <- gets LOGOUT ;;
  fetch {| url := endpoint;
           method := lit "POST";
           content_type := None;
           credentials := lit "include";
           body := None |}
        AwaitLogout.

(** [logout], from the settled [fetch] on. *)
Definition logout_resume (o : Outcome) : M unit :=
  try_catch (_ <- await o ;; ret tt)
    (fun error => console_error (lit "Logout error:") error) ;;
  setUser JNull ;;
  localStorage_removeItem (lit "user").

(** The effect [AuthProvider] runs once when it mounts. *)
Definition AuthProvider_useEffect : M unit :=
  storedUser <- localStorage_getItem (lit "user") ;;
  (if truthy storedUser
   then text <- lift (to_string storedUser) ;;
        parsed <- JSON_parse_or_throw text ;;
        setUser parsed
   else ret tt) ;;
  async_call checkOAuthCallback ;;
  async_call checkAuthStatus.

(** [LoginDialog.handleSSOLogin(provider)] *)
Definition setDialogLoading (b : bool) : M unit :=
  modify (with_dialog (fun d => {| dlg_loading := b; dlg_error := dlg_error d |})).
Definition setDialogError (v : jsval) : M unit :=
  modify (with_dialog (fun d => {| dlg_loading := dlg_loading d; dlg_error := v |})).

Definition handleSSOLogin (provider : jsstring) : M unit :=
  setDialogLoading true ;;
  setDialogError JNull ;;
  try_catch
    (endpointMap <- gets (fun w => [(lit "Google", JStr (LOGIN_GOOGLE w));
                                    (lit "Outlook", JStr (LOGIN_MICROSOFT w));
                                    (lit "GitHub", JStr (LOGIN_GITHUB w))]) ;;
     let loginUrl := property (JObj (object_literal endpointMap)) provider in
     target <- lift (to_string loginUrl) ;;
     location_assign target)
    (fun error =>
       console_error (lit "Login failed:") error ;;
       setDialogError (js_or (JStr (message error))
                             (JStr (lit "Failed to login. Please try again."))) ;;
       setDialogLoading false).

(* ================================================================= *)
(** ** services/api.js

    The copy that calls the backend.  (A second copy of the file answers
    from a timer with a random failure and sends nothing; it is not
    modelled.) *)

(** [a || b] where evaluating [b] has effects. *)
Definition or_else (a : jsval) (b : M jsval) : M jsval :=
  if truthy a then ret a else b.

(** [generateDocument], up to [await fetch]. *)
Definition generateDocument (sqlQuery businessDomain : jsstring) : M unit :=
  try_catch
    (base <- gets API_BASE_URL1 ;;
     fetch {| url := base ++ lit "/prompt/sql";
              method := lit "POST";
              content_type := Some (lit "application/json");
              credentials := lit "include";
              body := Some (JSON_stringify
                              (JObj (object_literal
                                       [(lit "script", JStr sqlQuery);
                                        (lit "business", JStr businessDomain)]))) |}
           (AwaitGenerate sqlQuery businessDomain))
    (fun error =>
       console_error (lit "Error generating document:") error ;;
       throw error).

(** [generateDocument], from the settled [fetch] on: the value the
    promise resolves to, or the error it rejects with. *)
Definition generateDocument_resume (businessDomain : jsstring) (o : Outcome)
  : M jsval :=
  try_catch
    (response <- await o ;;
     (if negb (response_ok (fst response)) then
        let errorData := match JSON_parse (snd response) with
                         | Some v => v
                         | None => JNull
                         end in
        err <- lift (new_Error
                       (js_or (get_opt errorData (lit "message"))
                              (JStr (lit "Server error: "
                                     ++ number_to_string (fst response) 0)))) ;;
        throw err
      else ret tt) ;;
     data <- JSON_parse_or_throw (snd response) ;;
     documentId0 <- lift (get_prop data (lit "documentId")) ;;
     documentId <- or_else documentId0
                     (now <- new_Date ;;
                      ret (JStr (lit "DOC-" ++ number_to_string (getTime now) 0))) ;;
     fileName0 <- lift (get_prop data (lit "fileName")) ;;
     fileName <- or_else fileName0
                   (now <- new_Date ;;
                    ret (JStr (businessDomain ++ lit "_analysis_"
                               ++ slice0 10 (toISOString now) ++ lit ".pdf"))) ;;
     fileSize <- lift (get_prop data (lit "fileSize")) ;;
     generatedAt0 <- lift (get_prop data (lit "generatedAt")) ;;
     generatedAt <- or_else generatedAt0
                      (now <- new_Date ;; ret (JStr (toISOString now))) ;;
     downloadUrl <- lift (get_prop data (lit "downloadUrl")) ;;
     message0 <- lift (get_prop data (lit "message")) ;;
     ret (JObj (object_literal
                  [(lit "success", JBool true);
                   (lit "data",
                     JObj (spread data
                             (object_literal
                                [(lit "documentId", documentId);
                                 (lit "fileName", fileName);
                                 (lit "fileSize", fileSize);
                                 (lit "generatedAt", generatedAt);
                                 (lit "downloadUrl", downloadUrl);
                                 (lit "message",
                                   js_or message0
                                     (JStr (lit "Document generated successfully")))])))])))
    (fun error =>
       console_error (lit "Error generating document:") error ;;
       throw error).

(** [getDocumentStatus(requestId)]: the request its [fetch] sends, if
    the template literal of the address converts [requestId].  No
    component calls the function; it is modelled as the request and the
    part that runs once the [fetch] has settled. *)
Definition getDocumentStatus_request (requestId : jsval) (w : World)
  : completion Request :=
  match to_string requestId with
  | Normal id =>
      Normal {| url := API_BASE_URL w ++ lit "/documents/status/" ++ id;
                method := lit "GET";
                content_type := None;
                credentials := lit "include";
                body := None |}
  | Thrown e => Thrown e
  end.

(** [getDocumentStatus], from the settled [fetch] on. *)
Definition getDocumentStatus_resume (o : Outcome) : M jsval :=
  try_catch
    (response <- await o ;;
     (if negb (response_ok (fst response)) then
        err <- lift (new_Error
                       (JStr (lit "Failed to get document status: "
                              ++ number_to_string (fst response) 0))) ;;
        throw err
      else ret tt) ;;
     JSON_parse_or_throw (snd response))
    (fun error =>
       console_error (lit "Error getting document status:") error ;;
       throw error).

(* ================================================================= *)
(** ** utils/helpers.js *)

(** [timestamp.replace(/[:.]/g, '-')] *)
Definition replace_colon_dot (s : jsstring) : jsstring :=
  map (fun c => if N.eqb c 58 || N.eqb c 46 then 45%N else c) s.

Definition generateDocumentFilename (domain : jsval) : M jsval :=
  now <- new_Date ;;
  let timestamp := replace_colon_dot (toISOString now) in
  domain_text <- lift (to_string domain) ;;
  ret (JStr (domain_text ++ lit "_analysis_" ++ timestamp ++ lit ".doc")).

(** [isValidSqlQuery] (exported, not called by the components) *)
Definition isValidSqlQuery (query : jsval) : bool :=
  match query with
  | JStr s => match s with
              | [] => false
              | _ => Nat.ltb 0 (length (trim s))
              end
  | _ => false
  end.

(* ================================================================= *)
(** ** components/home/BusinessDomainSelect.js, QueryForm.js, HomePage.js *)

(** The values of the [businessDomains] menu. *)
Definition businessDomains : list jsstring :=
  [lit "finance"; lit "healthcare"; lit "retail"; lit "technology";
   lit "manufacturing"; lit "education"; lit "logistics"; lit "marketing";
   lit "hr"; lit "sales"].

Definition with_sqlQuery (s : jsstring) (h : HomeState) : HomeState :=
  {| sqlQuery := s; businessDomain := businessDomain h;
     isLoading := isLoading h; showSuccess := showSuccess h;
     error := error h; lastDocument := lastDocument h |}.
Definition with_businessDomain (s : jsstring) (h : HomeState) : HomeState :=
  {| sqlQuery := sqlQuery h; businessDomain := s;
     isLoading := isLoading h; showSuccess := showSuccess h;
     error := error h; lastDocument := lastDocument h |}.
Definition with_isLoading (b : bool) (h : HomeState) : HomeState :=
  {| sqlQuery := sqlQuery h; businessDomain := businessDomain h;
     isLoading := b; showSuccess := showSuccess h;
     error := error h; lastDocument := lastDocument h |}.
Definition with_showSuccess (b : bool) (h : HomeState) : HomeState :=
  {| sqlQuery := sqlQuery h; businessDomain := businessDomain h;
     isLoading := isLoading h; showSuccess := b;
     error := error h; lastDocument := lastDocument h |}.
Definition with_error (v : jsval) (h : HomeState) : HomeState :=
  {| sqlQuery := sqlQuery h; businessDomain := businessDomain h;
     isLoading := isLoading h; showSuccess := showSuccess h;
     error := v; lastDocument := lastDocument h |}.
Definition with_lastDocument (v : jsval) (h : HomeState) : HomeState :=
  {| sqlQuery := sqlQuery h; businessDomain := businessDomain h;
     isLoading := isLoading h; showSuccess := showSuccess h;
     error := error h; lastDocument := v |}.

Definition setSqlQuery s : M unit := modify (with_home (with_sqlQuery s)).
Definition setBusinessDomain s : M unit :=
  modify (with_home (with_businessDomain s)).
Definition setIsLoading b : M unit := modify (with_home (with_isLoading b)).
Definition setShowSuccess b : M unit := modify (with_home (with_showSuccess b)).
Definition setError v : M unit := modify (with_home (with_error v)).
Definition setLastDocument v : M unit :=
  modify (with_home (with_lastDocument v)).

Definition newline : jsstring := [10%N].

(** [HomePage.performDownload].  The template literal converts each
    substitution as it meets it, so a value that ToString refuses stops
    the function before anything is downloaded. *)
Definition performDownload (documentInfo : jsval) : M unit :=
  domain <- lift (get_prop documentInfo (lit "businessDomain")) ;;
  domain_text <- lift (to_string domain) ;;
  now <- new_Date ;;
  documentId <- lift (get_prop documentInfo (lit "documentId")) ;;
  documentId_text <- lift (to_string documentId) ;;
  query <- lift (get_prop documentInfo (lit "sqlQuery")) ;;
  query_text <- lift (to_string query) ;;
  let mockContent :=
    newline ++ lit "AnalyzeAI ANALYSIS REPORT" ++
    newline ++ lit "=====================" ++
    newline ++
    newline ++ lit "Business Domain: " ++ domain_text ++
    newline ++ lit "Generated: " ++ toISOString now ++
    newline ++ lit "Document ID: " ++ documentId_text ++
    newline ++
    newline ++ lit "SQL Query Analysis:" ++
    newline ++ query_text ++
    newline ++
    newline ++ lit "[This is a mock document. In production, this would contain the actual analysis.]" ++
    newline ++ lit "    " in
  fileName <- lift (get_prop documentInfo (lit "fileName")) ;;
  name <- or_else fileName
            (domain' <- lift (get_prop documentInfo (lit "businessDomain")) ;;
             generateDocumentFilename domain') ;;
  downloadFile mockContent name (lit "text/plain").

(** [HomePage.handleDownload], up to the [await]. *)
Definition handleDownload (query domain : jsstring) : M unit :=
  setIsLoading true ;;
  setError JNull ;;
  async_call (generateDocument query domain).

(** [HomePage.handleDownload], from the settled [generateDocument] on. *)
Definition handleDownload_resume (query domain : jsstring) (o : Outcome)
  : M unit :=
  try_finally
    (try_catch
       (response <- generateDocument_resume domain o ;;
        success <- lift (get_prop response (lit "success")) ;;
        when (truthy success)
          (data <- lift (get_prop response (lit "data")) ;;
           let documentInfo :=
             JObj (spread data
                     (object_literal
                        [(lit "sqlQuery", JStr query);
                         (lit "businessDomain", JStr domain)])) in
           setLastDocument documentInfo ;;
           console_log (lit "Document generated:") data ;;
           performDownload documentInfo ;;
           setShowSuccess true))
       (fun err =>
          setError
            (js_or (JStr (message err))
               (JStr (lit "An error occurred while generating the document")))))
    (setIsLoading false).

Definition handleRedownload : M unit :=
  doc <- gets (fun w => lastDocument (home w)) ;;
  when (truthy doc) (performDownload doc).

Definition handleNewQuery : M unit :=
  setSqlQuery [] ;;
  setBusinessDomain [] ;;
  setShowSuccess false ;;
  setLastDocument JNull ;;
  setError JNull.

Definition handleCloseError : M unit := setError JNull.

(** [QueryForm]: [isQueryEmpty], [isFormValid] and its own
    [handleDownload], on the props [HomePage] passes. *)
Definition isQueryEmpty (h : HomeState) : bool :=
  negb (truthy (JStr (sqlQuery h))) || str_eqb (trim (sqlQuery h)) [].

Definition isFormValid (h : HomeState) : bool :=
  negb (isQueryEmpty h) && truthy (JStr (businessDomain h)).

Definition QueryForm_handleDownload : M unit :=
  h <- gets home ;;
  when (isFormValid h) (handleDownload (sqlQuery h) (businessDomain h)).

(** What [HomePage] renders under its title. *)
Inductive View : Type := LoadingState | SuccessState | QueryForm.

Definition HomePage_render (h : HomeState) : View :=
  if isLoading h then LoadingState
  else if showSuccess h then SuccessState
  else QueryForm.

(* ================================================================= *)
(** ** Events

    What can happen to a loaded page: the pending [fetch] number [i]
    settles, or the user acts on an element that is rendered and enabled. *)

Definition resume (k : Awaiting) (o : Outcome) : M unit :=
  match k with
  | AwaitCallback => checkOAuthCallback_resume o
  | AwaitStatus => checkAuthStatus_resume o
  | AwaitLogout => logout_resume o
  | AwaitGenerate query domain => handleDownload_resume query domain o
  end.

Definition remove_nth (A : Type) (i : nat) (l : list A) : list A :=
  firstn i l ++ skipn (S i) l.

Definition settle (i : nat) (o : Outcome) : M unit :=
  fun w => match nth_error (awaiting w) i with
           | Some k =>
               async_call (resume k o)
                 (with_network (fun l => l) (remove_nth i) w)
           | None => (Normal tt, w)
           end.

Inductive Event : Type :=
| Settle (i : nat) (o : Outcome)
| ClickLogout                       (* Header: the Logout menu item *)
| ClickProvider (name : jsstring)   (* LoginDialog: a provider button *)
| TypeQuery (text : jsstring)       (* SqlQueryInput: onChange *)
| SelectDomain (value : jsstring)   (* BusinessDomainSelect: a MenuItem *)
| ClickDownload                     (* DownloadButton *)
| ClickRedownload                   (* SuccessState: Re-download Document *)
| ClickNewQuery                     (* SuccessState: Analyze Another Script *)
| CloseError.                       (* Snackbar: onClose *)

Definition ssoProviders : list jsstring :=
  [lit "Google"; lit "Outlook"; lit "GitHub"].

Definition mem (s : jsstring) (l : list jsstring) : bool :=
  existsb (str_eqb s) l.

(** The handler an event runs; an element that is not rendered, or is
    disabled, runs nothing. *)
Definition dispatch (ev : Event) : M unit :=
  match ev with
  | Settle i o => settle i o
  | ClickLogout =>
      w <- gets (fun w => w) ;;
      when (negb (loading (auth w)) && isAuthenticated w) (async_call logout)
  | ClickProvider name =>
      d <- gets dialog ;;
      when (negb (dlg_loading d) && mem name ssoProviders)
        (async_call (handleSSOLogin name))
  | TypeQuery text =>
      h <- gets home ;;
      match HomePage_render h with
      | QueryForm => setSqlQuery text
      | _ => ret tt
      end
  | SelectDomain value =>
      h <- gets home ;;
      match HomePage_render h with
      | QueryForm =>
          when (negb (isQueryEmpty h) && mem value ([] :: businessDomains))
            (setBusinessDomain value)
      | _ => ret tt
      end
  | ClickDownload =>
      h <- gets home ;;
      match HomePage_render h with
      | QueryForm => when (isFormValid h) QueryForm_handleDownload
      | _ => ret tt
      end
  | ClickRedownload =>
      h <- gets home ;;
      match HomePage_render h with
      | SuccessState => handleRedownload
      | _ => ret tt
      end
  | ClickNewQuery =>
      h <- gets home ;;
      match HomePage_render h with
      | SuccessState => handleNewQuery
      | _ => ret tt
      end
  | CloseError => handleCloseError
  end.

(** A page that has just been loaded: the components hold their initial
    state and nothing has been fetched, logged or downloaded.  The stored
    entries, the address and the clock are whatever they are. *)
Definition initial_home : HomeState :=
  {| sqlQuery := []; businessDomain := []; isLoading := false;
     showSuccess := false; error := JNull; lastDocument := JNull |}.

Definition page_load (base : jsval) (storage : list (jsstring * jsstring))
  (loc : Location) (clk : nat -> Date_) : World :=
  {| REACT_APP_API_BASE_URL := base;
     localStorage := storage;
     location := loc;
     navigations := [];
     console := [];
     fetches := [];
     awaiting := [];
     downloads := [];
     clock := clk;
     ticks := 0;
     auth := {| user := JNull; loading := true |};
     dialog := {| dlg_loading := false; dlg_error := JNull |};
     home := initial_home |}.

(** The worlds a page can be in: it loads, [AuthProvider] mounts and runs
    its effect, then events arrive one at a time. *)
Inductive reachable : World -> Prop :=
| reach_mount base storage loc clk :
    reachable (exec AuthProvider_useEffect (page_load base storage loc clk))
| reach_event w ev :
    reachable w -> reachable (exec (dispatch ev) w).

(* ================================================================= *)
(** ** Vocabulary of the statements *)

(** [keeps p m]: running [m] does not change the part [p] of the world,
    however it completes. *)
Definition keeps (X : Type) (p : World -> X) (A : Type) (m : M A) : Prop :=
  forall w, p (snd (m w)) = p w.

(** A parse that did not run out of fuel; what it leaves of the text is no
    longer than the text, and the value is never [undefined]. *)
Definition well_parsed (s : jsstring) (p : parsed) : Prop :=
  match p with
  | POk v r => length r <= length s /\ v <> JUndefined
  | PSyntax => True
  | PFuel => False
  end.

(** The stored session entry. *)
Definition stored_user (w : World) : option jsstring :=
  lookup (lit "user") (localStorage w).

(** The identity in memory and the one in store. *)
Definition identity (w : World) : jsval * option jsstring :=
  (user (auth w), stored_user w).

(** The identity made of a response: [id] falls back on [email] and
    [provider] on ["oauth"]. *)
Definition identity_of (data : jsval) : jsval :=
  JObj [(lit "name", property data (lit "name"));
        (lit "email", property data (lit "email"));
        (lit "id",
          js_or (property data (lit "id")) (property data (lit "email")));
        (lit "provider",
          js_or (property data (lit "provider")) (JStr (lit "oauth")))].

(** The guard in front of both places that make an identity:
    [data.name && data.email]. *)
Definition has_name_and_email (data : jsval) : bool :=
  truthy (js_and (property data (lit "name")) (property data (lit "email"))).

(** An identity with its four fields present and not empty. *)
Definition populated (u : jsval) : Prop :=
  truthy (property u (lit "name")) = true /\
  truthy (property u (lit "email")) = true /\
  truthy (property u (lit "id")) = true /\
  truthy (property u (lit "provider")) = true.

(** The three ways an event can leave the identity: as it was, absent in
    memory and in store, or made of a response that carries a name and
    an email, the same in memory and in store. *)
Definition identity_outcome (w w' : World) : Prop :=
  identity w' = identity w
  \/ (user (auth w') = JNull /\ stored_user w' = None)
  \/ (exists data,
        has_name_and_email data = true /\
        user (auth w') = identity_of data /\
        stored_user w' = Some (JSON_stringify (identity_of data))).

(** The number of generation calls that have not settled. *)
Definition is_generation (k : Awaiting) : bool :=
  match k with
  | AwaitGenerate _ _ => true
  | _ => false
  end.

Definition outstanding (w : World) : nat :=
  length (filter is_generation (awaiting w)).

(** What the single-flight and validation arguments look at: the pending
    generation calls, the loading flag and the domain selected. *)
Definition form_view (w : World) : list Awaiting * bool * jsstring :=
  (filter is_generation (awaiting w), isLoading (home w),
   businessDomain (home w)).

(** A request the data model accepts: a query with something besides
    white space, and one of the ten domain codes. *)
Definition valid_request (query domain : jsstring) : Prop :=
  trim query <> [] /\ In domain businessDomains.

(** A generation call that fails: the [fetch] rejects (network failure) or
    the response is not 2xx. *)
Definition generation_failed (o : Outcome) : bool :=
  match o with
  | Rejected _ => true
  | Response status _ => negb (response_ok status)
  end.

(** The fallback of [HomePage.handleDownload] for an error without text. *)
Definition generic_failure : jsstring :=
  lit "An error occurred while generating the document".

(** The text [x], or [fallback] when [x] is empty. *)
Definition text_or (x fallback : jsstring) : jsstring :=
  match x with
  | [] => fallback
  | _ :: _ => x
  end.

(** ToString accepts the value. *)
Definition converts (v : jsval) : bool :=
  match to_string v with
  | Normal _ => true
  | Thrown _ => false
  end.

(** A document [performDownload] can make a file of: ToString accepts
    the three fields of the report and the file name, if there is one. *)
Definition downloadable (doc : jsval) : bool :=
  converts (property doc (lit "businessDomain")) &&
  converts (property doc (lit "documentId")) &&
  converts (property doc (lit "sqlQuery")) &&
  (if truthy (property doc (lit "fileName"))
   then converts (property doc (lit "fileName"))
   else true).

(** The file [performDownload] makes of a downloadable document: the
    report is dated [now]; a document without [fileName] gets a name
    dated [later]. *)
Definition delivery (doc : jsval) (now later : Date_) : Download :=
  {| content :=
       newline ++ lit "AnalyzeAI ANALYSIS REPORT" ++
       newline ++ lit "=====================" ++
       newline ++
       newline ++ lit "Business Domain: "
               ++ text_of (property doc (lit "businessDomain")) ++
       newline ++ lit "Generated: " ++ toISOString now ++
       newline ++ lit "Document ID: "
               ++ text_of (property doc (lit "documentId")) ++
       newline ++
       newline ++ lit "SQL Query Analysis:" ++
       newline ++ text_of (property doc (lit "sqlQuery")) ++
       newline ++
       newline ++ lit "[This is a mock document. In production, this would contain the actual analysis.]" ++
       newline ++ lit "    ";
     filename :=
       if truthy (property doc (lit "fileName"))
       then text_of (property doc (lit "fileName"))
       else text_of (property doc (lit "businessDomain"))
            ++ lit "_analysis_"
            ++ replace_colon_dot (toISOString later)
            ++ lit ".doc";
     contentType := lit "text/plain" |}.

(** Clock reads of one [performDownload]. *)
Definition reads_per_download (doc : jsval) : nat :=
  if truthy (property doc (lit "fileName")) then 1 else 2.

(** The invariant of a loaded page: a generation call is pending exactly
    while the loading flag is up, and then only one; what is pending is
    valid; the domain selected is none or one of the menu. *)
Definition form_invariant (w : World) : Prop :=
  outstanding w = (if isLoading (home w) then 1 else 0) /\
  (forall query domain,
      In (AwaitGenerate query domain) (filter is_generation (awaiting w)) ->
      valid_request query domain) /\
  In (businessDomain (home w)) ([] :: businessDomains).

(** What the success state shows: the flag and the cached document. *)
Definition success_view (w : World) : bool * jsval :=
  (showSuccess (home w), lastDocument (home w)).

(** In the success state a document is cached, one [performDownload] can
    make a file of; and success is not shown while the page is loading. *)
Definition success_invariant (w : World) : Prop :=
  (showSuccess (home w) = true ->
   exists doc, lastDocument (home w) = JObj doc /\
               downloadable (JObj doc) = true) /\
  (isLoading (home w) = true -> showSuccess (home w) = false).

(** [n] times the same event. *)
Fixpoint repeat_event (n : nat) (ev : Event) (w : World) : World :=
  match n with
  | O => w
  | S n' => exec (dispatch ev) (repeat_event n' ev w)
  end.

(** A page for the examples: the entries [storage], the path "/" with the
    parameters [query], no build-time base URL, and a clock that gives
    2024-01-01 plus one second per read. *)
Definition example_clock (n : nat) : Date_ :=
  {| getTime := 1704067200000 + 1000 * Z.of_nat n;
     toISOString := lit "2024-01-01T00:00:0" ++ decimal (N.of_nat n)
                    ++ lit ".000Z" |}.

Definition example_page (storage : list (jsstring * jsstring))
  (query : list (jsstring * jsstring)) : World :=
  page_load JUndefined storage
    {| pathname := lit "/"; search := query; hash := [] |} example_clock.

(* ----------------------------------------------------------------- *)
(** *** Vocabulary of the further properties *)

(** A value JSON text carries as it is: a string, a boolean or [null]. *)
Definition scalar (v : jsval) : bool :=
  match v with
  | JNull | JBool _ | JStr _ => true
  | _ => false
  end.

(** An object whose properties are all scalar. *)
Definition flat (o : props) : bool := forallb (fun kv => scalar (snd kv)) o.

(** One member of an object in JSON text. *)
Definition member_text (kv : jsstring * jsval) : jsstring :=
  quote (fst kv) ++ lit ":" ++ JSON_stringify (snd kv).

(** [new URLSearchParams(search).get(name)] on an address. *)
Definition search_param (name : jsstring) (loc : Location) : jsval :=
  match lookup name (search loc) with
  | Some s => JStr s
  | None => JNull
  end.

(** The stored session entry is absent, empty or JSON text: the cases in
    which the hydration at mount does not throw. *)
Definition hydrates (storage : list (jsstring * jsstring)) : bool :=
  match lookup (lit "user") storage with
  | Some (c :: s) =>
      match JSON_parse (c :: s) with
      | Some _ => true
      | None => false
      end
  | _ => true
  end.

(** The requests of the session: the status probe, the callback exchange
    (with the [code] and [state] of the address) and the logout. *)
Definition status_request (w : World) : Request :=
  {| url := AUTH_STATUS w; method := lit "GET"; content_type := None;
     credentials := lit "include"; body := None |}.

Definition callback_request (w : World) : Request :=
  {| url := AUTH_CALLBACK w; method := lit "POST";
     content_type := Some (lit "application/json");
     credentials := lit "include";
     body := Some (JSON_stringify
                     (JObj [(lit "code", search_param (lit "code") (location w));
                            (lit "state", search_param (lit "state") (location w))])) |}.

Definition logout_request (w : World) : Request :=
  {| url := LOGOUT w; method := lit "POST"; content_type := None;
     credentials := lit "include"; body := None |}.

(** The request of a generation call. *)
Definition generation_request (query domain : jsstring) (w : World) : Request :=
  {| url := API_BASE_URL1 w ++ lit "/prompt/sql";
     method := lit "POST";
     content_type := Some (lit "application/json");
     credentials := lit "include";
     body := Some (JSON_stringify
                     (JObj [(lit "script", JStr query);
                            (lit "business", JStr domain)])) |}.

(** The answers on which the status probe changes the identity: 401, or
    2xx with a body that has a name and an email. *)
Definition probe_decides (o : Outcome) : bool :=
  match o with
  | Rejected _ => false
  | Response status text =>
      if response_ok status then
        match JSON_parse text with
        | Some data => has_name_and_email data
        | None => false
        end
      else Z.eqb status 401
  end.

(** The answers on which the callback exchange logs in. *)
Definition exchange_succeeds (o : Outcome) : bool :=
  match o with
  | Rejected _ => false
  | Response status text =>
      response_ok status &&
      match JSON_parse text with
      | Some data => has_name_and_email data
      | None => false
      end
  end.

(** The status probe among the pending calls. *)
Definition is_probe (k : Awaiting) : bool :=
  match k with
  | AwaitStatus => true
  | _ => false
  end.

(** At most one probe is pending, and none once [loading] is cleared. *)
Definition probe_invariant (w : World) : Prop :=
  length (filter is_probe (awaiting w)) <= 1 /\
  (loading (auth w) = false -> filter is_probe (awaiting w) = []).

(** The addresses the page fetches from, and a request that goes to one
    of them with the cookies of the session. *)
Definition backend_urls (w : World) : list jsstring :=
  [AUTH_CALLBACK w; AUTH_STATUS w; LOGOUT w;
   API_BASE_URL1 w ++ lit "/prompt/sql"].

Definition to_backend (w : World) (r : Request) : Prop :=
  credentials r = lit "include" /\ In (url r) (backend_urls w).

(** [endpointMap] of [handleSSOLogin]. *)
Definition sso_endpoints (w : World) : list (jsstring * jsstring) :=
  [(lit "Google", LOGIN_GOOGLE w); (lit "Outlook", LOGIN_MICROSOFT w);
   (lit "GitHub", LOGIN_GITHUB w)].

(** The page has not navigated, or it has navigated once, to a login
    endpoint, and the dialog is still loading. *)
Definition navigation_invariant (w : World) : Prop :=
  navigations w = [] \/
  (dlg_loading (dialog w) = true /\
   exists name target, In (name, target) (sso_endpoints w) /\
                       navigations w = [target]).

(** The file name [generateDocument] gives a document without one. *)
Definition pdf_name (domain : jsstring) (now : Date_) : jsstring :=
  domain ++ lit "_analysis_" ++ slice0 10 (toISOString now) ++ lit ".pdf".

(** A 2xx body no document can be made of: not JSON, or [null]. *)
Definition unusable_body (text : jsstring) : bool :=
  match JSON_parse text with
  | None | Some JNull => true
  | Some _ => false
  end.

(** A string with a character that is not white space. *)
Definition has_visible (s : jsstring) : bool :=
  existsb (fun c => negb (is_js_space c)) s.

(* ================================================================= *)
(** * Properties *)

Unset Implicit Arguments.

(** ** The value model on examples *)

Example to_string_examples :
  to_string (JNum 15 (-1)) = Normal (lit "1.5") /\
  to_string (JInt 500) = Normal (lit "500") /\
  to_string (JNum (-1) 21) = Normal (lit "-1e+21") /\
  to_string (JNum 1 (-7)) = Normal (lit "1e-7") /\
  to_string (JNum 123 (-8)) = Normal (lit "0.00000123") /\
  to_string (JNum 1234 20) = Normal (lit "1.234e+23") /\
  to_string (JArr [JInt 1; JNull; JStr (lit "a")]) = Normal (lit "1,,a") /\
  to_string (JArr [JArr [JInt 1; JInt 2]; JObj []])
  = Normal (lit "1,2,[object Object]") /\
  to_string (JObj [(lit "toString", JInt 0)]) = Thrown not_primitive /\
  to_string (JArr [JInt 1; JObj [(lit "toString", JNull)]])
  = Thrown not_primitive.
Proof. repeat split; reflexivity. Qed.

Example JSON_parse_examples :
  JSON_parse (json_text "{ 'name' : 'Ann', 'tags':[1, 2.50, true, null] }")
  = Some (JObj [(lit "name", JStr (lit "Ann"));
                (lit "tags", JArr [JInt 1; JNum 250 (-2); JBool true; JNull])])
  /\ JSON_parse (json_text "{'b':1,'10':2,'9':3,'b':4}")
     = Some (JObj [(lit "9", JInt 3); (lit "10", JInt 2); (lit "b", JInt 4)])
  /\ JSON_parse (json_text "'a\u0041\n'") = Some (JStr [97; 65; 10]%N)
  /\ JSON_parse (json_text " -0.5e+3 ") = Some (JNum (-5) 2)
  /\ JSON_parse (json_text "{'name':'Ann',}") = None
  /\ JSON_parse (json_text "01") = None
  /\ JSON_parse (json_text "[1 2]") = None
  /\ JSON_parse (json_text "undefined") = None
  /\ JSON_parse (json_text "") = None.
Proof. repeat split; vm_compute; reflexivity. Qed.

Example JSON_stringify_examples :
  JSON_stringify (JObj [(lit "name", JStr (lit "Ann")); (lit "id", JUndefined);
                        (lit "n", JArr [JNum 15 (-1); JUndefined])])
  = json_text "{'name':'Ann','n':[1.5,null]}"
  /\ JSON_stringify (JStr [97; 34; 10; 1; 55357; 56832; 55357]%N)
     = [34; 97; 92; 34; 92; 110]%N ++ lit "\u0001" ++ [55357; 56832]%N
       ++ lit "\ud83d" ++ [34]%N.
Proof. repeat split; vm_compute; reflexivity. Qed.

(* ================================================================= *)
(** ** ToString *)

(** The only error of ToString is the TypeError of a value that has no
    primitive. *)
Lemma to_string_thrown (v : jsval) (e : jserror) :
  to_string v = Thrown e -> e = not_primitive.
Proof.
  revert v e. fix IH 1. intros v e.
  destruct v as [| |b|m x|s|l|o]; cbn [to_string].
  - discriminate.
  - discriminate.
  - destruct b; discriminate.
  - discriminate.
  - discriminate.
  - match goal with
    | |- match ?f l with _ => _ end = _ -> _ =>
        assert (A : forall e', f l = Thrown e' -> e' = not_primitive)
    end.
    { clear e. revert l. fix IHl 1. intros l e'. destruct l as [|x l].
      - discriminate.
      - cbv beta iota fix. fold to_string.
        match goal with
        | |- match ?c with _ => _ end = _ -> _ =>
            assert (B : forall e0, c = Thrown e0 -> e0 = not_primitive);
            [|destruct c as [t|e0]]
        end.
        + pose proof (IH x) as IHx. destruct x; try discriminate; exact IHx.
        + match goal with
          | |- match ?c with _ => _ end = _ -> _ =>
              specialize (IHl l); destruct c as [r|e1]
          end.
          * discriminate.
          * intros [= <-]. apply IHl. reflexivity.
        + intros [= <-]. apply B. reflexivity. }
    match goal with
    | |- match ?c with _ => _ end = _ -> _ => destruct c as [parts|e0]
    end; [discriminate|].
    intros [= <-]. apply A. reflexivity.
  - destruct (lookup _ o); [intros [= <-]; reflexivity | discriminate].
Qed.

Lemma converts_text (v : jsval) :
  converts v = true -> to_string v = Normal (text_of v).
Proof.
  unfold converts, text_of. destruct (to_string v); [reflexivity|discriminate].
Qed.

Lemma converts_refused (v : jsval) :
  converts v = false -> to_string v = Thrown not_primitive.
Proof.
  unfold converts. destruct (to_string v) as [s|e] eqn:T; [discriminate|].
  intros _. rewrite (to_string_thrown v e T). reflexivity.
Qed.

Lemma new_Error_truthy (v : jsval) :
  truthy v = true ->
  new_Error v = match to_string v with
                | Normal s => Normal (Error_ (lit "Error") s)
                | Thrown e => Thrown e
                end.
Proof. destruct v; try discriminate; reflexivity. Qed.

(* ================================================================= *)
(** ** Strings and property lists *)

Lemma str_eqb_eq (a b : jsstring) : str_eqb a b = true <-> a = b.
Proof.
  revert b; induction a as [|x a IH]; intros [|y b]; simpl;
    try (split; [discriminate | discriminate]); try tauto.
  rewrite andb_true_iff, N.eqb_eq, IH.
  split; [intros [-> ->]; reflexivity | intros H; inversion H; auto].
Qed.

Lemma str_eqb_refl (a : jsstring) : str_eqb a a = true.
Proof. apply str_eqb_eq; reflexivity. Qed.

Lemma str_eqb_neq (a b : jsstring) : str_eqb a b = false <-> a <> b.
Proof.
  rewrite <- str_eqb_eq. destruct (str_eqb a b); split; congruence.
Qed.

Lemma str_eqb_sym (a b : jsstring) : str_eqb a b = str_eqb b a.
Proof.
  destruct (str_eqb a b) eqn:E.
  - apply str_eqb_eq in E; subst; symmetry; apply str_eqb_refl.
  - symmetry; apply str_eqb_neq; apply str_eqb_neq in E; congruence.
Qed.

Section AssocFacts.
Variable A : Type.
Implicit Types (o : list (jsstring * A)) (k : jsstring) (x : A).

Lemma lookup_app k o o' :
  lookup k (o ++ o') =
  match lookup k o with Some x => Some x | None => lookup k o' end.
Proof.
  induction o as [|[k' y] o IH]; simpl; [reflexivity|].
  destruct (str_eqb k' k); auto.
Qed.

Lemma lookup_replace_prop k k' x o :
  lookup k o <> None ->
  lookup k' (replace_prop k x o) =
  if str_eqb k k' then Some x else lookup k' o.
Proof.
  induction o as [|[j y] o IH]; simpl; [congruence|].
  destruct (str_eqb j k) eqn:E; simpl.
  - intros _. apply str_eqb_eq in E; subst j.
    destruct (str_eqb k k'); reflexivity.
  - intros H. destruct (str_eqb j k') eqn:E'.
    + apply str_eqb_eq in E'; subst j.
      rewrite str_eqb_sym, E. reflexivity.
    + auto.
Qed.

Lemma lookup_insert_index n k k' x o :
  lookup k o = None ->
  lookup k' (insert_index n k x o) =
  if str_eqb k k' then Some x else lookup k' o.
Proof.
  induction o as [|[j y] o IH]; simpl.
  - intros _. destruct (str_eqb k k'); reflexivity.
  - destruct (str_eqb j k) eqn:E; [discriminate|]. intros H.
    destruct (array_index j) as [n'|]; [destruct (n' <? n)%N|]; simpl;
      try reflexivity.
    destruct (str_eqb j k') eqn:E'; [|auto].
    apply str_eqb_eq in E'; subst j. rewrite str_eqb_sym, E. reflexivity.
Qed.

(** Reading a property after CreateDataProperty. *)
Lemma lookup_define k k' x o :
  lookup k' (define k x o) = if str_eqb k k' then Some x else lookup k' o.
Proof.
  unfold define. destruct (lookup k o) eqn:L.
  - apply lookup_replace_prop. congruence.
  - destruct (array_index k).
    + apply lookup_insert_index; assumption.
    + rewrite lookup_app. simpl.
      destruct (str_eqb k k') eqn:E.
      * apply str_eqb_eq in E; subst k'. rewrite L. reflexivity.
      * destruct (lookup k' o); reflexivity.
Qed.

Lemma lookup_remove_prop k k' o :
  lookup k' (remove_prop k o) = if str_eqb k k' then None else lookup k' o.
Proof.
  induction o as [|[j y] o IH]; simpl.
  - destruct (str_eqb k k'); reflexivity.
  - destruct (str_eqb j k) eqn:E; simpl.
    + apply str_eqb_eq in E; subst j. rewrite IH.
      destruct (str_eqb k k'); reflexivity.
    + rewrite IH. destruct (str_eqb j k') eqn:E'; [|reflexivity].
      apply str_eqb_eq in E'; subst j. rewrite str_eqb_sym, E. reflexivity.
Qed.

Lemma lookup_In k x o : lookup k o = Some x -> In (k, x) o.
Proof.
  induction o as [|[j y] o IH]; simpl; [discriminate|].
  destruct (str_eqb j k) eqn:E; [|auto].
  apply str_eqb_eq in E; subst j. intros H; inversion H; auto.
Qed.

Lemma In_lookup k x o : In (k, x) o -> lookup k o <> None.
Proof.
  induction o as [|[j y] o IH]; simpl; [tauto|].
  intros [H|H].
  - inversion H; subst. rewrite str_eqb_refl. discriminate.
  - destruct (str_eqb j k); [discriminate | auto].
Qed.
End AssocFacts.

(** Reading a property of [{...dst, ...src}]: the one of [src] when [src]
    has it, else the one of [dst]. *)
Lemma lookup_spread (src : jsval) (dst : props) (k : jsstring) :
  lookup k (spread src dst) =
  match lookup k (own_props src) with
  | Some x => Some x
  | None => lookup k dst
  end.
Proof.
  unfold spread.
  set (o := own_props src).
  assert (G : forall (l : props) (acc : props),
             (forall j y, In (j, y) l -> lookup j o <> None) ->
             lookup k
               (fold_left
                  (fun acc kv =>
                     match lookup (fst kv) o with
                     | Some x => define (fst kv) x acc
                     | None => acc
                     end) l acc) =
             match lookup k l with
             | Some _ => lookup k o
             | None => lookup k acc
             end).
  { induction l as [|[j y] l IH]; intros acc Hl; simpl; [reflexivity|].
    rewrite IH by (intros; eapply Hl; right; eauto).
    destruct (lookup j o) as [z|] eqn:Lj.
    - destruct (str_eqb j k) eqn:E.
      + apply str_eqb_eq in E; subst j.
        destruct (lookup k l); [reflexivity|].
        rewrite lookup_define, str_eqb_refl. congruence.
      + destruct (lookup k l); [reflexivity|].
        rewrite lookup_define, E. reflexivity.
    - exfalso. eapply Hl; [left; reflexivity | exact Lj]. }
  rewrite G by (intros j y Hin; eapply In_lookup; eauto).
  destruct (lookup k o); reflexivity.
Qed.

(* ================================================================= *)
(** ** The JSON parser is total *)

Lemma drop_while_length (p : code_unit -> bool) (s : jsstring) :
  length (drop_while p s) <= length s.
Proof.
  induction s as [|c s IH]; simpl; [lia|].
  destruct (p c); simpl; lia.
Qed.

Lemma skip_ws_cons (s : jsstring) (c : code_unit) (r : jsstring) :
  skip_ws s = c :: r -> S (length r) <= length s.
Proof.
  intros H. pose proof (drop_while_length is_json_ws s) as L.
  unfold skip_ws in H. rewrite H in L. exact L.
Qed.

Lemma parse_chars_length :
  forall (n : nat) (s acc str r : jsstring),
    length s <= n -> parse_chars s acc = Some (str, r) -> length r < length s.
Proof.
  induction n as [|n IH]; intros s acc str r Hn H.
  - destruct s; [discriminate | simpl in Hn; lia].
  - destruct s as [|c s]; [discriminate|]. simpl in Hn, H.
    destruct (N.eqb c 34).
    { inversion H; subst; simpl; lia. }
    destruct (N.eqb c 92).
    { destruct s as [|x s]; [discriminate|].
      destruct (N.eqb x 117).
      - destruct s as [|a [|b [|c' [|d s]]]]; try discriminate.
        destruct (hex4 a b c' d); [|discriminate].
        apply IH in H; simpl in *; lia.
      - destruct (unescape x); [|discriminate].
        apply IH in H; simpl in *; lia. }
    destruct (c <? 32)%N; [discriminate|].
    apply IH in H; simpl in *; lia.
Qed.

Lemma span_digits_length (s : jsstring) :
  length (snd (span_digits s)) <= length s.
Proof.
  induction s as [|c s IH]; simpl; [lia|].
  destruct (is_digit c); simpl; [|lia].
  destruct (span_digits s); simpl in *; lia.
Qed.

Lemma eat_length (c : code_unit) (s : jsstring) :
  length (snd (eat c s)) <= length s.
Proof.
  destruct s as [|x s]; simpl; [lia|]. destruct (N.eqb x c); simpl; lia.
Qed.

Lemma parse_fraction_length (s f r : jsstring) :
  parse_fraction s = Some (f, r) -> length r <= length s.
Proof.
  unfold parse_fraction. pose proof (eat_length 46%N s) as L.
  destruct (eat 46%N s) as [dot s1]; simpl in L. destruct dot.
  - pose proof (span_digits_length s1) as L1.
    destruct (span_digits s1) as [f' r']; simpl in L1.
    destruct f'; [discriminate|]. intros H; inversion H; subst; lia.
  - intros H; inversion H; subst; lia.
Qed.

Lemma parse_exponent_length (s : jsstring) (x : Z) (r : jsstring) :
  parse_exponent s = Some (x, r) -> length r <= length s.
Proof.
  unfold parse_exponent. destruct s as [|c s]; [intros H; inversion H; lia|].
  destruct (N.eqb c 101 || N.eqb c 69); [|intros H; inversion H; lia].
  pose proof (eat_length 45%N s) as L1.
  destruct (eat 45%N s) as [minus r1]; simpl in L1.
  assert (L2 : length (snd (if minus then (true, r1) else eat 43%N r1))
               <= length r1)
    by (destruct minus; [simpl; lia | apply eat_length]).
  destruct (if minus then (true, r1) else eat 43%N r1) as [b r2]; simpl in L2.
  pose proof (span_digits_length r2) as L3.
  destruct (span_digits r2) as [d r3]; simpl in L3.
  destruct d; [discriminate|]. intros H; inversion H; subst; simpl; lia.
Qed.

Lemma parse_number_good (s : jsstring) (v : jsval) (r : jsstring) :
  parse_number s = Some (v, r) -> length r <= length s /\ v <> JUndefined.
Proof.
  unfold parse_number. pose proof (eat_length 45%N s) as L0.
  destruct (eat 45%N s) as [neg s1]; simpl in L0.
  pose proof (span_digits_length s1) as L1.
  destruct (span_digits s1) as [int s2]; simpl in L1.
  destruct (negb (int_ok int)); [discriminate|].
  destruct (parse_fraction s2) as [[frac s3]|] eqn:F; [|discriminate].
  apply parse_fraction_length in F.
  destruct (parse_exponent s3) as [[x s4]|] eqn:X; [|discriminate].
  apply parse_exponent_length in X.
  intros H; inversion H; subst. split; [lia | discriminate].
Qed.

Lemma strip_prefix_length (p s r : jsstring) :
  strip_prefix p s = Some r -> length r <= length s.
Proof.
  revert s; induction p as [|x p IH]; intros s; simpl.
  - intros H; inversion H; lia.
  - destruct s as [|y s]; [discriminate|].
    destruct (N.eqb x y); [|discriminate].
    intros H; apply IH in H; simpl; lia.
Qed.

Lemma parse_literal_good (s : jsstring) (v : jsval) (r : jsstring) :
  parse_literal s = Some (v, r) -> length r <= length s /\ v <> JUndefined.
Proof.
  unfold parse_literal.
  destruct (strip_prefix (lit "true") s) eqn:T.
  { apply strip_prefix_length in T. intros H; inversion H; subst.
    split; [lia | discriminate]. }
  destruct (strip_prefix (lit "false") s) eqn:F.
  { apply strip_prefix_length in F. intros H; inversion H; subst.
    split; [lia | discriminate]. }
  destruct (strip_prefix (lit "null") s) eqn:U.
  { apply strip_prefix_length in U. intros H; inversion H; subst.
    split; [lia | discriminate]. }
  apply parse_number_good.
Qed.

Lemma parse_enough_fuel (f : nat) :
  (forall s, 2 * length s + 1 <= f -> well_parsed s (parse_value f s)) /\
  (forall s acc, 2 * length s + 2 <= f ->
                 well_parsed s (parse_elements f s acc)) /\
  (forall s acc, 2 * length s + 2 <= f ->
                 well_parsed s (parse_members f s acc)).
Proof.
  induction f as [|f (IHv & IHe & IHm)].
  - repeat split; intros; lia.
  - repeat split.
    + intros s Hf. simpl.
      destruct (skip_ws s) as [|c r] eqn:W; [exact I|].
      apply skip_ws_cons in W.
      destruct (N.eqb c 123).
      { destruct (skip_ws r) as [|c' r'] eqn:W'; [exact I|].
        apply skip_ws_cons in W'.
        destruct (N.eqb c' 125); [simpl; split; [lia|discriminate]|].
        specialize (IHm (c' :: r') []). simpl in IHm.
        destruct (parse_members f (c' :: r') []); simpl in *;
          try (apply IHm; lia).
        destruct IHm; [lia|]. split; [lia|assumption]. }
      destruct (N.eqb c 91).
      { destruct (skip_ws r) as [|c' r'] eqn:W'; [exact I|].
        apply skip_ws_cons in W'.
        destruct (N.eqb c' 93); [simpl; split; [lia|discriminate]|].
        specialize (IHe (c' :: r') []). simpl in IHe.
        destruct (parse_elements f (c' :: r') []); simpl in *;
          try (apply IHe; lia).
        destruct IHe; [lia|]. split; [lia|assumption]. }
      destruct (N.eqb c 34).
      { destruct (parse_chars r []) as [[str r']|] eqn:C; [|exact I].
        apply (parse_chars_length (length r)) in C; [|lia].
        simpl. split; [lia | discriminate]. }
      destruct (parse_literal (c :: r)) as [[v r']|] eqn:L; [|exact I].
      apply parse_literal_good in L. simpl in *. split; [lia | tauto].
    + intros s acc Hf. simpl.
      specialize (IHv s). 
      destruct (parse_value f s) as [v r| |]; simpl in *;
        try (apply IHv; lia).
      destruct IHv as [Lr _]; [lia|].
      destruct (skip_ws r) as [|c r'] eqn:W; [exact I|].
      apply skip_ws_cons in W.
      destruct (N.eqb c 44).
      { specialize (IHe r' (v :: acc)).
        destruct (parse_elements f r' (v :: acc)); simpl in *;
          try (apply IHe; lia).
        destruct IHe; [lia|]. split; [lia|assumption]. }
      destruct (N.eqb c 93); [|exact I].
      simpl. split; [lia | discriminate].
    + intros s acc Hf. simpl.
      destruct (skip_ws s) as [|q r] eqn:W; [exact I|].
      apply skip_ws_cons in W.
      destruct (negb (N.eqb q 34)); [exact I|].
      destruct (parse_chars r []) as [[k r1]|] eqn:C; [|exact I].
      apply (parse_chars_length (length r)) in C; [|lia].
      destruct (skip_ws r1) as [|colon r2] eqn:W1; [exact I|].
      apply skip_ws_cons in W1.
      destruct (negb (N.eqb colon 58)); [exact I|].
      specialize (IHv r2).
      destruct (parse_value f r2) as [v r3| |]; simpl in *;
        try (apply IHv; lia).
      destruct IHv as [Lr _]; [lia|].
      destruct (skip_ws r3) as [|c r4] eqn:W3; [exact I|].
      apply skip_ws_cons in W3.
      destruct (N.eqb c 44).
      { specialize (IHm r4 (define k v acc)).
        destruct (parse_members f r4 (define k v acc)); simpl in *;
          try (apply IHm; lia).
        destruct IHm; [lia|]. split; [lia|assumption]. }
      destruct (N.eqb c 125); [|exact I].
      simpl. split; [lia | discriminate].
Qed.

(** [JSON_parse] never stops for lack of fuel: where it gives no value,
    the text is not JSON. *)
Lemma JSON_parse_total (text : jsstring) :
  parse_value (2 * length text + 2) text <> PFuel.
Proof.
  destruct (parse_enough_fuel (2 * length text + 2)) as (H & _ & _).
  specialize (H text). intros E. rewrite E in H. simpl in H. apply H. lia.
Qed.

Lemma JSON_parse_defined (text : jsstring) (v : jsval) :
  JSON_parse text = Some v -> v <> JUndefined.
Proof.
  unfold JSON_parse.
  destruct (parse_enough_fuel (2 * length text + 2)) as (H & _ & _).
  specialize (H text).
  destruct (parse_value (2 * length text + 2) text) as [v' r| |];
    try discriminate.
  destruct (skip_ws r); [|discriminate].
  intros E; inversion E; subst. apply H. lia.
Qed.

(* ================================================================= *)
(** ** What a computation leaves alone *)

Section Keeps.
Variables (X : Type) (p : World -> X).

Lemma keeps_ret A (a : A) : keeps p (ret a).
Proof. intros w; reflexivity. Qed.

Lemma keeps_throw A (e : jserror) : keeps p (@throw A e).
Proof. intros w; reflexivity. Qed.

Lemma keeps_lift A (c : completion A) : keeps p (lift c).
Proof. intros w; reflexivity. Qed.

Lemma keeps_gets A (f : World -> A) : keeps p (gets f).
Proof. intros w; reflexivity. Qed.

Lemma keeps_modify (f : World -> World) :
  (forall w, p (f w) = p w) -> keeps p (modify f).
Proof. intros H w; apply H. Qed.

Lemma keeps_bind A B (m : M A) (k : A -> M B) :
  keeps p m -> (forall a, keeps p (k a)) -> keeps p (bind m k).
Proof.
  intros Hm Hk w. unfold bind. specialize (Hm w).
  destruct (m w) as [[a|e] w']; simpl in *.
  - rewrite Hk. exact Hm.
  - exact Hm.
Qed.

Lemma keeps_try_catch A (m : M A) (h : jserror -> M A) :
  keeps p m -> (forall e, keeps p (h e)) -> keeps p (try_catch m h).
Proof.
  intros Hm Hh w. unfold try_catch. specialize (Hm w).
  destruct (m w) as [[a|e] w']; simpl in *.
  - exact Hm.
  - rewrite Hh. exact Hm.
Qed.

Lemma keeps_try_finally A (m : M A) (f : M unit) :
  keeps p m -> keeps p f -> keeps p (try_finally m f).
Proof.
  intros Hm Hf w. unfold try_finally. specialize (Hm w).
  destruct (m w) as [r w']; simpl in *. specialize (Hf w').
  destruct (f w') as [[u|e] w'']; simpl in *; congruence.
Qed.

Lemma keeps_async_call (m : M unit) : keeps p m -> keeps p (async_call m).
Proof. intros Hm w. apply Hm. Qed.

Lemma keeps_when (b : bool) (m : M unit) : keeps p m -> keeps p (when b m).
Proof. intros Hm. destruct b; [exact Hm | apply keeps_ret]. Qed.

Lemma keeps_or_else (a : jsval) (m : M jsval) :
  keeps p m -> keeps p (or_else a m).
Proof. intros Hm. unfold or_else. destruct (truthy a); [apply keeps_ret | exact Hm]. Qed.

Lemma keeps_new_Date : (forall f w, p (with_ticks f w) = p w) -> keeps p new_Date.
Proof. intros H w. apply H. Qed.

Lemma keeps_JSON_parse_or_throw text : keeps p (JSON_parse_or_throw text).
Proof.
  unfold JSON_parse_or_throw.
  destruct (JSON_parse text); [apply keeps_ret | apply keeps_throw].
Qed.

Lemma keeps_await o : keeps p (await o).
Proof. destruct o; [apply keeps_throw | apply keeps_ret]. Qed.
End Keeps.

(** Decompose a computation along its structure; what remains are the
    state changes that touch the part looked at. *)
(** A [fetch] that is not a generation call. *)
Lemma keeps_fetch_other (r : Request) (k : Awaiting) :
  is_generation k = false -> keeps form_view (fetch r k).
Proof.
  intros H w. unfold form_view, fetch, modify; simpl.
  rewrite filter_app; simpl. rewrite H, app_nil_r. reflexivity.
Qed.

Ltac frame_step :=
  lazymatch goal with
  | |- keeps form_view (fetch _ _) => apply keeps_fetch_other; reflexivity
  | H : keeps ?p ?m |- keeps ?p ?m => exact H
  | |- keeps _ (ret _) => apply keeps_ret
  | |- keeps _ (throw _) => apply keeps_throw
  | |- keeps _ (lift _) => apply keeps_lift
  | |- keeps _ (gets _) => apply keeps_gets
  | |- keeps _ (await _) => apply keeps_await
  | |- keeps _ (JSON_parse_or_throw _) => apply keeps_JSON_parse_or_throw
  | |- keeps _ new_Date => apply keeps_new_Date; intros; reflexivity
  | |- keeps _ (modify _) => apply keeps_modify; intros; reflexivity
  | |- keeps _ (bind _ _) => apply keeps_bind; [|intro]
  | |- keeps _ (try_catch _ _) => apply keeps_try_catch; [|intro]
  | |- keeps _ (try_finally _ _) => apply keeps_try_finally
  | |- keeps _ (async_call _) => apply keeps_async_call
  | |- keeps _ (when _ _) => apply keeps_when
  | |- keeps _ (or_else _ _) => apply keeps_or_else
  | |- keeps _ (if ?b then _ else _) => destruct b
  | |- keeps _ (match ?x with _ => _ end) => destruct x
  end.

Ltac frame := repeat frame_step.

(* ================================================================= *)
(** ** The session: [AuthProvider] *)

Lemma stored_after_setItem (k v : jsstring) (w : World) :
  lookup k (localStorage (exec (localStorage_setItem k v) w)) = Some v.
Proof.
  unfold exec, localStorage_setItem, modify; simpl.
  destruct (lookup k (localStorage w)) eqn:L.
  - rewrite lookup_replace_prop by congruence.
    rewrite str_eqb_refl. reflexivity.
  - rewrite lookup_app, L. simpl. rewrite str_eqb_refl. reflexivity.
Qed.

Lemma stored_after_removeItem (k : jsstring) (w : World) :
  lookup k (localStorage (exec (localStorage_removeItem k) w)) = None.
Proof.
  unfold exec, localStorage_removeItem, modify; simpl.
  rewrite lookup_remove_prop, str_eqb_refl. reflexivity.
Qed.

(** What [login] does on a value that is not [null]. *)
Lemma login_run (data : jsval) (w : World) :
  data <> JNull -> data <> JUndefined ->
  login data w =
  (Normal tt,
   exec (localStorage_setItem (lit "user") (JSON_stringify (identity_of data)))
     (exec (setUser (identity_of data)) w)).
Proof.
  intros N1 N2. unfold login, bind, lift.
  destruct data; try congruence; reflexivity.
Qed.

Lemma guard_true (data : jsval) :
  has_name_and_email data = true ->
  truthy (property data (lit "name")) = true /\
  truthy (property data (lit "email")) = true /\
  data <> JNull /\ data <> JUndefined.
Proof.
  unfold has_name_and_email, js_and.
  destruct (truthy (property data (lit "name"))) eqn:E.
  - intros H. repeat split; auto; intros ->; discriminate.
  - congruence.
Qed.

Lemma identity_fields (n e i p : jsval) :
  let u := JObj [(lit "name", n); (lit "email", e); (lit "id", i);
                 (lit "provider", p)] in
  property u (lit "name") = n /\ property u (lit "email") = e /\
  property u (lit "id") = i /\ property u (lit "provider") = p.
Proof. repeat split. Qed.

Lemma populated_identity_of (data : jsval) :
  has_name_and_email data = true -> populated (identity_of data).
Proof.
  intros H. apply guard_true in H. destruct H as (Hn & He & _ & _).
  unfold populated, identity_of.
  destruct (identity_fields (property data (lit "name"))
              (property data (lit "email"))
              (js_or (property data (lit "id")) (property data (lit "email")))
              (js_or (property data (lit "provider")) (JStr (lit "oauth"))))
    as (-> & -> & -> & ->).
  repeat split; auto; unfold js_or.
  - destruct (truthy (property data (lit "id"))) eqn:E; auto.
  - destruct (truthy (property data (lit "provider"))) eqn:E; auto.
Qed.

Lemma status_resume_cases (o : Outcome) (w : World) :
  identity_outcome w (exec (checkAuthStatus_resume o) w).
Proof.
  unfold identity_outcome, checkAuthStatus_resume, exec, try_finally,
    try_catch, bind.
  destruct o as [e|status text]; simpl.
  - left; reflexivity.
  - destruct (response_ok status).
    + unfold JSON_parse_or_throw.
      destruct (JSON_parse text) as [data|]; simpl; [|left; reflexivity].
      destruct data; simpl; try (left; reflexivity).
      all: match goal with
           | |- context [truthy (js_and ?a ?b)] =>
               destruct (truthy (js_and a b)) eqn:G
           end; simpl; try (left; reflexivity).
      all: right; right.
      all: match type of G with
           | truthy (js_and (property ?d _) _) = true => exists d
           end.
      all: split; [exact G|]; split; [reflexivity|].
      all: apply (stored_after_setItem (lit "user")).
    + destruct (Z.eqb status 401); simpl; [|left; reflexivity].
      right; left. split; [reflexivity|].
      unfold stored_user; simpl.
      rewrite lookup_remove_prop, str_eqb_refl. reflexivity.
Qed.

Lemma callback_resume_cases (o : Outcome) (w : World) :
  identity_outcome w (exec (checkOAuthCallback_resume o) w).
Proof.
  unfold identity_outcome, checkOAuthCallback_resume, exec, try_catch, bind.
  destruct o as [e|status text]; simpl; [left; reflexivity|].
  destruct (response_ok status); simpl; [|left; reflexivity].
  unfold JSON_parse_or_throw.
  destruct (JSON_parse text) as [data|]; simpl; [|left; reflexivity].
  destruct data; simpl; try (left; reflexivity).
  all: match goal with
       | |- context [truthy (js_and ?a ?b)] =>
           destruct (truthy (js_and a b)) eqn:G
       end; simpl; try (left; reflexivity).
  all: right; right.
  all: match type of G with
       | truthy (js_and (property ?d _) _) = true => exists d
       end.
  all: split; [exact G|]; split; [reflexivity|].
  all: apply (stored_after_setItem (lit "user")).
Qed.

Lemma logout_resume_cases (o : Outcome) (w : World) :
  identity_outcome w (exec (logout_resume o) w).
Proof.
  right; left.
  unfold logout_resume, exec, try_catch, bind.
  destruct o as [e|status text]; simpl; split; try reflexivity.
  all: unfold stored_user; simpl;
    rewrite lookup_remove_prop, str_eqb_refl; reflexivity.
Qed.

(** The generation cycle and the dialog leave the session alone. *)
Lemma handleDownload_resume_keeps_identity query domain o :
  keeps identity (handleDownload_resume query domain o).
Proof.
  unfold handleDownload_resume, generateDocument_resume, performDownload,
    generateDocumentFilename, downloadFile, console_error, console_log,
    setLastDocument, setError, setShowSuccess, setIsLoading.
  frame.
Qed.

Lemma ui_event_keeps_identity (ev : Event) :
  (forall i o, ev <> Settle i o) -> keeps identity (dispatch ev).
Proof.
  intros H. destruct ev; try (exfalso; eapply H; reflexivity);
    unfold dispatch, logout, handleSSOLogin, QueryForm_handleDownload,
      handleDownload, generateDocument, handleRedownload, performDownload,
      generateDocumentFilename, downloadFile, handleNewQuery,
      handleCloseError, fetch, location_assign, console_error,
      setDialogLoading, setDialogError, setSqlQuery, setBusinessDomain,
      setIsLoading, setShowSuccess, setError, setLastDocument;
    frame.
Qed.

Lemma dispatch_identity_outcome (ev : Event) (w : World) :
  identity_outcome w (exec (dispatch ev) w).
Proof.
  destruct ev as [i o| | | | | | | | ].
  2-9: left; apply ui_event_keeps_identity; congruence.
  unfold dispatch, settle, exec.
  destruct (nth_error (awaiting w) i) as [k|]; [|left; reflexivity].
  set (w1 := with_network (fun l => l) (remove_nth i) w).
  change (identity_outcome w (exec (resume k o) w1)).
  assert (E : forall w2, identity_outcome w1 w2 -> identity_outcome w w2)
    by (intros w2 H; exact H).
  apply E. destruct k; simpl resume.
  - apply callback_resume_cases.
  - apply status_resume_cases.
  - apply logout_resume_cases.
  - left. apply handleDownload_resume_keeps_identity.
Qed.

(** C4. Probe authority: whatever the state before, when the status probe
    answers 401 the controller ends with no identity in memory
    ([isAuthenticated] is false) and no entry in the Session Store; the
    loading flag is cleared. *)
Theorem status_probe_401_clears_identity :
  forall (w : World) (text : jsstring),
    let w' := exec (checkAuthStatus_resume (Response 401 text)) w in
    user (auth w') = JNull /\
    isAuthenticated w' = false /\
    stored_user w' = None /\
    loading (auth w') = false.
Proof.
  intros w text w'. subst w'.
  unfold exec, checkAuthStatus_resume, try_finally, try_catch, bind; simpl.
  unfold isAuthenticated, stored_user; simpl.
  rewrite lookup_remove_prop, str_eqb_refl. auto.
Qed.

(** C3. The effect that hydrates the session at page load parses the
    stored entry with [JSON.parse] and nothing catches what it throws:
    on an entry that is not JSON the effect ends with a SyntaxError, the
    callback exchange and the status probe are never started, and the
    world stays the freshly loaded page ([loading] true for good). *)
Theorem hydration_throws_on_malformed_entry :
  forall (base : jsval) (storage : list (jsstring * jsstring))
         (loc : Location) (clk : nat -> Date_) (stored : jsstring),
    lookup (lit "user") storage = Some stored ->
    stored <> [] ->
    JSON_parse stored = None ->
    let w0 := page_load base storage loc clk in
    AuthProvider_useEffect w0 = (Thrown syntax_error, w0) /\
    fetches (exec AuthProvider_useEffect w0) = [] /\
    loading (auth (exec AuthProvider_useEffect w0)) = true.
Proof.
  intros base storage loc clk stored L NE P w0.
  assert (E : AuthProvider_useEffect w0 = (Thrown syntax_error, w0)).
  { unfold AuthProvider_useEffect, bind, localStorage_getItem, gets. simpl.
    rewrite L. simpl. destruct stored; [congruence|]. simpl.
    unfold JSON_parse_or_throw. rewrite P. reflexivity. }
  unfold exec. rewrite E. repeat split.
Qed.

Lemma hydration_throws_on_malformed_entry_witness :
  let w0 := example_page [(lit "user", json_text "{'name':'Ann'")] [] in
  AuthProvider_useEffect w0 = (Thrown syntax_error, w0) /\
  fetches (exec AuthProvider_useEffect w0) = [] /\
  loading (auth (exec AuthProvider_useEffect w0)) = true.
Proof.
  apply (@hydration_throws_on_malformed_entry JUndefined
           [(lit "user", json_text "{'name':'Ann'")]
           {| pathname := lit "/"; search := []; hash := [] |}
           example_clock (json_text "{'name':'Ann'")).
  - reflexivity.
  - discriminate.
  - vm_compute. reflexivity.
Defined.

(** The same page with a well-formed entry: the effect completes and both
    probes are on their way. *)
Example hydration_of_wellformed_entry :
  let w0 := example_page
              [(lit "user",
                json_text "{'name':'Ann','email':'ann@example.com','id':'7','provider':'google'}")]
              [] in
  fst (AuthProvider_useEffect w0) = Normal tt /\
  isAuthenticated (exec AuthProvider_useEffect w0) = true /\
  awaiting (exec AuthProvider_useEffect w0) = [AwaitStatus].
Proof. vm_compute. repeat split. Qed.




(** C9, as stated, fails: the identity hydrated at page load is whatever
    the stored entry parses to.  An entry with a name only is exposed as
    an authenticated identity without email, id and provider. *)
Lemma hydration_exposes_partial_identity :
  let w := exec AuthProvider_useEffect
             (example_page [(lit "user", json_text "{'name':'Ann'}")] []) in
  user (auth w) = JObj [(lit "name", JStr (lit "Ann"))] /\
  isAuthenticated w = true /\
  property (user (auth w)) (lit "email") = JUndefined /\
  ~ populated (user (auth w)).
Proof.
  repeat split; try (vm_compute; reflexivity).
  intros (_ & H & _). vm_compute in H. discriminate.
Qed.

(** What the mount effect does with a stored entry that parses. *)
Lemma hydration_run (base : jsval) (storage : list (jsstring * jsstring))
  (loc : Location) (clk : nat -> Date_) (stored : jsstring) (v : jsval) :
  lookup (lit "user") storage = Some stored ->
  stored <> [] ->
  JSON_parse stored = Some v ->
  auth (exec AuthProvider_useEffect (page_load base storage loc clk))
  = {| user := v; loading := true |}.
Proof.
  intros L NE P.
  assert (K : keeps auth (bind (async_call checkOAuthCallback)
                            (fun _ => async_call checkAuthStatus))).
  { unfold checkOAuthCallback, checkAuthStatus, URLSearchParams_get,
      console_error, fetch.
    frame. }
  unfold exec, AuthProvider_useEffect.
  unfold bind at 1. unfold localStorage_getItem, gets. cbn [fst snd page_load localStorage].
  rewrite L. unfold bind at 1.
  destruct stored as [|c stored]; [congruence|]. cbn [truthy to_string].
  unfold bind at 1, lift. cbn [fst snd].
  unfold bind at 1, JSON_parse_or_throw. rewrite P.
  unfold ret, setUser, modify. rewrite K. reflexivity.
Qed.

(** C9, amended. No event of a loaded page (a settled callback exchange,
    status probe, logout or generation call, or an action of the user)
    sets or saves a partial identity: it leaves the identity in memory and
    in store as it was, or absent in both, or set in both to the identity
    made of a response with a name and an email, whose four fields are
    not empty, [id] being the response's or else its email and [provider]
    the response's or else "oauth".  The identity exposed at page load
    is the value the stored entry parses to, whatever it is. *)
Theorem events_set_no_partial_identity :
  (forall (ev : Event) (w : World),
      let w' := exec (dispatch ev) w in
      identity w' = identity w
      \/ (user (auth w') = JNull /\ stored_user w' = None)
      \/ (exists data,
            user (auth w') = identity_of data /\
            stored_user w' = Some (JSON_stringify (identity_of data)) /\
            populated (identity_of data) /\
            property (identity_of data) (lit "id") =
              js_or (property data (lit "id")) (property data (lit "email")) /\
            property (identity_of data) (lit "provider") =
              js_or (property data (lit "provider")) (JStr (lit "oauth")))) /\
  (forall (base : jsval) (storage : list (jsstring * jsstring))
          (loc : Location) (clk : nat -> Date_) (stored : jsstring)
          (v : jsval),
      lookup (lit "user") storage = Some stored ->
      stored <> [] ->
      JSON_parse stored = Some v ->
      user (auth (exec AuthProvider_useEffect
                    (page_load base storage loc clk))) = v).
Proof.
  split.
  - intros ev w w'. subst w'.
    destruct (dispatch_identity_outcome ev w) as [H|[H|(data & G & Hu & Hs)]].
    + left; exact H.
    + right; left; exact H.
    + right; right. exists data.
      repeat split; try assumption; apply populated_identity_of; exact G.
  - intros base storage loc clk stored v L NE P.
    rewrite (hydration_run base storage loc clk stored v L NE P).
    reflexivity.
Qed.

Lemma events_set_no_partial_identity_witness :
  let entry := json_text
    "{'name':'Ann','email':'ann@example.com','id':'7','provider':'google'}" in
  let w := exec AuthProvider_useEffect (example_page [(lit "user", entry)] []) in
  let w' := exec (dispatch (Settle 0 (Response 401 []))) w in
  user (auth w) = JObj [(lit "name", JStr (lit "Ann"));
                        (lit "email", JStr (lit "ann@example.com"));
                        (lit "id", JStr (lit "7"));
                        (lit "provider", JStr (lit "google"))] /\
  (identity w' = identity w
   \/ (user (auth w') = JNull /\ stored_user w' = None)
   \/ exists data,
        user (auth w') = identity_of data /\
        stored_user w' = Some (JSON_stringify (identity_of data)) /\
        populated (identity_of data) /\
        property (identity_of data) (lit "id") =
          js_or (property data (lit "id")) (property data (lit "email")) /\
        property (identity_of data) (lit "provider") =
          js_or (property data (lit "provider")) (JStr (lit "oauth"))).
Proof.
  intros entry w w'.
  destruct events_set_no_partial_identity as [Hev Hhyd].
  split.
  - apply (Hhyd JUndefined [(lit "user", entry)]
             {| pathname := lit "/"; search := []; hash := [] |}
             example_clock entry).
    + reflexivity.
    + discriminate.
    + vm_compute. reflexivity.
  - apply (Hev (Settle 0 (Response 401 [])) w).
Defined.

(* ================================================================= *)
(** ** The generation call: [generateDocument] *)

Lemma property_absent (data : jsval) (k : jsstring) :
  lookup k (own_props data) = None -> str_eqb k (lit "length") = false ->
  property data k = JUndefined.
Proof.
  intros L N. unfold property. rewrite L, N. destruct data; reflexivity.
Qed.

Lemma property_spread (src : jsval) (dst : props) (k : jsstring) :
  property (JObj (spread src dst)) k =
  match lookup k (own_props src) with
  | Some x => x
  | None => property (JObj dst) k
  end.
Proof.
  unfold property at 1. simpl own_props. rewrite lookup_spread.
  destruct (lookup k (own_props src)); reflexivity.
Qed.

Lemma result_fields (a b c d e f : jsval) :
  let o := JObj (object_literal
                   [(lit "documentId", a); (lit "fileName", b);
                    (lit "fileSize", c); (lit "generatedAt", d);
                    (lit "downloadUrl", e); (lit "message", f)]) in
  property o (lit "documentId") = a /\
  property o (lit "fileName") = b /\
  property o (lit "generatedAt") = d.
Proof. repeat split. Qed.

(** C6. On every 2xx answer whose body is a JSON value other than [null],
    [generateDocument] resolves, and in the data of its result:
    [documentId], [fileName] and [generatedAt] are the backend's whenever
    the body has them; when the body has no [documentId] it is "DOC-"
    followed by the milliseconds of a clock read made during the call,
    when it has no [fileName] it is the domain, "_analysis_", the first
    ten characters of the ISO time of such a read and ".pdf", and when it
    has no [generatedAt] it is the ISO time of such a read. *)
Theorem generation_result_defaults :
  forall (w : World) (status : Z) (text : jsstring) (data : jsval)
         (domain : jsstring),
    response_ok status = true ->
    JSON_parse text = Some data ->
    data <> JNull ->
    exists (r : jsval) (w' : World),
      generateDocument_resume domain (Response status text) w = (Normal r, w') /\
      let result := property r (lit "data") in
      (forall v, lookup (lit "documentId") (own_props data) = Some v ->
                 property result (lit "documentId") = v) /\
      (forall v, lookup (lit "fileName") (own_props data) = Some v ->
                 property result (lit "fileName") = v) /\
      (forall v, lookup (lit "generatedAt") (own_props data) = Some v ->
                 property result (lit "generatedAt") = v) /\
      (lookup (lit "documentId") (own_props data) = None ->
       exists n, (ticks w <= n < ticks w')%nat /\
         property result (lit "documentId") =
         JStr (lit "DOC-" ++ number_to_string (getTime (clock w n)) 0)) /\
      (lookup (lit "fileName") (own_props data) = None ->
       exists n, (ticks w <= n < ticks w')%nat /\
         property result (lit "fileName") =
         JStr (domain ++ lit "_analysis_"
               ++ slice0 10 (toISOString (clock w n)) ++ lit ".pdf")) /\
      (lookup (lit "generatedAt") (own_props data) = None ->
       exists n, (ticks w <= n < ticks w')%nat /\
         property result (lit "generatedAt") =
         JStr (toISOString (clock w n))).
Proof.
  intros w status text data domain Hok Hparse Hnull.
  pose proof (JSON_parse_defined text data Hparse) as Hundef.
  unfold generateDocument_resume.
  cbv beta iota zeta delta [await bind ret try_catch fst snd lift throw
                            JSON_parse_or_throw or_else new_Date].
  rewrite Hok, Hparse.
  assert (A : forall k, str_eqb k (lit "length") = false ->
                        lookup k (own_props data) = None ->
                        truthy (property data k) = false)
    by (intros k N L; rewrite (property_absent data k L N); reflexivity).
  pose proof (A (lit "documentId") eq_refl) as A1.
  pose proof (A (lit "fileName") eq_refl) as A2.
  pose proof (A (lit "generatedAt") eq_refl) as A3.
  clear A.
  assert (G : forall k, get_prop data k = Normal (property data k))
    by (intros k; destruct data; congruence || reflexivity).
  cbv beta iota zeta delta [negb].
  repeat match goal with
         | |- context [get_prop data ?k] => rewrite (G k)
         end.
  destruct (truthy (property data (lit "documentId"))) eqn:B1;
    destruct (truthy (property data (lit "fileName"))) eqn:B2;
    destruct (truthy (property data (lit "generatedAt"))) eqn:B3.
  all: eexists; eexists; (split; [reflexivity|]).
  all: cbv zeta.
  all: match goal with
       | |- context [property (JObj (object_literal ?l)) (lit "data")] =>
           change (property (JObj (object_literal l)) (lit "data"))
             with (snd (nth 1 l (lit "", JUndefined)))
       end; cbn [nth snd].
  all: rewrite !property_spread.
  all: match goal with
       | |- context [JObj (object_literal [(_, ?a); (_, ?b); (_, ?c);
                                           (_, ?d); (_, ?e); (_, ?f)])] =>
           destruct (result_fields a b c d e f) as (-> & -> & ->)
       end.
  all: repeat split.
  all: try (intros v L; rewrite L; reflexivity).
  all: intros L; rewrite L.
  all: try (specialize (A1 L); congruence).
  all: try (specialize (A2 L); congruence).
  all: try (specialize (A3 L); congruence).
  all: first [ exists (ticks w); split; [simpl; lia | reflexivity]
             | exists (S (ticks w)); split; [simpl; lia | reflexivity]
             | exists (S (S (ticks w))); split; [simpl; lia | reflexivity] ].
Qed.

Lemma generation_result_defaults_witness :
  let w := example_page [] [] in
  let text := json_text
    "{'documentId':'DOC-1','fileName':'retail_analysis_2024-01-01.pdf','message':'ok'}" in
  exists (r : jsval) (w' : World),
    generateDocument_resume (lit "retail") (Response 200 text) w
    = (Normal r, w') /\
    property (property r (lit "data")) (lit "documentId") = JStr (lit "DOC-1") /\
    property (property r (lit "data")) (lit "fileName")
    = JStr (lit "retail_analysis_2024-01-01.pdf") /\
    exists n, (ticks w <= n < ticks w')%nat /\
      property (property r (lit "data")) (lit "generatedAt")
      = JStr (toISOString (clock w n)).
Proof.
  intros w text.
  destruct (generation_result_defaults w 200 text
              (JObj [(lit "documentId", JStr (lit "DOC-1"));
                     (lit "fileName", JStr (lit "retail_analysis_2024-01-01.pdf"));
                     (lit "message", JStr (lit "ok"))])
              (lit "retail") eq_refl eq_refl ltac:(discriminate))
    as (r & w' & E & H1 & H2 & _ & _ & _ & H6).
  exists r, w'. split; [exact E|].
  split; [apply H1; reflexivity|].
  split; [apply H2; reflexivity|].
  apply H6; reflexivity.
Defined.

(* ================================================================= *)
(** ** The request cycle: [HomePage] *)

(** What [generateDocument] rejects with when the call fails. *)
Lemma generateDocument_resume_failed (domain : jsstring) (o : Outcome)
  (w : World) :
  generation_failed o = true ->
  exists e,
    generateDocument_resume domain o w =
    (Thrown e,
     exec (console_error (lit "Error generating document:") e) w) /\
    match o with
    | Rejected e0 => e = e0
    | Response status text =>
        match new_Error
                (js_or (get_opt (match JSON_parse text with
                                 | Some v => v
                                 | None => JNull
                                 end) (lit "message"))
                       (JStr (lit "Server error: "
                              ++ number_to_string status 0))) with
        | Normal e1 => e = e1
        | Thrown e1 => e = e1
        end
    end.
Proof.
  destruct o as [e0|status text]; simpl; intros F.
  - exists e0. split; reflexivity.
  - unfold generateDocument_resume, try_catch, bind, await, ret, throw, lift.
    cbn [fst snd]. destruct (response_ok status); [discriminate|].
    cbn [negb].
    destruct (new_Error _) as [e1|e1]; exists e1; split; reflexivity.
Qed.

(** [handleDownload] after a rejected [generateDocument]: the [catch]
    sets the error and the [finally] clears the loading flag. *)
Lemma handleDownload_resume_thrown (query domain : jsstring) (o : Outcome)
  (w w1 : World) (e : jserror) :
  generateDocument_resume domain o w = (Thrown e, w1) ->
  handleDownload_resume query domain o w =
  (Normal tt,
   exec (setIsLoading false)
     (exec (setError (js_or (JStr (message e)) (JStr generic_failure))) w1)).
Proof.
  intros H. unfold handleDownload_resume, try_finally, try_catch, bind.
  rewrite H. reflexivity.
Qed.

Lemma generateDocument_resume_keeps_home domain o :
  keeps (fun w => (home w, fetches w, awaiting w, downloads w))
    (generateDocument_resume domain o).
Proof. unfold generateDocument_resume, console_error. frame. Qed.

Lemma js_or_text (x : jsstring) :
  js_or (JStr x) (JStr generic_failure)
  = JStr (text_or x generic_failure).
Proof. destruct x; reflexivity. Qed.

(** The first segment of [handleDownload]: loading, no error, one more
    generation call under way. *)
Lemma handleDownload_run (query domain : jsstring) (w : World) :
  let w' := exec (handleDownload query domain) w in
  home w' = with_error JNull (with_isLoading true (home w)) /\
  awaiting w' = awaiting w ++ [AwaitGenerate query domain] /\
  (exists r, fetches w' = fetches w ++ [r]) /\
  auth w' = auth w /\ localStorage w' = localStorage w /\
  downloads w' = downloads w.
Proof.
  unfold handleDownload, generateDocument, exec, bind, async_call,
    try_catch; simpl.
  repeat split. eexists; reflexivity.
Qed.

(** C5, as stated, fails: the text of the error state is not always the
    backend's message or a fallback of the page.  When the [fetch]
    itself is rejected, the text is the one the rejection carries, here
    the browser's "Failed to fetch"; it is neither the generic text of
    [handleDownload] nor a "Server error: " text of [generateDocument]. *)
Lemma network_failure_shows_its_own_text :
  let w := exec (handleDownload (lit "SELECT * FROM orders") (lit "retail"))
             (example_page [] []) in
  let o := Rejected (Error_ (lit "TypeError") (lit "Failed to fetch")) in
  let w' := exec (handleDownload_resume (lit "SELECT * FROM orders")
                    (lit "retail") o) w in
  generation_failed o = true /\
  error (home w') = JStr (lit "Failed to fetch") /\
  error (home w') <> JStr generic_failure /\
  strip_prefix (lit "Server error: ") (lit "Failed to fetch") = None.
Proof.
  intros w o w'. split; [reflexivity|].
  assert (E : error (home w') = JStr (lit "Failed to fetch"))
    by (vm_compute; reflexivity).
  rewrite E. split; [reflexivity|]. split.
  - vm_compute. discriminate.
  - vm_compute. reflexivity.
Qed.

(** C5, amended. When the generation call fails (the [fetch] rejects, or
    the response is not 2xx), [handleDownload] ends in the error state:
    the loading flag is cleared and the error is a text that is not empty.
    On a response whose body is JSON with a truthy [message], the text
    is what ToString makes of that message (the message itself when it is
    a string that is not empty), the generic text when ToString makes the
    empty string of it, and the text of the TypeError when ToString
    refuses it; it is "Server error: " and the status when the body is
    not JSON or has no truthy [message]; when the [fetch] rejected it is
    the text of the rejection, and the generic text when that is empty.
    The handler sends no request of its own (no retry); the form is
    rendered again unless an earlier success is still shown, and a
    further [handleDownload] is accepted: it starts a call. *)
Theorem generation_failure_reports_message :
  forall (w : World) (query domain : jsstring) (o : Outcome),
    generation_failed o = true ->
    let w' := exec (handleDownload_resume query domain o) w in
    isLoading (home w') = false /\
    (exists msg, msg <> [] /\ error (home w') = JStr msg) /\
    (forall status text data m,
        o = Response status text ->
        JSON_parse text = Some data ->
        get_opt data (lit "message") = JStr m -> m <> [] ->
        error (home w') = JStr m) /\
    (forall status text data,
        o = Response status text ->
        JSON_parse text = Some data ->
        truthy (get_opt data (lit "message")) = true ->
        error (home w')
        = JStr (match to_string (get_opt data (lit "message")) with
                | Normal m => text_or m generic_failure
                | Thrown _ => message not_primitive
                end)) /\
    (forall status text,
        o = Response status text ->
        (forall data, JSON_parse text = Some data ->
                      truthy (get_opt data (lit "message")) = false) ->
        error (home w')
        = JStr (lit "Server error: " ++ number_to_string status 0)) /\
    (forall e,
        o = Rejected e ->
        error (home w') = JStr (text_or (message e) generic_failure)) /\
    fetches w' = fetches w /\
    awaiting w' = awaiting w /\
    (showSuccess (home w) = false -> HomePage_render (home w') = QueryForm) /\
    (forall query' domain',
        let w'' := exec (handleDownload query' domain') w' in
        isLoading (home w'') = true /\
        error (home w'') = JNull /\
        awaiting w'' = awaiting w' ++ [AwaitGenerate query' domain'] /\
        exists r, fetches w'' = fetches w' ++ [r]).
Proof.
  intros w query domain o F w'.
  destruct (generateDocument_resume_failed domain o w F) as (e & E & He).
  pose proof (generateDocument_resume_keeps_home domain o w) as K.
  rewrite E in K. cbn [snd] in K.
  set (w1 := exec (console_error (lit "Error generating document:") e) w) in *.
  assert (W : w' = exec (setIsLoading false)
                     (exec (setError (js_or (JStr (message e))
                                            (JStr generic_failure))) w1)).
  { subst w'. unfold exec at 1.
    rewrite (handleDownload_resume_thrown query domain o w w1 e E).
    reflexivity. }
  assert (Herr : error (home w') = JStr (text_or (message e) generic_failure))
    by (rewrite W; exact (js_or_text (message e))).
  assert (Hf : fetches w' = fetches w) by (rewrite W; simpl; congruence).
  assert (Ha : awaiting w' = awaiting w) by (rewrite W; simpl; congruence).
  assert (Ht : forall status text data,
             o = Response status text ->
             JSON_parse text = Some data ->
             truthy (get_opt data (lit "message")) = true ->
             error (home w')
             = JStr (match to_string (get_opt data (lit "message")) with
                     | Normal m => text_or m generic_failure
                     | Thrown _ => message not_primitive
                     end)).
  { intros status text data -> P T. rewrite Herr. rewrite P in He.
    unfold js_or in He. rewrite T in He.
    rewrite (new_Error_truthy _ T) in He.
    destruct (to_string (get_opt data (lit "message"))) as [m|e1] eqn:C.
    - subst e. reflexivity.
    - subst e. rewrite (to_string_thrown _ _ C). reflexivity. }
  split; [rewrite W; reflexivity|].
  split.
  { rewrite Herr. destruct (message e) as [|c m].
    - exists generic_failure. split; [discriminate | reflexivity].
    - exists (c :: m). split; [discriminate | reflexivity]. }
  split.
  { intros status text data m Ho P G Nm.
    rewrite (Ht status text data Ho P)
      by (rewrite G; destruct m; [congruence | reflexivity]).
    rewrite G. destruct m as [|c m]; [congruence|]. reflexivity. }
  split; [exact Ht|].
  split.
  { intros status text -> Hno. rewrite Herr.
    assert (G : truthy (get_opt (match JSON_parse text with
                                 | Some v => v
                                 | None => JNull
                                 end) (lit "message")) = false).
    { destruct (JSON_parse text) as [data|]; [apply Hno|]; reflexivity. }
    unfold js_or in He. rewrite G in He. cbn [new_Error to_string] in He.
    subst e. reflexivity. }
  split.
  { intros e0 ->. rewrite Herr, He. reflexivity. }
  split; [exact Hf|]. split; [exact Ha|].
  split.
  { intros S0.
    assert (Kh : home w1 = home w) by congruence.
    rewrite W. unfold HomePage_render.
    cbn [exec setIsLoading setError modify snd home with_home isLoading
         showSuccess with_isLoading with_error].
    rewrite Kh, S0. reflexivity. }
  intros query' domain' w''.
  destruct (handleDownload_run query' domain' w') as (Hh & Hw & Hr & _).
  subst w''. rewrite Hh. repeat split; assumption.
Qed.

Lemma generation_failure_reports_message_witness :
  let w := exec (handleDownload (lit "SELECT * FROM orders") (lit "retail"))
             (example_page [] []) in
  let o := Response 500 (json_text "{'message':'upstream timeout'}") in
  let w' := exec (handleDownload_resume (lit "SELECT * FROM orders")
                    (lit "retail") o) w in
  generation_failed o = true /\
  isLoading (home w') = false /\
  error (home w') = JStr (lit "upstream timeout") /\
  fetches w' = fetches w /\
  HomePage_render (home w') = QueryForm.
Proof.
  intros w o w'.
  destruct (generation_failure_reports_message w (lit "SELECT * FROM orders")
              (lit "retail") o eq_refl)
    as (Hl & _ & Hm & _ & _ & _ & Hf & _ & Hr & _).
  split; [reflexivity|]. split; [exact Hl|]. split; [|split].
  2: exact Hf.
  2: apply Hr; reflexivity.
  apply (Hm 500%Z (json_text "{'message':'upstream timeout'}")
           (JObj [(lit "message", JStr (lit "upstream timeout"))])
           (lit "upstream timeout")).
  - reflexivity.
  - reflexivity.
  - reflexivity.
  - discriminate.
Defined.



(* ----------------------------------------------------------------- *)
(** *** The invariant of the form *)

Lemma mem_In (x : jsstring) (l : list jsstring) :
  mem x l = true <-> In x l.
Proof.
  unfold mem. rewrite existsb_exists. split.
  - intros (y & Hy & E). apply str_eqb_eq in E. subst. exact Hy.
  - intros H. exists x. split; [exact H | apply str_eqb_refl].
Qed.

Lemma isFormValid_iff (h : HomeState) :
  isFormValid h = true <->
  trim (sqlQuery h) <> [] /\ businessDomain h <> [].
Proof.
  unfold isFormValid, isQueryEmpty.
  destruct (sqlQuery h) as [|c s] eqn:Q; simpl truthy.
  - simpl. split; [discriminate | intros [H _]; exfalso; apply H; reflexivity].
  - cbn [negb orb]. rewrite andb_true_iff, negb_true_iff, str_eqb_neq.
    assert (T : truthy (JStr (businessDomain h)) = true
                <-> businessDomain h <> [])
      by (destruct (businessDomain h); simpl; split; intros H;
          try discriminate; try reflexivity; exfalso; apply H; reflexivity).
    rewrite T. tauto.
Qed.

Lemma remove_nth_filter (A : Type) (p : A -> bool) (l : list A) (i : nat)
  (k : A) :
  nth_error l i = Some k ->
  if p k
  then S (length (filter p (remove_nth i l))) = length (filter p l) /\
       (forall x, In x (filter p (remove_nth i l)) -> In x (filter p l))
  else filter p (remove_nth i l) = filter p l.
Proof.
  revert i; induction l as [|a l IH]; intros i H.
  - destruct i; discriminate H.
  - destruct i as [|i].
    + inversion H; subst a.
      change (remove_nth 0 (k :: l)) with l. cbn [filter].
      destruct (p k); [|reflexivity].
      split; [reflexivity | intros x Hx; right; exact Hx].
    + specialize (IH i H).
      change (remove_nth (S i) (a :: l)) with (a :: remove_nth i l).
      cbn [filter].
      destruct (p k).
      * destruct IH as [IH1 IH2]. destruct (p a).
        -- split; [cbn [length]; f_equal; exact IH1|].
           intros x [Hx|Hx]; [left; exact Hx | right; auto].
        -- split; assumption.
      * rewrite IH. reflexivity.
Qed.

Lemma handleDownload_resume_not_loading query domain o w :
  isLoading (home (exec (handleDownload_resume query domain o) w)) = false.
Proof.
  unfold exec, handleDownload_resume, try_finally.
  match goal with |- context [let '(r, w') := ?m w in _] => destruct (m w) end.
  reflexivity.
Qed.

Lemma handleDownload_resume_keeps_pending query domain o :
  keeps (fun w => (awaiting w, businessDomain (home w)))
    (handleDownload_resume query domain o).
Proof.
  unfold handleDownload_resume, generateDocument_resume, performDownload,
    generateDocumentFilename, downloadFile, console_error, console_log,
    setLastDocument, setError, setShowSuccess, setIsLoading.
  frame.
Qed.

Lemma session_resume_keeps_form (k : Awaiting) (o : Outcome) :
  is_generation k = false ->
  keeps (fun w => (awaiting w, home w)) (resume k o).
Proof.
  destruct k; try discriminate; intros _; simpl resume;
    unfold checkOAuthCallback_resume, checkAuthStatus_resume, logout_resume,
      login, setUser, setLoading, localStorage_setItem,
      localStorage_removeItem, history_replaceState, console_error;
    frame.
Qed.

Lemma mount_keeps_form : keeps form_view AuthProvider_useEffect.
Proof.
  unfold AuthProvider_useEffect, checkOAuthCallback, checkAuthStatus,
    localStorage_getItem, URLSearchParams_get, setUser, console_error.
  frame.
Qed.

Lemma quiet_event_keeps_form (ev : Event) :
  match ev with
  | ClickLogout | ClickProvider _ | TypeQuery _ | ClickRedownload
  | CloseError => True
  | _ => False
  end ->
  keeps form_view (dispatch ev).
Proof.
  destruct ev; try contradiction; intros _;
    unfold dispatch, logout, handleSSOLogin, handleRedownload,
      performDownload, generateDocumentFilename, downloadFile,
      handleCloseError, location_assign, console_error, setDialogLoading,
      setDialogError, setSqlQuery, setError;
    frame.
Qed.

Lemma form_invariant_view (w w' : World) :
  form_view w' = form_view w -> form_invariant w -> form_invariant w'.
Proof.
  unfold form_view, form_invariant, outstanding.
  intros E. inversion E as [[E1 E2 E3]]. rewrite E1, E2, E3. tauto.
Qed.

Lemma render_QueryForm (h : HomeState) :
  HomePage_render h = QueryForm ->
  isLoading h = false /\ showSuccess h = false.
Proof.
  unfold HomePage_render.
  destruct (isLoading h); [discriminate|].
  destruct (showSuccess h); [discriminate|]. auto.
Qed.

Lemma QueryForm_handleDownload_valid (w : World) :
  isFormValid (home w) = true ->
  QueryForm_handleDownload w
  = handleDownload (sqlQuery (home w)) (businessDomain (home w)) w.
Proof.
  intros V. unfold QueryForm_handleDownload, bind, gets. rewrite V.
  reflexivity.
Qed.

Lemma QueryForm_handleDownload_invalid (w : World) :
  isFormValid (home w) = false ->
  QueryForm_handleDownload w = (Normal tt, w).
Proof.
  intros V. unfold QueryForm_handleDownload, bind, gets. rewrite V.
  reflexivity.
Qed.

Lemma dispatch_preserves_form_invariant (ev : Event) (w : World) :
  form_invariant w -> form_invariant (exec (dispatch ev) w).
Proof.
  intros Inv.
  destruct ev as [i o| |name|text|value| | | | ].
  2-4, 7, 9: eapply form_invariant_view; [|exact Inv];
             apply quiet_event_keeps_form; exact I.
  - (* a fetch settles *)
    unfold dispatch, settle, exec.
    destruct (nth_error (awaiting w) i) as [k|] eqn:N; [|exact Inv].
    set (w1 := with_network (fun l => l) (remove_nth i) w).
    change (form_invariant (exec (resume k o) w1)).
    pose proof (remove_nth_filter _ is_generation (awaiting w) i k N) as F.
    destruct (is_generation k) eqn:G.
    + destruct k as [| | |query domain]; try discriminate. simpl resume.
      destruct F as [F1 F2]. destruct Inv as (I1 & I2 & I3).
      pose proof (handleDownload_resume_keeps_pending query domain o w1) as K.
      inversion K as [[Ka Kb]].
      pose proof (handleDownload_resume_not_loading query domain o w1) as L.
      unfold form_invariant, outstanding, exec in *.
      rewrite L, Ka, Kb. cbn [awaiting home w1 with_network].
      split; [|split].
      * destruct (isLoading (home w)); lia.
      * intros q d Hin. apply I2. apply F2. exact Hin.
      * exact I3.
    + eapply form_invariant_view; [|exact Inv].
      pose proof (session_resume_keeps_form k o G w1) as K.
      inversion K as [[Ka Kh]].
      unfold form_view, exec. rewrite Ka, Kh.
      cbn [awaiting home w1 with_network]. rewrite F. reflexivity.
  - (* a domain is selected *)
    unfold dispatch, exec, bind, gets. cbn [fst snd].
    destruct (HomePage_render (home w)); try exact Inv.
    destruct (negb (isQueryEmpty (home w))
              && mem value ([] :: businessDomains)) eqn:C; [|exact Inv].
    apply andb_true_iff in C. destruct C as [_ C]. apply mem_In in C.
    destruct Inv as (I1 & I2 & I3).
    unfold form_invariant, outstanding in *. simpl. auto.
  - (* the download button *)
    unfold dispatch, exec, bind, gets. cbn [fst snd].
    destruct (HomePage_render (home w)) eqn:R; try exact Inv.
    destruct (isFormValid (home w)) eqn:V; [|exact Inv].
    cbn [when]. rewrite (QueryForm_handleDownload_valid w V).
    destruct (handleDownload_run (sqlQuery (home w)) (businessDomain (home w)) w)
      as (Hh & Ha & _).
    apply render_QueryForm in R. destruct R as [R _].
    apply isFormValid_iff in V. destruct V as [V1 V2].
    destruct Inv as (I1 & I2 & I3).
    unfold form_invariant, outstanding, exec in *.
    rewrite Hh, Ha, filter_app, length_app. rewrite R in I1. simpl.
    split; [lia|]. split; [|exact I3].
    intros q d Hin. apply in_app_or in Hin. destruct Hin as [Hin|[Hin|[]]].
    + apply I2. exact Hin.
    + inversion Hin; subst. split; [exact V1|].
      destruct I3 as [E|I3]; [congruence | exact I3].
  - (* a new query *)
    unfold dispatch, exec, bind, gets. cbn [fst snd].
    destruct (HomePage_render (home w)); try exact Inv.
    destruct Inv as (I1 & I2 & I3).
    unfold form_invariant, outstanding in *. simpl. auto.
Qed.

Lemma reachable_form_invariant (w : World) :
  reachable w -> form_invariant w.
Proof.
  induction 1 as [base storage loc clk | w ev _ IH].
  - eapply form_invariant_view; [apply mount_keeps_form|].
    unfold form_invariant, outstanding. cbn [page_load awaiting home
      initial_home isLoading businessDomain filter length].
    split; [reflexivity|]. split; [intros q d []|]. left; reflexivity.
  - apply dispatch_preserves_form_invariant. exact IH.
Qed.

(* ----------------------------------------------------------------- *)
(** *** The cached document *)

(** [performDownload] on a document it can make a file of: one file
    more, one or two clock reads, nothing else. *)
Lemma performDownload_run (doc : jsval) (w : World) :
  doc <> JNull -> doc <> JUndefined ->
  downloadable doc = true ->
  performDownload doc w =
  (Normal tt,
   with_downloads
     (fun l => l ++ [delivery doc (clock w (ticks w))
                                  (clock w (S (ticks w)))])
     (with_ticks (fun t => reads_per_download doc + t) w)).
Proof.
  intros N1 N2 D. unfold downloadable in D.
  apply andb_true_iff in D. destruct D as [D D4].
  apply andb_true_iff in D. destruct D as [D D3].
  apply andb_true_iff in D. destruct D as [D1 D2].
  unfold performDownload, reads_per_download, delivery.
  cbv beta iota zeta delta [bind lift ret new_Date or_else
                            generateDocumentFilename downloadFile modify].
  assert (G : forall k, get_prop doc k = Normal (property doc k))
    by (intros k; destruct doc; congruence || reflexivity).
  repeat match goal with
         | |- context [get_prop doc ?k] => rewrite (G k)
         end.
  rewrite (converts_text _ D1), (converts_text _ D2), (converts_text _ D3).
  destruct (truthy (property doc (lit "fileName"))).
  - rewrite (converts_text _ D4). reflexivity.
  - reflexivity.
Qed.

(** [performDownload] on a document with a field ToString refuses: the
    TypeError, no file, and nothing changed but the clock reads. *)
Lemma performDownload_refused (doc : jsval) (w : World) :
  doc <> JNull -> doc <> JUndefined ->
  downloadable doc = false ->
  exists w1,
    performDownload doc w = (Thrown not_primitive, w1) /\
    with_ticks (fun _ => 0) w1 = with_ticks (fun _ => 0) w.
Proof.
  intros N1 N2 D. unfold downloadable in D.
  unfold performDownload.
  cbv beta iota zeta delta [bind lift ret new_Date or_else
                            generateDocumentFilename downloadFile modify].
  assert (G : forall k, get_prop doc k = Normal (property doc k))
    by (intros k; destruct doc; congruence || reflexivity).
  repeat match goal with
         | |- context [get_prop doc ?k] => rewrite (G k)
         end.
  destruct (converts (property doc (lit "businessDomain"))) eqn:D1;
    [rewrite (converts_text _ D1)
    |rewrite (converts_refused _ D1); eexists; split; reflexivity].
  destruct (converts (property doc (lit "documentId"))) eqn:D2;
    [rewrite (converts_text _ D2)
    |rewrite (converts_refused _ D2); eexists; split; reflexivity].
  destruct (converts (property doc (lit "sqlQuery"))) eqn:D3;
    [rewrite (converts_text _ D3)
    |rewrite (converts_refused _ D3); eexists; split; reflexivity].
  cbn [andb] in D.
  destruct (truthy (property doc (lit "fileName"))); [|discriminate].
  rewrite (converts_refused _ D). eexists; split; reflexivity.
Qed.

Lemma truthy_not_null (v : jsval) :
  truthy v = true -> v <> JNull /\ v <> JUndefined.
Proof. destruct v; simpl; intros H; split; congruence. Qed.

Lemma redownload_step (w : World) :
  HomePage_render (home w) = SuccessState ->
  truthy (lastDocument (home w)) = true ->
  exec (dispatch ClickRedownload) w
  = exec (performDownload (lastDocument (home w))) w.
Proof.
  intros R T. unfold exec, dispatch, bind, gets. cbn [fst snd].
  rewrite R. unfold handleRedownload, bind, gets, when. cbn [fst snd].
  rewrite T. reflexivity.
Qed.

Lemma generateDocument_resume_result (domain : jsstring) (o : Outcome)
  (w w1 : World) (r : jsval) :
  generateDocument_resume domain o w = (Normal r, w1) ->
  exists body, r = JObj [(lit "success", JBool true);
                         (lit "data", JObj body)].
Proof.
  unfold generateDocument_resume.
  cbv beta iota zeta delta [await bind ret try_catch fst snd lift throw
                            JSON_parse_or_throw or_else new_Date
                            console_error modify].
  destruct o as [e|status text]; [discriminate|].
  destruct (response_ok status);
    [|cbv beta iota zeta delta [negb]; destruct (new_Error _); discriminate].
  cbv beta iota zeta delta [negb].
  destruct (JSON_parse text) as [data|]; [|discriminate].
  destruct data as [| |b|m e|s|l|o]; try discriminate.
  all: cbv beta iota zeta delta [get_prop].
  all: match goal with
       | |- context [truthy (property ?d (lit "documentId"))] =>
           destruct (truthy (property d (lit "documentId")));
           destruct (truthy (property d (lit "fileName")));
           destruct (truthy (property d (lit "generatedAt")))
       end.
  all: intros H; inversion H; eexists; reflexivity.
Qed.

(** What a settled generation call leaves in the success state: the flag
    and the document of before, or a new document, shown as a success if
    a file could be made of it. *)
Lemma handleDownload_resume_document (query domain : jsstring) (o : Outcome)
  (w : World) :
  let w' := exec (handleDownload_resume query domain o) w in
  (lastDocument (home w') = lastDocument (home w) /\
   showSuccess (home w') = showSuccess (home w))
  \/ exists doc,
       lastDocument (home w') = JObj doc /\
       showSuccess (home w')
       = (if downloadable (JObj doc) then true else showSuccess (home w)).
Proof.
  intros w'. subst w'.
  unfold exec, handleDownload_resume, try_finally, try_catch, bind.
  pose proof (generateDocument_resume_keeps_home domain o w) as K.
  destruct (generateDocument_resume domain o w) as [[r|e] w1] eqn:E;
    cbn [snd] in K; inversion K as [[Kh Kf Ka Kd]].
  - destruct (generateDocument_resume_result domain o w w1 r E) as (body & ->).
    right.
    change (lift (get_prop (JObj [(lit "success", JBool true);
                                  (lit "data", JObj body)]) (lit "success")) w1)
      with (Normal (JBool true), w1).
    cbn [truthy when].
    change (lift (get_prop (JObj [(lit "success", JBool true);
                                  (lit "data", JObj body)]) (lit "data")) w1)
      with (Normal (JObj body), w1).
    cbv beta iota.
    unfold setLastDocument, console_log, modify. cbv beta iota.
    match goal with
    | |- context [performDownload (JObj ?d) ?v] =>
        exists d; destruct (downloadable (JObj d)) eqn:D;
        [rewrite (performDownload_run (JObj d) v) by (discriminate || exact D)
        |destruct (performDownload_refused (JObj d) v) as (w3 & -> & Q);
         [discriminate | discriminate | exact D |];
         apply (f_equal home) in Q]
    end.
    + split; reflexivity.
    + cbn [home with_ticks] in Q. cbn [fst snd setError setIsLoading modify
        home with_home lastDocument showSuccess with_error with_isLoading].
      rewrite Q. cbn [home with_console with_home lastDocument showSuccess
                      with_lastDocument].
      rewrite Kh. split; reflexivity.
  - left. simpl. rewrite Kh. split; reflexivity.
Qed.

Lemma success_invariant_view (w w' : World) :
  (success_view w', isLoading (home w'))
  = (success_view w, isLoading (home w)) ->
  success_invariant w -> success_invariant w'.
Proof.
  unfold success_view, success_invariant.
  intros E. inversion E as [[E1 E2 E3]]. rewrite E1, E2, E3. tauto.
Qed.

Lemma session_resume_keeps_home (k : Awaiting) (o : Outcome) :
  is_generation k = false -> keeps home (resume k o).
Proof.
  destruct k; try discriminate; intros _; simpl resume;
    unfold checkOAuthCallback_resume, checkAuthStatus_resume, logout_resume,
      login, setUser, setLoading, localStorage_setItem,
      localStorage_removeItem, history_replaceState, console_error;
    frame.
Qed.

Lemma event_keeps_success_view (ev : Event) :
  match ev with
  | Settle _ _ | ClickDownload | ClickNewQuery => False
  | _ => True
  end ->
  keeps (fun w => (success_view w, isLoading (home w))) (dispatch ev).
Proof.
  destruct ev; try contradiction; intros _;
    unfold dispatch, logout, handleSSOLogin, handleRedownload,
      performDownload, generateDocumentFilename, downloadFile,
      handleCloseError, fetch, location_assign, console_error,
      setDialogLoading, setDialogError, setSqlQuery, setBusinessDomain,
      setError;
    frame.
Qed.

(** A pending generation call keeps the loading flag up. *)
Lemma pending_generation_is_loading (w : World) (i : nat)
  (query domain : jsstring) :
  form_invariant w ->
  nth_error (awaiting w) i = Some (AwaitGenerate query domain) ->
  isLoading (home w) = true.
Proof.
  intros (I1 & _) N. unfold outstanding in I1.
  destruct (isLoading (home w)); [reflexivity|].
  apply nth_error_In in N.
  assert (F : In (AwaitGenerate query domain)
                 (filter is_generation (awaiting w)))
    by (apply filter_In; split; [exact N | reflexivity]).
  destruct (filter is_generation (awaiting w)); [destruct F | discriminate].
Qed.

Lemma dispatch_preserves_success_invariant (ev : Event) (w : World) :
  form_invariant w ->
  success_invariant w -> success_invariant (exec (dispatch ev) w).
Proof.
  intros Fw Inv.
  destruct ev as [i o| |name|text|value| | | | ].
  2-5, 7, 9: eapply success_invariant_view; [|exact Inv];
             apply event_keeps_success_view; exact I.
  - unfold dispatch, settle, exec.
    destruct (nth_error (awaiting w) i) as [k|] eqn:N; [|exact Inv].
    set (w1 := with_network (fun l => l) (remove_nth i) w).
    change (success_invariant (exec (resume k o) w1)).
    destruct (is_generation k) eqn:G.
    + destruct k as [| | |query domain]; try discriminate. simpl resume.
      pose proof (pending_generation_is_loading w i query domain Fw N) as L.
      destruct Inv as [_ Inv2]. specialize (Inv2 L).
      pose proof (handleDownload_resume_not_loading query domain o w1) as L'.
      unfold success_invariant. rewrite L'.
      split; [|discriminate].
      change (showSuccess (home w1)) with (showSuccess (home w)) in *.
      destruct (handleDownload_resume_document query domain o w1)
        as [[H1 H2]|(doc & H1 & H2)].
      * change (showSuccess (home w1)) with (showSuccess (home w)) in H2.
        rewrite H2, Inv2. discriminate.
      * change (showSuccess (home w1)) with (showSuccess (home w)) in H2.
        rewrite H2, Inv2.
        destruct (downloadable (JObj doc)) eqn:D; [|discriminate].
        intros _. exists doc. split; [exact H1 | exact D].
    + eapply success_invariant_view; [|exact Inv].
      unfold success_view, exec.
      rewrite (session_resume_keeps_home k o G w1). reflexivity.
  - (* the download button *)
    unfold dispatch, exec, bind, gets. cbn [fst snd].
    destruct (HomePage_render (home w)) eqn:R; try exact Inv.
    destruct (isFormValid (home w)) eqn:V; [|exact Inv].
    cbn [when]. rewrite (QueryForm_handleDownload_valid w V).
    destruct (handleDownload_run (sqlQuery (home w)) (businessDomain (home w)) w)
      as (Hh & _).
    apply render_QueryForm in R. destruct R as [_ R].
    unfold success_invariant, exec in *. rewrite Hh.
    cbn [showSuccess with_error with_isLoading]. rewrite R.
    split; [discriminate | reflexivity].
  - unfold dispatch, exec, bind, gets. cbn [fst snd].
    destruct (HomePage_render (home w)) eqn:R; try exact Inv.
    unfold HomePage_render in R.
    destruct (isLoading (home w)) eqn:L; [discriminate|].
    split; [discriminate|].
    cbn. rewrite L. discriminate.
Qed.

Lemma reachable_success_invariant (w : World) :
  reachable w -> success_invariant w.
Proof.
  induction 1 as [base storage loc clk | w ev Hw IH].
  - assert (K : keeps home AuthProvider_useEffect).
    { unfold AuthProvider_useEffect, checkOAuthCallback, checkAuthStatus,
        localStorage_getItem, URLSearchParams_get, setUser, console_error,
        fetch.
      frame. }
    unfold success_invariant, exec. rewrite K. split; discriminate.
  - apply dispatch_preserves_success_invariant;
      [apply reachable_form_invariant; exact Hw | exact IH].
Qed.

(** C7. In every state a loaded page can reach in which [HomePage] shows
    success, a document is cached, one that [performDownload] can make a
    file of, and [n] re-downloads send no request: the requests sent and
    the calls pending are those of before, the state of [HomePage] is
    unchanged (still success, the same cached document), and the files
    handed over are [n] more, each made of the cached document (report
    and name dated by the clock reads of that re-download). *)
Theorem redownload_is_network_free :
  forall (w : World) (n : nat),
    reachable w ->
    HomePage_render (home w) = SuccessState ->
    let doc := lastDocument (home w) in
    let c := reads_per_download doc in
    let w' := repeat_event n ClickRedownload w in
    (exists fields, doc = JObj fields) /\
    downloadable doc = true /\
    home w' = home w /\
    fetches w' = fetches w /\
    awaiting w' = awaiting w /\
    downloads w' =
      downloads w ++
      map (fun k => delivery doc (clock w (ticks w + c * k))
                                 (clock w (S (ticks w + c * k))))
          (seq 0 n).
Proof.
  intros w n Hreach R doc c.
  assert (D : exists fields, doc = JObj fields /\ downloadable doc = true).
  { destruct (proj1 (reachable_success_invariant w Hreach)) as (fields & E & D).
    - unfold HomePage_render in R.
      destruct (isLoading (home w)); [discriminate|].
      destruct (showSuccess (home w)); [reflexivity | discriminate].
    - exists fields. subst doc. rewrite E. split; [reflexivity | exact D]. }
  destruct D as (fields & D & Dl).
  assert (T : truthy (lastDocument (home w)) = true)
    by (fold doc; rewrite D; reflexivity).
  assert (G : let w' := repeat_event n ClickRedownload w in
              (home w' = home w /\ fetches w' = fetches w /\
               awaiting w' = awaiting w /\
               downloads w' =
                 downloads w ++
                 map (fun k => delivery doc (clock w (ticks w + c * k))
                                            (clock w (S (ticks w + c * k))))
                     (seq 0 n)) /\
              clock w' = clock w /\ ticks w' = ticks w + c * n).
  { induction n as [|n IH].
    - simpl. rewrite app_nil_r, Nat.mul_0_r, Nat.add_0_r. repeat split.
    - cbn [repeat_event]. cbv zeta in IH.
      set (v := repeat_event n ClickRedownload w) in *.
      destruct IH as ((Hh & Hf & Ha & Hd) & Hc & Ht).
      assert (R' : HomePage_render (home v) = SuccessState)
        by (rewrite Hh; exact R).
      assert (T' : truthy (lastDocument (home v)) = true)
        by (rewrite Hh; exact T).
      assert (Dl' : downloadable (lastDocument (home v)) = true)
        by (rewrite Hh; exact Dl).
      cbv zeta. rewrite (redownload_step v R' T').
      destruct (truthy_not_null _ T') as (N1 & N2).
      unfold exec. rewrite (performDownload_run _ v N1 N2 Dl'). cbn [snd].
      rewrite seq_S, map_app, app_assoc, <- Hd.
      cbn [home fetches awaiting downloads clock ticks with_downloads
           with_ticks map].
      rewrite Hh, Hc, Ht. fold doc. fold c.
      repeat split; try assumption. lia. }
  split; [exists fields; exact D|]. split; [exact Dl | exact (proj1 G)].
Qed.

Lemma redownload_is_network_free_witness :
  let w0 := exec AuthProvider_useEffect (example_page [] []) in
  let w1 := exec (dispatch (TypeQuery (lit "SELECT * FROM orders"))) w0 in
  let w2 := exec (dispatch (SelectDomain (lit "retail"))) w1 in
  let w3 := exec (dispatch ClickDownload) w2 in
  let w := exec (dispatch (Settle 1 (Response 200 (json_text
             "{'documentId':'DOC-1','fileName':'retail_analysis_2024-01-01.pdf','message':'ok'}"))))
             w3 in
  let w' := repeat_event 3 ClickRedownload w in
  reachable w /\
  HomePage_render (home w) = SuccessState /\
  home w' = home w /\
  fetches w' = fetches w /\
  awaiting w' = awaiting w /\
  map filename (downloads w') =
    [lit "retail_analysis_2024-01-01.pdf"; lit "retail_analysis_2024-01-01.pdf";
     lit "retail_analysis_2024-01-01.pdf"; lit "retail_analysis_2024-01-01.pdf"].
Proof.
  intros w0 w1 w2 w3 w w'.
  assert (R : reachable w)
    by (repeat apply reach_event; apply reach_mount).
  destruct (redownload_is_network_free w 3 R eq_refl)
    as (_ & _ & Hh & Hf & Ha & Hd).
  split; [exact R|].
  split; [reflexivity|]. split; [exact Hh|]. split; [exact Hf|].
  split; [exact Ha|].
  subst w'. rewrite Hd. reflexivity.
Defined.

(* ----------------------------------------------------------------- *)
(** *** Single flight *)

(** C1, as stated, fails: [HomePage.handleDownload] does not look at the
    loading flag.  Called while a submission is in flight it sends a
    second request, and two generation calls are pending. *)
Lemma handleDownload_while_submitting_starts_second_call :
  let w0 := exec AuthProvider_useEffect (example_page [] []) in
  let w1 := exec (handleDownload (lit "SELECT 1") (lit "finance")) w0 in
  let w2 := exec (handleDownload (lit "SELECT 1") (lit "finance")) w1 in
  isLoading (home w1) = true /\
  outstanding w1 = 1 /\
  outstanding w2 = 2 /\
  length (fetches w2) = S (length (fetches w1)) /\
  w2 <> w1.
Proof.
  split; [vm_compute; reflexivity|].
  split; [vm_compute; reflexivity|].
  split; [vm_compute; reflexivity|].
  split; [vm_compute; reflexivity|].
  intros E.
  assert (H : outstanding
                (exec (handleDownload (lit "SELECT 1") (lit "finance"))
                   (exec (handleDownload (lit "SELECT 1") (lit "finance"))
                      (exec AuthProvider_useEffect (example_page [] []))))
              = outstanding
                  (exec (handleDownload (lit "SELECT 1") (lit "finance"))
                     (exec AuthProvider_useEffect (example_page [] []))))
    by (rewrite E; reflexivity).
  vm_compute in H. discriminate.
Qed.

(** C1, amended. Through the rendered page at most one generation call
    is outstanding: in every state a loaded page can reach by actions of
    the user and settling requests, a generation call is pending exactly
    while the loading flag is up, and then only one; while it is up
    [HomePage] renders [LoadingState] in place of the form, so a click on
    the download button changes nothing and sends nothing; and whatever
    event comes next, at most one call is outstanding after it. *)
Theorem single_flight_through_the_form :
  forall (w : World),
    reachable w ->
    outstanding w <= 1 /\
    (isLoading (home w) = true <-> outstanding w = 1) /\
    (isLoading (home w) = true ->
     HomePage_render (home w) = LoadingState /\
     exec (dispatch ClickDownload) w = w) /\
    (forall ev, outstanding (exec (dispatch ev) w) <= 1).
Proof.
  intros w R.
  assert (B : forall v, form_invariant v -> outstanding v <= 1)
    by (intros v (I1 & _); destruct (isLoading (home v)); lia).
  pose proof (reachable_form_invariant w R) as Inv.
  split; [apply B; exact Inv|]. split; [|split].
  - destruct Inv as (I1 & _). destruct (isLoading (home w)); split;
      intros; congruence || lia.
  - intros L.
    assert (V : HomePage_render (home w) = LoadingState)
      by (unfold HomePage_render; rewrite L; reflexivity).
    split; [exact V|].
    unfold exec, dispatch, bind, gets. cbn [fst snd]. rewrite V. reflexivity.
  - intros ev. apply B. apply dispatch_preserves_form_invariant. exact Inv.
Qed.

Lemma single_flight_through_the_form_witness :
  let w0 := exec AuthProvider_useEffect (example_page [] []) in
  let w1 := exec (dispatch (TypeQuery (lit "SELECT * FROM orders"))) w0 in
  let w2 := exec (dispatch (SelectDomain (lit "retail"))) w1 in
  let w := exec (dispatch ClickDownload) w2 in
  reachable w /\
  isLoading (home w) = true /\
  outstanding w = 1 /\
  exec (dispatch ClickDownload) w = w /\
  outstanding (exec (dispatch ClickDownload) w) <= 1.
Proof.
  intros w0 w1 w2 w.
  assert (R : reachable w)
    by (repeat apply reach_event; apply reach_mount).
  destruct (single_flight_through_the_form w R) as (_ & H1 & H2 & H3).
  assert (L : isLoading (home w) = true) by reflexivity.
  split; [exact R|]. split; [exact L|].
  split; [apply H1; exact L|].
  split; [apply H2; exact L | apply H3].
Defined.

(* ----------------------------------------------------------------- *)
(** *** The validation gate *)

(** C2, as stated, fails: [HomePage.handleDownload] checks nothing.
    Called with an empty query, with an empty domain, or with a domain
    that is not on the menu, it goes to loading and sends the request. *)
Lemma handleDownload_accepts_invalid_request :
  let w0 := exec AuthProvider_useEffect (example_page [] []) in
  let w1 := exec (handleDownload [] (lit "finance")) w0 in
  let w2 := exec (handleDownload (lit "SELECT 1") []) w0 in
  let w3 := exec (handleDownload (lit "SELECT 1") (lit "astrology")) w0 in
  (isLoading (home w1) = true /\ outstanding w1 = 1 /\
   length (fetches w1) = S (length (fetches w0))) /\
  (isLoading (home w2) = true /\ outstanding w2 = 1 /\
   length (fetches w2) = S (length (fetches w0))) /\
  (isLoading (home w3) = true /\ outstanding w3 = 1 /\
   length (fetches w3) = S (length (fetches w0))).
Proof. vm_compute. repeat split. Qed.

(** C2, amended. The gate is the form: in every state a loaded page can
    reach, the form is valid exactly when the query has something besides
    white space and the domain is one of the ten codes; on a form that is
    not valid, [QueryForm.handleDownload] and a click on the download
    button change nothing and send nothing; so every pending generation
    call carries a valid request. *)
Theorem form_guard_rejects_invalid_input :
  forall (w : World),
    reachable w ->
    (isFormValid (home w) = true <->
     valid_request (sqlQuery (home w)) (businessDomain (home w))) /\
    (isFormValid (home w) = false ->
     QueryForm_handleDownload w = (Normal tt, w) /\
     exec (dispatch ClickDownload) w = w) /\
    (forall query domain,
        In (AwaitGenerate query domain) (awaiting w) ->
        valid_request query domain).
Proof.
  intros w R.
  destruct (reachable_form_invariant w R) as (I1 & I2 & I3).
  split; [|split].
  - rewrite isFormValid_iff. unfold valid_request. split.
    + intros [V1 V2]. split; [exact V1|].
      destruct I3 as [E|I3]; [congruence | exact I3].
    + intros [V1 V2]. split; [exact V1|].
      intros E. rewrite E in V2. vm_compute in V2.
      repeat destruct V2 as [V2|V2]; try discriminate V2. exact V2.
  - intros V. split; [apply QueryForm_handleDownload_invalid; exact V|].
    unfold exec, dispatch, bind, gets. cbn [fst snd].
    destruct (HomePage_render (home w)); try reflexivity.
    rewrite V. reflexivity.
  - intros query domain Hin. apply I2. apply filter_In.
    split; [exact Hin | reflexivity].
Qed.

Lemma form_guard_rejects_invalid_input_witness :
  let w0 := exec AuthProvider_useEffect (example_page [] []) in
  let w := exec (dispatch (TypeQuery (lit "   "))) w0 in
  reachable w /\
  sqlQuery (home w) = lit "   " /\
  isFormValid (home w) = false /\
  QueryForm_handleDownload w = (Normal tt, w) /\
  exec (dispatch ClickDownload) w = w.
Proof.
  intros w0 w.
  assert (R : reachable w)
    by (repeat apply reach_event; apply reach_mount).
  destruct (form_guard_rejects_invalid_input w R) as (_ & H & _).
  assert (V : isFormValid (home w) = false) by reflexivity.
  destruct (H V) as [H1 H2].
  split; [exact R|]. split; [reflexivity|]. split; [exact V|].
  split; assumption.
Defined.

(* ================================================================= *)
(** ** Trimming, and two runs of the page *)

Lemma drop_while_head (p : code_unit -> bool) (s : jsstring) (c : code_unit)
  (r : jsstring) :
  drop_while p s = c :: r -> p c = false.
Proof.
  induction s as [|x s IH]; simpl; [discriminate|].
  destruct (p x) eqn:E; [exact IH|].
  intros H; inversion H; subst; exact E.
Qed.

Lemma drop_while_nil (p : code_unit -> bool) (s : jsstring) :
  drop_while p s = [] <-> forallb p s = true.
Proof.
  induction s as [|x s IH]; simpl; [tauto|].
  destruct (p x); simpl; [exact IH | split; discriminate].
Qed.

(** A string is empty after trimming exactly when it is made of white
    space only. *)
Lemma trim_blank (s : jsstring) :
  trim s = [] <-> forallb is_js_space s = true.
Proof.
  unfold trim. rewrite <- drop_while_nil.
  destruct (drop_while is_js_space s) as [|c r] eqn:D.
  - simpl. tauto.
  - split; [|discriminate]. intros H. exfalso.
    apply (f_equal (@rev code_unit)) in H.
    rewrite rev_involutive in H. cbn [rev] in H.
    apply drop_while_nil in H. rewrite forallb_forall in H.
    assert (Hin : In c (rev r ++ [c]))
      by (apply in_or_app; right; left; reflexivity).
    specialize (H c Hin).
    rewrite (drop_while_head _ _ _ _ D) in H. discriminate.
Qed.

(** A query for the retail domain answered with a document: the page
    shows success, the named file is handed over, and a new query brings
    the form back with nothing cached. *)
Example run_success :
  let w0 := exec AuthProvider_useEffect (example_page [] []) in
  let w1 := exec (dispatch (TypeQuery (lit "SELECT * FROM orders"))) w0 in
  let w2 := exec (dispatch (SelectDomain (lit "retail"))) w1 in
  let w3 := exec (dispatch ClickDownload) w2 in
  let w4 := exec (dispatch (Settle 1 (Response 200 (json_text
              "{'documentId':'DOC-1','fileName':'retail_analysis_2024-01-01.pdf','message':'ok'}"))))
              w3 in
  let w5 := exec (dispatch ClickNewQuery) w4 in
  HomePage_render (home w3) = LoadingState /\
  map body (fetches w3) =
    [None; Some (json_text "{'script':'SELECT * FROM orders','business':'retail'}")] /\
  HomePage_render (home w4) = SuccessState /\
  property (lastDocument (home w4)) (lit "documentId") = JStr (lit "DOC-1") /\
  map filename (downloads w4) = [lit "retail_analysis_2024-01-01.pdf"] /\
  home w5 = initial_home.
Proof. vm_compute. repeat split. Qed.

(** The same query answered 500 with a message: the error is that
    message, the form is back, and the next click is accepted. *)
Example run_failure :
  let w0 := exec AuthProvider_useEffect (example_page [] []) in
  let w1 := exec (dispatch (TypeQuery (lit "SELECT * FROM orders"))) w0 in
  let w2 := exec (dispatch (SelectDomain (lit "retail"))) w1 in
  let w3 := exec (dispatch ClickDownload) w2 in
  let w4 := exec (dispatch (Settle 1 (Response 500 (json_text
              "{'message':'upstream timeout'}")))) w3 in
  let w5 := exec (dispatch ClickDownload) w4 in
  error (home w4) = JStr (lit "upstream timeout") /\
  HomePage_render (home w4) = QueryForm /\
  outstanding w4 = 0 /\
  HomePage_render (home w5) = LoadingState /\
  outstanding w5 = 1.
Proof. vm_compute. repeat split. Qed.

(* ================================================================= *)
(** * Further properties *)

(** ** JSON text of flat objects

    What [JSON.stringify] writes for a string, and for an object whose
    properties are strings, booleans or [null], [JSON.parse] reads back. *)

Lemma hex_value_digit (n : N) : (n < 16)%N -> hex_value (hex_digit n) = Some n.
Proof.
  intros H. unfold hex_digit, hex_value.
  destruct (n <? 10)%N eqn:E.
  - apply N.ltb_lt in E.
    replace ((48 <=? 48 + n)%N && (48 + n <=? 57)%N) with true
      by (symmetry; apply andb_true_iff; split; apply N.leb_le; lia).
    f_equal; lia.
  - apply N.ltb_ge in E.
    replace ((48 <=? 87 + n)%N && (87 + n <=? 57)%N) with false
      by (symmetry; apply andb_false_iff; right; apply N.leb_gt; lia).
    replace ((97 <=? 87 + n)%N && (87 + n <=? 102)%N) with true
      by (symmetry; apply andb_true_iff; split; apply N.leb_le; lia).
    f_equal; lia.
Qed.

Lemma hex4_escape (c : code_unit) :
  (c < 65536)%N ->
  hex4 (hex_digit (c / 4096 mod 16)) (hex_digit (c / 256 mod 16))
       (hex_digit (c / 16 mod 16)) (hex_digit (c mod 16)) = Some c.
Proof.
  intros H. unfold hex4.
  rewrite !hex_value_digit by (apply N.mod_lt; discriminate).
  f_equal.
  pose proof (N.div_mod c 16 ltac:(discriminate)).
  pose proof (N.div_mod (c / 16) 16 ltac:(discriminate)).
  pose proof (N.div_mod (c / 256) 16 ltac:(discriminate)).
  pose proof (N.div_mod (c / 4096) 16 ltac:(discriminate)).
  replace (c / 256)%N with (c / 16 / 16)%N in *
    by (rewrite N.Div0.div_div; reflexivity).
  replace (c / 4096)%N with (c / 16 / 16 / 16)%N in *
    by (rewrite !N.Div0.div_div; reflexivity).
  assert (c / 16 / 16 / 16 / 16 = 0)%N.
  { rewrite !N.Div0.div_div. apply N.div_small. simpl. exact H. }
  lia.
Qed.

Lemma parse_escape (c : code_unit) (rest acc : jsstring) :
  (c < 65536)%N ->
  parse_chars (unicode_escape c ++ rest) acc = parse_chars rest (c :: acc).
Proof.
  intros H. unfold unicode_escape.
  change (lit "\u") with [92; 117]%N. cbn [app parse_chars].
  change (N.eqb 92 34) with false. change (N.eqb 92 92) with true.
  change (N.eqb 117 117) with true. cbv iota.
  rewrite (hex4_escape c H). reflexivity.
Qed.

(** The characters [quote_chars] writes for [s], up to the closing quote,
    are read back as [s]. *)
Lemma parse_quote_chars :
  forall (n : nat) (s rest acc : jsstring),
    length s <= n ->
    parse_chars (quote_chars s ++ 34%N :: rest) acc = Some (rev acc ++ s, rest).
Proof.
  induction n as [|n IH]; intros s rest acc Hn.
  - destruct s; [|simpl in Hn; lia]. simpl. rewrite app_nil_r. reflexivity.
  - destruct s as [|c r].
    { simpl. rewrite app_nil_r. reflexivity. }
    simpl in Hn.
    assert (IHr : forall acc', parse_chars (quote_chars r ++ 34%N :: rest) acc'
                               = Some (rev acc' ++ r, rest))
      by (intros; apply IH; lia).
    assert (Done : rev (c :: acc) ++ r = rev acc ++ c :: r)
      by (simpl; rewrite <- app_assoc; reflexivity).
    cbn [quote_chars].
    destruct (N.eqb c 34) eqn:E34.
    { apply N.eqb_eq in E34; subst c. cbn. rewrite IHr. f_equal. f_equal. exact Done. }
    destruct (N.eqb c 92) eqn:E92.
    { apply N.eqb_eq in E92; subst c. cbn. rewrite IHr. f_equal. f_equal. exact Done. }
    destruct (N.eqb c 8) eqn:E8.
    { apply N.eqb_eq in E8; subst c. cbn. rewrite IHr. f_equal. f_equal. exact Done. }
    destruct (N.eqb c 12) eqn:E12.
    { apply N.eqb_eq in E12; subst c. cbn. rewrite IHr. f_equal. f_equal. exact Done. }
    destruct (N.eqb c 10) eqn:E10.
    { apply N.eqb_eq in E10; subst c. cbn. rewrite IHr. f_equal. f_equal. exact Done. }
    destruct (N.eqb c 13) eqn:E13.
    { apply N.eqb_eq in E13; subst c. cbn. rewrite IHr. f_equal. f_equal. exact Done. }
    destruct (N.eqb c 9) eqn:E9.
    { apply N.eqb_eq in E9; subst c. cbn. rewrite IHr. f_equal. f_equal. exact Done. }
    destruct (c <? 32)%N eqn:E32.
    { apply N.ltb_lt in E32. rewrite <- app_assoc, parse_escape by lia.
      rewrite IHr, Done. reflexivity. }
    assert (Lit : forall tail acc', parse_chars (c :: tail) acc'
                                    = parse_chars tail (c :: acc'))
      by (intros; cbn [parse_chars]; rewrite E34, E92, E32; reflexivity).
    destruct (is_high_surrogate c) eqn:Hi.
    { unfold is_high_surrogate in Hi. apply andb_true_iff in Hi.
      destruct Hi as [H1 H2]. apply N.leb_le in H1, H2.
      destruct r as [|d r'].
      - rewrite parse_escape by lia. reflexivity.
      - destruct (is_low_surrogate d) eqn:Lo.
        + unfold is_low_surrogate in Lo. apply andb_true_iff in Lo.
          destruct Lo as [L1 L2]. apply N.leb_le in L1, L2.
          cbn [app]. rewrite Lit.
          cbn [parse_chars].
          replace (N.eqb d 34) with false by (symmetry; apply N.eqb_neq; lia).
          replace (N.eqb d 92) with false by (symmetry; apply N.eqb_neq; lia).
          replace (d <? 32)%N with false by (symmetry; apply N.ltb_ge; lia).
          rewrite IH by (simpl in Hn; lia).
          simpl. rewrite <- !app_assoc. reflexivity.
        + rewrite <- app_assoc, parse_escape by lia.
          rewrite IHr, Done. reflexivity. }
    destruct (is_low_surrogate c) eqn:Lo.
    { unfold is_low_surrogate in Lo. apply andb_true_iff in Lo.
      destruct Lo as [L1 L2]. apply N.leb_le in L1, L2.
      rewrite <- app_assoc, parse_escape by lia.
      rewrite IHr, Done. reflexivity. }
    cbn [app]. rewrite Lit, IHr, Done. reflexivity.
Qed.

Lemma parse_value_scalar (f : nat) (v : jsval) (rest : jsstring) :
  scalar v = true ->
  parse_value (S f) (JSON_stringify v ++ rest) = POk v rest.
Proof.
  destruct v as [| |b|m e|s|l|o]; try discriminate; intros _.
  - reflexivity.
  - destruct b; reflexivity.
  - unfold JSON_stringify, stringify, quote.
    rewrite <- !app_assoc. cbn [app parse_value skip_ws drop_while].
    change (is_json_ws 34%N) with false. cbv iota.
    change (N.eqb 34%N 123%N) with false. change (N.eqb 34%N 91%N) with false.
    change (N.eqb 34%N 34%N) with true. cbv iota.
    rewrite parse_quote_chars with (n := length s) by lia.
    reflexivity.
Qed.

Lemma parse_member_step (f : nat) (k : jsstring) (v : jsval)
  (R : jsstring) (acc : props) :
  scalar v = true ->
  parse_members (S (S f)) (member_text (k, v) ++ R) acc =
  match skip_ws R with
  | [] => PSyntax
  | c :: r4 =>
      if N.eqb c 44 then parse_members (S f) r4 (define k v acc)
      else if N.eqb c 125 then POk (JObj (define k v acc)) r4
      else PSyntax
  end.
Proof.
  intros Hv. unfold member_text, quote. cbn [fst snd].
  rewrite <- !app_assoc.
  change (parse_members (S (S f)) ?s acc) with
    (match skip_ws s with
     | [] => PSyntax
     | q :: r =>
         if negb (N.eqb q 34) then PSyntax else
         match parse_chars r [] with
         | None => PSyntax
         | Some (k, r1) =>
             match skip_ws r1 with
             | [] => PSyntax
             | colon :: r2 =>
                 if negb (N.eqb colon 58) then PSyntax else
                 match parse_value (S f) r2 with
                 | POk v r3 =>
                     match skip_ws r3 with
                     | [] => PSyntax
                     | c :: r4 =>
                         if N.eqb c 44
                         then parse_members (S f) r4 (define k v acc)
                         else if N.eqb c 125
                         then POk (JObj (define k v acc)) r4
                         else PSyntax
                     end
                 | bad => bad
                 end
             end
         end
     end).
  cbn [app skip_ws drop_while].
  change (is_json_ws 34%N) with false. cbv iota.
  change (negb (N.eqb 34%N 34%N)) with false. cbv iota.
  rewrite parse_quote_chars with (n := length k) by lia.
  cbn [rev app].
  change (lit ":" ++ JSON_stringify v ++ R) with (58%N :: JSON_stringify v ++ R).
  change (skip_ws (58%N :: JSON_stringify v ++ R))
    with (58%N :: JSON_stringify v ++ R).
  change (negb (N.eqb 58%N 58%N)) with false. cbv iota.
  rewrite (parse_value_scalar f v R Hv). reflexivity.
Qed.

Lemma parse_members_flat :
  forall (o : props) (kv : jsstring * jsval) (f : nat) (rest : jsstring)
         (acc : props),
    flat (kv :: o) = true ->
    length o + 2 <= f ->
    parse_members f
      (join (lit ",") (map member_text (kv :: o)) ++ 125%N :: rest) acc
    = POk (JObj (fold_left (fun a p => define (fst p) (snd p) a) (kv :: o) acc))
          rest.
Proof.
  induction o as [|kv' o IH]; intros [k v] f rest acc Hflat Hf.
  - destruct f as [|[|f]]; try (simpl in Hf; lia).
    simpl in Hflat. rewrite andb_true_r in Hflat.
    cbn [map join]. rewrite parse_member_step by exact Hflat.
    reflexivity.
  - destruct f as [|[|f]]; try (simpl in Hf; lia).
    cbn [flat forallb snd] in Hflat. apply andb_true_iff in Hflat.
    destruct Hflat as [Hv Hrest].
    change (join (lit ",") (map member_text ((k, v) :: kv' :: o)))
      with (member_text (k, v) ++ lit "," ++
            join (lit ",") (map member_text (kv' :: o))).
    rewrite <- !app_assoc. rewrite parse_member_step by exact Hv.
    change (skip_ws (lit "," ++ ?x)) with (44%N :: x).
    change (N.eqb 44%N 44%N) with true. cbv iota.
    rewrite IH by (try exact Hrest; simpl in Hf |- *; lia).
    reflexivity.
Qed.

Lemma stringify_flat (o : props) :
  flat o = true ->
  JSON_stringify (JObj o)
  = lit "{" ++ join (lit ",") (map member_text o) ++ lit "}".
Proof.
  intros Hflat. unfold JSON_stringify. cbn [stringify].
  match goal with
  | |- _ ++ join _ (?members o) ++ _ = _ =>
      assert (E : members o = map member_text o)
  end.
  { induction o as [|[k v] o IH]; [reflexivity|].
    cbn [flat forallb snd] in Hflat. apply andb_true_iff in Hflat.
    destruct Hflat as [Hv Hrest].
    cbn [map]. rewrite <- (IH Hrest).
    unfold member_text, JSON_stringify. cbn [fst snd].
    destruct v; try discriminate; try reflexivity.
    destruct b; reflexivity. }
  rewrite E. reflexivity.
Qed.

Lemma join_members_length (o : props) :
  length o <= length (join (lit ",") (map member_text o)).
Proof.
  induction o as [|kv o IH]; [simpl; lia|].
  destruct o as [|kv' o].
  - cbn [map join]. unfold member_text, quote. rewrite !length_app. simpl. lia.
  - change (join (lit ",") (map member_text (kv :: kv' :: o)))
      with (member_text kv ++ lit "," ++
            join (lit ",") (map member_text (kv' :: o))).
    rewrite !length_app. simpl length at 1. simpl in IH |- *. lia.
Qed.

(** A flat object comes back from its JSON text. *)
Lemma JSON_round_trip_flat (o : props) :
  flat o = true ->
  JSON_parse (JSON_stringify (JObj o)) = Some (JObj (object_literal o)).
Proof.
  intros Hflat. rewrite (stringify_flat o Hflat).
  unfold JSON_parse.
  destruct o as [|kv o]; [reflexivity|].
  set (text := lit "{" ++ join (lit ",") (map member_text (kv :: o)) ++ lit "}").
  assert (L : length (kv :: o) <= length text).
  { subst text. rewrite !length_app.
    pose proof (join_members_length (kv :: o)). simpl length at 2. lia. }
  replace (2 * length text + 2) with (S (2 * length text + 1)) by lia.
  assert (F : length o + 2 <= 2 * length text + 1)
    by (change (length (kv :: o)) with (S (length o)) in L; lia).
  generalize dependent (2 * length text + 1). intros n F.
  pose proof (parse_members_flat o kv n [] [] Hflat F) as P.
  assert (Q : exists r, join (lit ",") (map member_text (kv :: o)) = 34%N :: r).
  { destruct kv as [k v]. destruct o; cbn [map join];
      unfold member_text, quote; cbn [fst app]; eexists; reflexivity. }
  destruct Q as [r Q].
  subst text. change (lit "}") with [125%N].
  rewrite Q in P |- *.
  cbn [parse_value]. change (lit "{" ++ ?x) with (123%N :: x).
  cbn [app skip_ws drop_while].
  change (is_json_ws 123%N) with false. cbv iota.
  change (N.eqb 123%N 123%N) with true. cbv iota.
  change (skip_ws (34%N :: r ++ [125%N])) with (34%N :: r ++ [125%N]).
  cbv iota. change (N.eqb 34%N 125%N) with false. cbv iota.
  cbn [app] in P.
  match goal with
  | |- match ?x with POk _ _ => _ | PSyntax => _ | PFuel => _ end = _ =>
      match type of P with
      | _ = ?y => replace x with y by (symmetry; exact P)
      end
  end.
  reflexivity.
Qed.

(* ================================================================= *)
(** ** The session at page load *)

(** The mount effect on a page whose stored entry does not make it throw:
    the entry is hydrated and both probes are started. *)
Lemma mount_run (base : jsval) (storage : list (jsstring * jsstring))
  (loc : Location) (clk : nat -> Date_) :
  hydrates storage = true ->
  let w0 := page_load base storage loc clk in
  AuthProvider_useEffect w0 =
  (Normal tt,
   with_network
     (fun l => l ++ (if truthy (search_param (lit "code") loc)
                     then [callback_request w0] else [])
                 ++ [status_request w0])
     (fun l => l ++ (if truthy (search_param (lit "code") loc)
                     then [AwaitCallback] else [])
                 ++ [AwaitStatus])
     (with_auth (fun a =>
        {| user := match lookup (lit "user") storage with
                   | Some (c :: s) =>
                       match JSON_parse (c :: s) with
                       | Some v => v
                       | None => JNull
                       end
                   | _ => JNull
                   end;
           loading := loading a |}) w0)).
Proof.
  intros H w0. unfold hydrates in H.
  assert (L1 : localStorage w0 = storage) by reflexivity.
  assert (L2 : location w0 = loc) by reflexivity.
  unfold callback_request, status_request, search_param.
  rewrite L2.
  unfold AuthProvider_useEffect, checkOAuthCallback, checkAuthStatus,
    localStorage_getItem, URLSearchParams_get, JSON_parse_or_throw,
    setUser, fetch.
  cbv beta iota zeta delta [bind gets ret modify async_call try_catch when
                            lift fst snd].
  rewrite L1.
  destruct (lookup (lit "user") storage) as [[|c s]|];
    cbn [truthy to_string];
    try (destruct (JSON_parse (c :: s)) as [v|]; [|discriminate]);
    cbv beta iota zeta delta [bind gets ret modify async_call try_catch when
                              lift fst snd];
    cbn [location with_auth]; rewrite ?L2;
    destruct (lookup (lit "code") (search loc)) as [[|c1 s1]|];
    cbn [truthy]; cbv beta iota; cbn [snd with_network with_auth location];
    rewrite ?L2; try reflexivity.
Qed.

(** On any other stored entry the effect stops where it starts. *)
Lemma mount_cases (base : jsval) (storage : list (jsstring * jsstring))
  (loc : Location) (clk : nat -> Date_) :
  let w0 := page_load base storage loc clk in
  hydrates storage = false -> exec AuthProvider_useEffect w0 = w0.
Proof.
  intros w0 H. unfold hydrates in H.
  unfold exec, AuthProvider_useEffect, localStorage_getItem, bind, gets.
  subst w0. cbn [fst snd localStorage page_load].
  destruct (lookup (lit "user") storage) as [[|c s]|]; try discriminate.
  cbn [truthy to_string]. unfold JSON_parse_or_throw, lift.
  destruct (JSON_parse (c :: s)); [discriminate|]. reflexivity.
Qed.

(** X1. Mount: on a page whose stored session entry is absent, empty or
    JSON text, the effect of [AuthProvider] completes and starts the
    status probe (GET on the status endpoint, with credentials), always;
    before it, and only when the address carries a [code] parameter that
    is not empty, it starts the callback exchange, a POST whose body is
    JSON text that reads back as the object of [code] and [state] of the
    address ([state] is [null] when the address has none).  Nothing is
    logged, nothing navigates, the store and the address are untouched
    and [loading] is still set. *)
Theorem mount_starts_the_probes :
  forall (base : jsval) (storage : list (jsstring * jsstring))
         (loc : Location) (clk : nat -> Date_),
    hydrates storage = true ->
    let w0 := page_load base storage loc clk in
    let w := exec AuthProvider_useEffect w0 in
    let exchange := truthy (search_param (lit "code") loc) in
    fst (AuthProvider_useEffect w0) = Normal tt /\
    fetches w = (if exchange then [callback_request w0] else [])
                ++ [status_request w0] /\
    awaiting w = (if exchange then [AwaitCallback] else []) ++ [AwaitStatus] /\
    (exchange = true ->
     exists text, body (callback_request w0) = Some text /\
       JSON_parse text =
       Some (JObj [(lit "code", search_param (lit "code") loc);
                   (lit "state", search_param (lit "state") loc)])) /\
    loading (auth w) = true /\
    console w = [] /\ navigations w = [] /\
    localStorage w = storage /\ location w = loc.
Proof.
  intros base storage loc clk H w0 w exchange.
  subst w exchange.
  pose proof (mount_run base storage loc clk H) as E. cbv zeta in E.
  fold w0 in E. unfold exec. rewrite E. cbn [fst snd].
  split; [reflexivity|].
  split; [reflexivity|].
  split; [reflexivity|].
  split.
  - intros T. unfold callback_request. cbn [body].
    eexists. split; [reflexivity|].
    subst w0. cbn [location page_load]. unfold search_param in *.
    destruct (lookup (lit "code") (search loc)) as [code|]; [|discriminate].
    destruct (lookup (lit "state") (search loc)) as [state|];
      apply JSON_round_trip_flat; reflexivity.
  - repeat split.
Qed.

Lemma mount_starts_the_probes_witness :
  let loc := {| pathname := lit "/callback";
                search := [(lit "code", lit "abc")];
                hash := [] |} in
  let w0 := page_load JUndefined [] loc example_clock in
  let w := exec AuthProvider_useEffect w0 in
  awaiting w = [AwaitCallback; AwaitStatus] /\
  (exists text, body (callback_request w0) = Some text /\
     JSON_parse text = Some (JObj [(lit "code", JStr (lit "abc"));
                                   (lit "state", JNull)])) /\
  loading (auth w) = true.
Proof.
  intros loc w0 w.
  destruct (mount_starts_the_probes JUndefined [] loc example_clock eq_refl)
    as (_ & _ & A & B & L & _).
  split; [exact A|]. split; [exact (B eq_refl) | exact L].
Defined.

Lemma stringify_object_nonempty (o : props) : JSON_stringify (JObj o) <> [].
Proof. unfold JSON_stringify. cbn [stringify]. discriminate. Qed.

(** X2. The session survives a reload: after [login] on a response whose
    identity has only strings, booleans or [null] in its four fields, the
    identity in memory is the one made of the response, the store holds
    its JSON text, and a page loaded on that store (whatever its address
    and clock) mounts without throwing and hydrates the same identity. *)
Theorem saved_identity_survives_reload :
  forall (data : jsval) (w : World) (base : jsval) (loc : Location)
         (clk : nat -> Date_),
    data <> JNull -> data <> JUndefined ->
    flat (own_props (identity_of data)) = true ->
    let w' := exec (login data) w in
    let w0 := page_load base (localStorage w') loc clk in
    user (auth w') = identity_of data /\
    stored_user w' = Some (JSON_stringify (identity_of data)) /\
    fst (AuthProvider_useEffect w0) = Normal tt /\
    user (auth (exec AuthProvider_useEffect w0)) = identity_of data.
Proof.
  intros data w base loc clk N1 N2 Hflat w' w0.
  assert (S1 : stored_user w' = Some (JSON_stringify (identity_of data))).
  { subst w'. unfold exec. rewrite (login_run data w N1 N2). cbn [snd].
    apply (stored_after_setItem (lit "user")). }
  assert (P : JSON_parse (JSON_stringify (identity_of data))
              = Some (identity_of data)).
  { unfold identity_of in *. cbn [own_props] in Hflat.
    rewrite (JSON_round_trip_flat _ Hflat). reflexivity. }
  split; [subst w'; unfold exec; rewrite (login_run data w N1 N2); reflexivity|].
  split; [exact S1|].
  split.
  - pose proof (mount_run base (localStorage w') loc clk) as E.
    cbv zeta in E. fold w0 in E. rewrite E; [reflexivity|].
    unfold hydrates. unfold stored_user in S1. rewrite S1.
    destruct (JSON_stringify (identity_of data)); [reflexivity|].
    rewrite P. reflexivity.
  - subst w0.
    rewrite (hydration_run base (localStorage w') loc clk
               (JSON_stringify (identity_of data)) (identity_of data)
               S1 (stringify_object_nonempty _) P).
    reflexivity.
Qed.

Lemma saved_identity_survives_reload_witness :
  let data := JObj [(lit "name", JStr (lit "Ann"));
                    (lit "email", JStr (lit "ann@example.com"))] in
  let loc := {| pathname := lit "/"; search := []; hash := [] |} in
  let w' := exec (login data) (example_page [] []) in
  let w0 := page_load JUndefined (localStorage w') loc example_clock in
  user (auth w') = identity_of data /\
  stored_user w' = Some (JSON_stringify (identity_of data)) /\
  fst (AuthProvider_useEffect w0) = Normal tt /\
  user (auth (exec AuthProvider_useEffect w0)) = identity_of data.
Proof.
  intros data loc w' w0.
  apply (saved_identity_survives_reload data (example_page [] []) JUndefined
           loc example_clock);
    [discriminate | discriminate | reflexivity].
Defined.

(* ================================================================= *)
(** ** What the probe, the exchange and the logout leave behind *)

(** X3. The status probe always ends the loading phase: however the
    request settles (rejected, any status, any body), [checkAuthStatus]
    throws nothing, clears [loading], sends nothing and leaves the address
    alone.  It leaves the identity in memory and in store as it was
    unless the answer is 401 or is 2xx with a name and an email: a network
    failure, a 500, a 2xx body that is not JSON or lacks a name keep a
    cached identity.  A rejection and a 2xx body that is not JSON are
    logged once; a status that is not 2xx is not logged. *)
Theorem status_probe_always_clears_loading :
  forall (o : Outcome) (w : World),
    let w' := exec (checkAuthStatus_resume o) w in
    fst (checkAuthStatus_resume o w) = Normal tt /\
    loading (auth w') = false /\
    fetches w' = fetches w /\
    awaiting w' = awaiting w /\
    location w' = location w /\
    (probe_decides o = false -> identity w' = identity w) /\
    (forall e, o = Rejected e ->
       console w' = console w ++ [LogError (lit "Auth status check error:") e]) /\
    (forall status text, o = Response status text ->
       response_ok status = true -> JSON_parse text = None ->
       console w' = console w
                    ++ [LogError (lit "Auth status check error:") syntax_error]) /\
    (forall status text, o = Response status text ->
       response_ok status = false -> console w' = console w).
Proof.
  intros o w w'. subst w'.
  unfold probe_decides, has_name_and_email, checkAuthStatus_resume, exec,
    try_finally, try_catch, bind.
  destruct o as [e|status text]; simpl.
  - repeat split; try reflexivity; try discriminate.
    intros e0 H; inversion H; reflexivity.
  - destruct (response_ok status) eqn:Hok.
    + unfold JSON_parse_or_throw.
      destruct (JSON_parse text) as [data|] eqn:P; simpl.
      * destruct data; simpl.
        all: try match goal with
                 | |- context [truthy (js_and ?a ?b)] =>
                     destruct (truthy (js_and a b)) eqn:G
                 end; simpl.
        all: repeat split; try reflexivity; try discriminate.
        all: intros st tx H; inversion H; subst; congruence.
      * repeat split; try reflexivity; try discriminate.
        intros st tx H; inversion H; subst; congruence.
    + destruct (Z.eqb status 401); simpl.
      all: repeat split; try reflexivity; try discriminate.
      all: intros st tx H; inversion H; subst; congruence.
Qed.

Lemma status_probe_always_clears_loading_witness :
  let entry := json_text
    "{'name':'Ann','email':'ann@example.com','id':'7','provider':'google'}" in
  let w := exec AuthProvider_useEffect (example_page [(lit "user", entry)] []) in
  let w' := exec (checkAuthStatus_resume (Response 500 (lit "oops"))) w in
  loading (auth w) = true /\
  loading (auth w') = false /\
  identity w' = identity w /\
  console w' = console w.
Proof.
  intros entry w w'.
  destruct (status_probe_always_clears_loading (Response 500 (lit "oops")) w)
    as (_ & L & _ & _ & _ & I & _ & _ & C).
  split; [reflexivity|]. split; [exact L|].
  split; [exact (I eq_refl) | exact (C 500%Z (lit "oops") eq_refl eq_refl)].
Defined.

(** X4. A callback exchange that does not succeed is silent: when the
    request is rejected, answered outside 2xx, or answered 2xx with a body
    that is not JSON or has no name or no email, [checkOAuthCallback]
    throws nothing and leaves the identity (memory and store), [loading],
    the address (so [code] and [state] stay in it), the requests and the
    navigations as they were.  On a status outside 2xx, 401 included, the
    whole world is unchanged; a rejection is logged once. *)
Theorem failed_exchange_changes_nothing :
  forall (o : Outcome) (w : World),
    exchange_succeeds o = false ->
    let w' := exec (checkOAuthCallback_resume o) w in
    fst (checkOAuthCallback_resume o w) = Normal tt /\
    identity w' = identity w /\
    auth w' = auth w /\
    location w' = location w /\
    fetches w' = fetches w /\
    navigations w' = navigations w /\
    (forall status text, o = Response status text ->
       response_ok status = false -> w' = w) /\
    (forall e, o = Rejected e ->
       console w' = console w ++ [LogError (lit "OAuth callback error:") e]).
Proof.
  intros o w F w'. subst w'. revert F.
  unfold exchange_succeeds, has_name_and_email, checkOAuthCallback_resume,
    exec, try_catch, bind.
  destruct o as [e|status text]; simpl.
  - intros _. repeat split; try reflexivity; try discriminate.
    intros e0 H; inversion H; reflexivity.
  - destruct (response_ok status) eqn:Hok; simpl.
    + unfold JSON_parse_or_throw.
      destruct (JSON_parse text) as [data|] eqn:P; simpl.
      * destruct data; simpl; intros G; try rewrite G; simpl.
        all: repeat split; try reflexivity; try discriminate.
        all: intros st tx H; inversion H; subst; congruence.
      * intros _. repeat split; try reflexivity; try discriminate.
        intros st tx H; inversion H; subst; congruence.
    + intros _. repeat split; try reflexivity; try discriminate.
Qed.

Lemma failed_exchange_changes_nothing_witness :
  let w := exec AuthProvider_useEffect
             (example_page [] [(lit "code", lit "abc")]) in
  let w' := exec (checkOAuthCallback_resume (Response 401 [])) w in
  w' = w /\ search (location w') = [(lit "code", lit "abc")].
Proof.
  intros w w'.
  destruct (failed_exchange_changes_nothing (Response 401 []) w eq_refl)
    as (_ & _ & _ & L & _ & _ & E & _).
  split; [exact (E 401%Z [] eq_refl eq_refl)|].
  subst w'. rewrite L. reflexivity.
Defined.

Lemma replace_prop_same (A : Type) (k : jsstring) (x : A)
  (o : list (jsstring * A)) :
  lookup k o = Some x -> replace_prop k x o = o.
Proof.
  induction o as [|[j y] o IH]; simpl; [reflexivity|].
  destruct (str_eqb j k).
  - intros H; inversion H; reflexivity.
  - intros H. rewrite (IH H). reflexivity.
Qed.

Lemma setItem_twice (k v : jsstring) (w : World) :
  localStorage (exec (localStorage_setItem k v)
                  (exec (localStorage_setItem k v) w))
  = localStorage (exec (localStorage_setItem k v) w).
Proof.
  pose proof (stored_after_setItem k v w) as S.
  unfold exec, localStorage_setItem, modify in *.
  cbn [snd localStorage with_localStorage] in *.
  rewrite S. apply replace_prop_same. exact S.
Qed.

(** X5. The two places that build an identity agree: on the same 2xx body
    with a name and an email, the success branch of [checkAuthStatus] and
    [login] as called by [checkOAuthCallback] put the same identity in
    memory and leave the same store; and the probe settling after the
    exchange changes neither. *)
Theorem probe_and_exchange_save_the_same_identity :
  forall (w : World) (status status' : Z) (text : jsstring) (data : jsval),
    response_ok status = true ->
    response_ok status' = true ->
    JSON_parse text = Some data ->
    has_name_and_email data = true ->
    let probe := checkAuthStatus_resume (Response status text) in
    let exchange := checkOAuthCallback_resume (Response status' text) in
    user (auth (exec probe w)) = identity_of data /\
    user (auth (exec exchange w)) = identity_of data /\
    localStorage (exec probe w) = localStorage (exec exchange w) /\
    user (auth (exec probe (exec exchange w))) = user (auth (exec exchange w)) /\
    localStorage (exec probe (exec exchange w)) = localStorage (exec exchange w).
Proof.
  intros w status status' text data Hok Hok' P G probe exchange.
  destruct (guard_true data G) as (_ & _ & N1 & N2).
  assert (Ep : forall v, probe v =
            (Normal tt,
             exec (setLoading false)
               (exec (localStorage_setItem (lit "user")
                        (JSON_stringify (identity_of data)))
                  (exec (setUser (identity_of data)) v)))).
  { intros v. subst probe.
    unfold checkAuthStatus_resume, try_finally, try_catch, bind, await, ret,
      JSON_parse_or_throw.
    cbn [fst snd]. rewrite Hok, P.
    unfold has_name_and_email in G.
    destruct data; try congruence; try discriminate G;
      simpl; simpl in G; rewrite G; reflexivity. }
  assert (Ee : exchange w =
            (Normal tt,
             exec (history_replaceState (pathname (location w)))
               (exec (localStorage_setItem (lit "user")
                        (JSON_stringify (identity_of data)))
                  (exec (setUser (identity_of data)) w)))).
  { subst exchange.
    unfold checkOAuthCallback_resume, try_catch, bind, await, ret,
      JSON_parse_or_throw.
    cbn [fst snd]. rewrite Hok', P. cbn [when].
    unfold has_name_and_email in G.
    destruct data; try congruence; try discriminate G;
      simpl; simpl in G; rewrite G; reflexivity. }
  assert (Rp : forall v, exec probe v = snd (probe v)) by reflexivity.
  assert (Re : exec exchange w = snd (exchange w)) by reflexivity.
  rewrite !Rp, !Re, Ee. cbn [snd]. rewrite !Ep. cbn [snd].
  repeat split.
  change (localStorage
            (exec (localStorage_setItem (lit "user")
                     (JSON_stringify (identity_of data)))
               (exec (localStorage_setItem (lit "user")
                        (JSON_stringify (identity_of data)))
                  (exec (setUser (identity_of data)) w)))
          = localStorage
              (exec (localStorage_setItem (lit "user")
                       (JSON_stringify (identity_of data)))
                 (exec (setUser (identity_of data)) w))).
  apply setItem_twice.
Qed.

Lemma probe_and_exchange_save_the_same_identity_witness :
  let text := json_text "{'name':'Ann','email':'ann@example.com','id':7}" in
  let w := exec AuthProvider_useEffect
             (example_page [] [(lit "code", lit "abc")]) in
  let probe := checkAuthStatus_resume (Response 200 text) in
  let exchange := checkOAuthCallback_resume (Response 201 text) in
  user (auth (exec probe w)) = user (auth (exec exchange w)) /\
  localStorage (exec probe w) = localStorage (exec exchange w) /\
  localStorage (exec probe (exec exchange w)) = localStorage (exec exchange w).
Proof.
  intros text w probe exchange.
  destruct (probe_and_exchange_save_the_same_identity w 200 201 text
              (JObj [(lit "name", JStr (lit "Ann"));
                     (lit "email", JStr (lit "ann@example.com"));
                     (lit "id", JInt 7)])
              eq_refl eq_refl eq_refl eq_refl)
    as (A & B & C & _ & D).
  split; [exact (eq_trans A (eq_sym B))|]. split; [exact C | exact D].
Defined.

(** X6. Logout is local whatever the server says: the call sends one
    POST to the logout endpoint with credentials and leaves the identity
    in place until it settles; the settlement, on a response of any
    status as on a network failure, throws nothing, clears the identity
    in memory and the [user] entry of the store, leaves every other entry
    and sends nothing more.  Only a rejected request is logged. *)
Theorem logout_clears_identity_whatever_the_answer :
  forall (o : Outcome) (w : World),
    let w1 := exec logout w in
    let w' := exec (logout_resume o) w in
    fetches w1 = fetches w ++ [logout_request w] /\
    awaiting w1 = awaiting w ++ [AwaitLogout] /\
    identity w1 = identity w /\
    fst (logout_resume o w) = Normal tt /\
    user (auth w') = JNull /\
    isAuthenticated w' = false /\
    stored_user w' = None /\
    (forall k, k <> lit "user" ->
               lookup k (localStorage w') = lookup k (localStorage w)) /\
    fetches w' = fetches w /\
    console w' = match o with
                 | Rejected e => console w ++ [LogError (lit "Logout error:") e]
                 | Response _ _ => console w
                 end.
Proof.
  intros o w w1 w'. subst w1 w'.
  split; [reflexivity|]. split; [reflexivity|]. split; [reflexivity|].
  unfold logout_resume, exec, try_catch, bind, isAuthenticated, stored_user.
  destruct o as [e|status text]; simpl.
  all: rewrite lookup_remove_prop, str_eqb_refl.
  all: repeat split; try reflexivity.
  all: intros k Hk; rewrite lookup_remove_prop.
  all: destruct (str_eqb (lit "user") k) eqn:E; [|reflexivity].
  all: apply str_eqb_eq in E; congruence.
Qed.

Lemma logout_clears_identity_whatever_the_answer_witness :
  let entry := json_text
    "{'name':'Ann','email':'ann@example.com','id':'7','provider':'google'}" in
  let w := exec AuthProvider_useEffect
             (example_page [(lit "theme", lit "dark"); (lit "user", entry)] []) in
  let w' := exec (logout_resume (Response 500 [])) w in
  isAuthenticated w = true /\
  isAuthenticated w' = false /\
  stored_user w' = None /\
  lookup (lit "theme") (localStorage w') = Some (lit "dark").
Proof.
  intros entry w w'.
  destruct (logout_clears_identity_whatever_the_answer (Response 500 []) w)
    as (_ & _ & _ & _ & _ & A & S & K & _).
  split; [reflexivity|]. split; [exact A|]. split; [exact S|].
  subst w'. rewrite (K (lit "theme")); [reflexivity | discriminate].
Defined.

(* ================================================================= *)
(** ** Events of a loaded page *)

Lemma keeps_map (X Y : Type) (p : World -> X) (g : X -> Y) (A : Type)
  (m : M A) :
  keeps p m -> keeps (fun w => g (p w)) m.
Proof. intros H w. cbv beta. rewrite H. reflexivity. Qed.

(** A settling [fetch] keeps what taking it off the pending calls and
    resuming its caller keep. *)
Lemma keeps_settle (X : Type) (p : World -> X) (i : nat) (o : Outcome) :
  (forall f w, p (with_network (fun l => l) f w) = p w) ->
  (forall k, keeps p (resume k o)) ->
  keeps p (settle i o).
Proof.
  intros Hn Hr w. unfold settle.
  destruct (nth_error (awaiting w) i) as [k|]; [|reflexivity].
  unfold async_call. cbn [snd]. rewrite Hr. apply Hn.
Qed.

(** No continuation of an async function sends a request, navigates or
    touches the dialog. *)
Lemma resume_keeps_requests (k : Awaiting) (o : Outcome) :
  keeps (fun w => (fetches w, awaiting w, REACT_APP_API_BASE_URL w,
                   navigations w, dialog w))
    (resume k o).
Proof.
  destruct k; simpl resume;
    unfold checkOAuthCallback_resume, checkAuthStatus_resume, logout_resume,
      handleDownload_resume, generateDocument_resume, performDownload,
      generateDocumentFilename, downloadFile, console_log,
      login, setUser, setLoading, localStorage_setItem,
      localStorage_removeItem, history_replaceState, console_error,
      setLastDocument, setError, setShowSuccess, setIsLoading;
    frame.
Qed.

Lemma quiet_event_keeps_requests (ev : Event) :
  match ev with
  | TypeQuery _ | SelectDomain _ | ClickRedownload | ClickNewQuery
  | CloseError => True
  | _ => False
  end ->
  keeps (fun w => (fetches w, awaiting w, REACT_APP_API_BASE_URL w,
                   navigations w, dialog w, auth w, localStorage w))
    (dispatch ev).
Proof.
  destruct ev; try contradiction; intros _;
    unfold dispatch, handleRedownload, handleNewQuery,
      performDownload, generateDocumentFilename, downloadFile,
      handleCloseError, setSqlQuery, setBusinessDomain, setError,
      setShowSuccess, setLastDocument;
    frame.
Qed.

(** The three events that reach the network or the address bar. *)
Lemma ClickLogout_run (w : World) :
  exec (dispatch ClickLogout) w =
  if negb (loading (auth w)) && isAuthenticated w
  then with_network (fun l => l ++ [logout_request w])
         (fun l => l ++ [AwaitLogout]) w
  else w.
Proof.
  unfold exec, dispatch, bind, gets. cbn [fst snd].
  destruct (negb (loading (auth w)) && isAuthenticated w); reflexivity.
Qed.

Lemma ClickDownload_run (w : World) :
  exec (dispatch ClickDownload) w =
  match HomePage_render (home w) with
  | QueryForm =>
      if isFormValid (home w)
      then with_network
             (fun l => l ++ [generation_request (sqlQuery (home w))
                               (businessDomain (home w)) w])
             (fun l => l ++ [AwaitGenerate (sqlQuery (home w))
                               (businessDomain (home w))])
             (with_home (fun h => with_error JNull (with_isLoading true h)) w)
      else w
  | _ => w
  end.
Proof.
  unfold exec, dispatch, bind, gets. cbn [fst snd].
  destruct (HomePage_render (home w)); try reflexivity.
  destruct (isFormValid (home w)) eqn:V; [|reflexivity].
  cbn [when]. rewrite (QueryForm_handleDownload_valid w V).
  reflexivity.
Qed.

Lemma ClickProvider_run (name : jsstring) (w : World) :
  exec (dispatch (ClickProvider name)) w =
  if negb (dlg_loading (dialog w)) && mem name ssoProviders
  then with_navigations
         (fun l => l ++ [match lookup name (sso_endpoints w) with
                         | Some target => target
                         | None => lit "undefined"
                         end])
         (with_dialog (fun _ => {| dlg_loading := true; dlg_error := JNull |}) w)
  else w.
Proof.
  unfold exec, dispatch, bind, gets. cbn [fst snd].
  destruct (negb (dlg_loading (dialog w))); [|reflexivity].
  cbn [andb].
  destruct (mem name ssoProviders) eqn:Hm; [|reflexivity].
  apply mem_In in Hm.
  destruct Hm as [<-|[<-|[<-|[]]]]; reflexivity.
Qed.

(* ----------------------------------------------------------------- *)
(** *** Loading and the status probe *)

Lemma filter_probe_snoc (l : list Awaiting) (k : Awaiting) :
  is_probe k = false -> filter is_probe (l ++ [k]) = filter is_probe l.
Proof. intros H. rewrite filter_app. simpl. rewrite H. apply app_nil_r. Qed.

Lemma resume_keeps_loading (k : Awaiting) (o : Outcome) :
  is_probe k = false ->
  keeps (fun w => loading (auth w)) (resume k o).
Proof.
  destruct k; try discriminate; intros _; simpl resume;
    unfold checkOAuthCallback_resume, logout_resume,
      handleDownload_resume, generateDocument_resume, performDownload,
      generateDocumentFilename, downloadFile, console_log,
      login, setUser, localStorage_setItem,
      localStorage_removeItem, history_replaceState, console_error,
      setLastDocument, setError, setShowSuccess, setIsLoading;
    frame.
Qed.

Lemma probe_resume_clears_loading (o : Outcome) (w : World) :
  loading (auth (exec (checkAuthStatus_resume o) w)) = false.
Proof.
  unfold exec, checkAuthStatus_resume, try_finally.
  match goal with |- context [let '(r, w') := ?m w in _] => destruct (m w) end.
  reflexivity.
Qed.

Lemma ui_event_keeps_loading (ev : Event) (w : World) :
  (forall i o, ev <> Settle i o) ->
  loading (auth (exec (dispatch ev) w)) = loading (auth w) /\
  filter is_probe (awaiting (exec (dispatch ev) w))
  = filter is_probe (awaiting w).
Proof.
  intros H.
  destruct ev as [i o| |name|text|value| | | | ];
    try (exfalso; eapply H; reflexivity).
  3, 4, 6, 7, 8:
    match goal with
    | |- context [dispatch ?ev] =>
        split;
        [ apply (keeps_map _ _ _
                   (fun t => match t with
                             | (_, _, _, _, _, au, _) => loading au
                             end) _ _
                   (quiet_event_keeps_requests ev I) w)
        | apply (keeps_map _ _ _
                   (fun t => match t with
                             | (_, a, _, _, _, _, _) => filter is_probe a
                             end) _ _
                   (quiet_event_keeps_requests ev I) w) ]
    end.
  - rewrite ClickLogout_run.
    destruct (negb (loading (auth w)) && isAuthenticated w);
      split; try reflexivity.
    apply filter_probe_snoc. reflexivity.
  - rewrite ClickProvider_run.
    destruct (negb (dlg_loading (dialog w)) && mem name ssoProviders);
      split; reflexivity.
  - rewrite ClickDownload_run.
    destruct (HomePage_render (home w)); try (split; reflexivity).
    destruct (isFormValid (home w)); split; try reflexivity.
    apply filter_probe_snoc. reflexivity.
Qed.

Lemma dispatch_preserves_probe_invariant (ev : Event) (w : World) :
  probe_invariant w -> probe_invariant (exec (dispatch ev) w).
Proof.
  intros (I1 & I2). unfold probe_invariant.
  destruct ev as [i o| |name|text|value| | | | ].
  2-9: match goal with
       | |- context [dispatch ?ev] =>
           destruct (ui_event_keeps_loading ev w ltac:(congruence)) as [L A]
       end; rewrite L, A; split; assumption.
  unfold dispatch, settle, exec.
  destruct (nth_error (awaiting w) i) as [k|] eqn:N; [|split; assumption].
  set (w1 := with_network (fun l => l) (remove_nth i) w).
  change (length (filter is_probe (awaiting (exec (resume k o) w1))) <= 1 /\
          (loading (auth (exec (resume k o) w1)) = false ->
           filter is_probe (awaiting (exec (resume k o) w1)) = [])).
  pose proof (keeps_map _ _ _ (fun t => match t with
                                        | (_, a, _, _, _) => a
                                        end) _ _
                (resume_keeps_requests k o) w1) as Ka.
  cbv beta in Ka. unfold exec. rewrite Ka.
  cbn [awaiting w1 with_network].
  pose proof (remove_nth_filter _ is_probe (awaiting w) i k N) as F.
  destruct (is_probe k) eqn:P.
  - destruct F as [F1 _].
    assert (Z : filter is_probe (remove_nth i (awaiting w)) = []).
    { destruct (filter is_probe (remove_nth i (awaiting w))); [reflexivity|].
      simpl in F1. lia. }
    rewrite Z. split; [simpl; lia | reflexivity].
  - rewrite F. pose proof (resume_keeps_loading k o P w1) as Kl.
    cbv beta in Kl. rewrite Kl. split; assumption.
Qed.

(** X7. Loading lasts until the status probe settles, and never comes
    back: in every state a loaded page can reach, while the probe is
    pending [loading] is set, and while [loading] is set the header shows
    no menu, so a click on Logout changes nothing; settling the probe
    clears [loading] whatever the outcome; and once [loading] is cleared
    no event sets it again. *)
Theorem loading_lasts_until_the_probe_settles :
  forall w : World,
    reachable w ->
    (In AwaitStatus (awaiting w) -> loading (auth w) = true) /\
    (loading (auth w) = true -> exec (dispatch ClickLogout) w = w) /\
    (loading (auth w) = false ->
     forall ev, loading (auth (exec (dispatch ev) w)) = false) /\
    (forall i o, nth_error (awaiting w) i = Some AwaitStatus ->
       loading (auth (exec (dispatch (Settle i o)) w)) = false).
Proof.
  intros w R.
  assert (Inv : probe_invariant w).
  { induction R as [base storage loc clk | w ev _ IH].
    - destruct (hydrates storage) eqn:H.
      + unfold exec. rewrite (mount_run base storage loc clk H).
        split; [|discriminate].
        cbn [snd awaiting with_network with_auth page_load app].
        destruct (truthy (search_param (lit "code") loc)); simpl; lia.
      + rewrite (mount_cases base storage loc clk H).
        split; [simpl; lia | discriminate].
    - apply dispatch_preserves_probe_invariant. exact IH. }
  destruct Inv as [I1 I2].
  split; [|split; [|split]].
  - intros Hin. destruct (loading (auth w)) eqn:L; [reflexivity|].
    specialize (I2 eq_refl).
    assert (Hf : In AwaitStatus (filter is_probe (awaiting w)))
      by (apply filter_In; split; [exact Hin | reflexivity]).
    rewrite I2 in Hf. destruct Hf.
  - intros L. rewrite ClickLogout_run, L. reflexivity.
  - intros L ev.
    destruct ev as [i o| |name|text|value| | | | ].
    2-9: match goal with
         | |- context [dispatch ?ev] =>
             destruct (ui_event_keeps_loading ev w ltac:(congruence)) as [K _]
         end; rewrite K; exact L.
    unfold dispatch, settle, exec.
    destruct (nth_error (awaiting w) i) as [k|] eqn:N; [|exact L].
    set (w1 := with_network (fun l => l) (remove_nth i) w).
    change (loading (auth (exec (resume k o) w1)) = false).
    destruct (is_probe k) eqn:P.
    + destruct k; try discriminate. apply probe_resume_clears_loading.
    + pose proof (resume_keeps_loading k o P w1) as Kl.
      cbv beta in Kl. unfold exec. rewrite Kl. exact L.
  - intros i o N. unfold dispatch, settle, exec. rewrite N.
    apply probe_resume_clears_loading.
Qed.

Lemma loading_lasts_until_the_probe_settles_witness :
  let entry := json_text
    "{'name':'Ann','email':'ann@example.com','id':'7','provider':'google'}" in
  let w := exec AuthProvider_useEffect (example_page [(lit "user", entry)] []) in
  let w' := exec (dispatch (Settle 0 (Rejected (Error_ (lit "TypeError")
                                                 (lit "Failed to fetch"))))) w in
  isAuthenticated w = true /\
  loading (auth w) = true /\
  exec (dispatch ClickLogout) w = w /\
  loading (auth w') = false /\
  loading (auth (exec (dispatch ClickLogout) w')) = false.
Proof.
  intros entry w w'.
  assert (R : reachable w) by apply reach_mount.
  assert (R' : reachable w') by (apply reach_event; exact R).
  destruct (loading_lasts_until_the_probe_settles w R) as (A & B & _ & D).
  destruct (loading_lasts_until_the_probe_settles w' R') as (_ & _ & C' & _).
  assert (L : loading (auth w) = true) by (apply A; left; reflexivity).
  assert (L' : loading (auth w') = false) by (apply D; reflexivity).
  split; [reflexivity|]. split; [exact L|]. split; [exact (B L)|].
  split; [exact L' | exact (C' L' ClickLogout)].
Defined.

(* ----------------------------------------------------------------- *)
(** *** The provider buttons *)

(** X8. A click on a provider button of a dialog that is not loading
    navigates to the login endpoint of that provider (Google, Outlook on
    the Microsoft endpoint, GitHub) and does nothing else: [handleSSOLogin]
    throws nothing, so nothing is logged and no error is shown; no request
    is sent; identity and [HomePage] are untouched.  The dialog is left
    loading, which disables the buttons: a further click on any of them
    changes nothing. *)
Theorem sso_click_navigates_to_the_provider :
  forall (w : World) (name target : jsstring),
    In (name, target) (sso_endpoints w) ->
    dlg_loading (dialog w) = false ->
    let w' := exec (dispatch (ClickProvider name)) w in
    fst (handleSSOLogin name w) = Normal tt /\
    navigations w' = navigations w ++ [target] /\
    dialog w' = {| dlg_loading := true; dlg_error := JNull |} /\
    fetches w' = fetches w /\
    awaiting w' = awaiting w /\
    console w' = console w /\
    identity w' = identity w /\
    home w' = home w /\
    (forall name', exec (dispatch (ClickProvider name')) w' = w').
Proof.
  intros w name target Hin L w'. subst w'.
  assert (M : mem name ssoProviders = true /\
              lookup name (sso_endpoints w) = Some target).
  { destruct Hin as [H|[H|[H|[]]]]; inversion H; subst; split; reflexivity. }
  destruct M as [M1 M2].
  split.
  - destruct Hin as [H|[H|[H|[]]]]; inversion H; subst; reflexivity.
  - rewrite ClickProvider_run, L, M1, M2. cbn [negb andb].
    repeat split.
Qed.

Lemma sso_click_navigates_to_the_provider_witness :
  let w := exec AuthProvider_useEffect (example_page [] []) in
  let w' := exec (dispatch (ClickProvider (lit "Outlook"))) w in
  navigations w' = [lit "http://localhost:8000/login/microsoft"] /\
  fetches w' = fetches w /\
  exec (dispatch (ClickProvider (lit "GitHub"))) w' = w'.
Proof.
  intros w w'.
  destruct (sso_click_navigates_to_the_provider w (lit "Outlook")
              (LOGIN_MICROSOFT w) ltac:(right; left; reflexivity) eq_refl)
    as (_ & N & _ & F & _ & _ & _ & _ & G).
  split; [exact N|]. split; [exact F | exact (G (lit "GitHub"))].
Defined.

Lemma endpoints_of_env (w w' : World) :
  REACT_APP_API_BASE_URL w' = REACT_APP_API_BASE_URL w ->
  sso_endpoints w' = sso_endpoints w /\ backend_urls w' = backend_urls w.
Proof.
  intros E.
  unfold sso_endpoints, backend_urls, LOGIN_GOOGLE, LOGIN_MICROSOFT,
    LOGIN_GITHUB, AUTH_CALLBACK, AUTH_STATUS, LOGOUT, API_BASE_URL,
    API_BASE_URL1.
  rewrite E. split; reflexivity.
Qed.

Lemma navigation_invariant_view (w w' : World) :
  (navigations w', dialog w', REACT_APP_API_BASE_URL w')
  = (navigations w, dialog w, REACT_APP_API_BASE_URL w) ->
  navigation_invariant w -> navigation_invariant w'.
Proof.
  intros E. inversion E as [[E1 E2 E3]].
  unfold navigation_invariant.
  rewrite E1, E2, (proj1 (endpoints_of_env w w' E3)). tauto.
Qed.

Lemma settle_keeps_chrome (i : nat) (o : Outcome) :
  keeps (fun w => (navigations w, dialog w, REACT_APP_API_BASE_URL w))
    (settle i o).
Proof.
  apply keeps_settle; [reflexivity|].
  intros k.
  apply (keeps_map _ _ _ (fun t => match t with
                                   | (_, _, e, n, d) => (n, d, e)
                                   end) _ _
           (resume_keeps_requests k o)).
Qed.

Lemma dispatch_preserves_navigation_invariant (ev : Event) (w : World) :
  navigation_invariant w -> navigation_invariant (exec (dispatch ev) w).
Proof.
  intros Inv.
  destruct ev as [i o| |name|text|value| | | | ].
  4, 5, 7, 8, 9:
    eapply navigation_invariant_view; [|exact Inv];
    match goal with
    | |- context [dispatch ?ev] =>
        apply (keeps_map _ _ _ (fun t => match t with
                                         | (_, _, e, n, d, _, _) => (n, d, e)
                                         end) _ _
                 (quiet_event_keeps_requests ev I))
    end.
  - eapply navigation_invariant_view; [|exact Inv].
    apply (settle_keeps_chrome i o).
  - rewrite ClickLogout_run.
    destruct (negb (loading (auth w)) && isAuthenticated w); exact Inv.
  - rewrite ClickProvider_run.
    destruct (negb (dlg_loading (dialog w))) eqn:L; [|exact Inv].
    cbn [andb]. destruct (mem name ssoProviders) eqn:Hm; [|exact Inv].
    apply negb_true_iff in L.
    destruct Inv as [Inv|[Inv _]]; [|congruence].
    right. split; [reflexivity|].
    apply mem_In in Hm.
    cbn [navigations with_navigations with_dialog]. rewrite Inv.
    destruct Hm as [<-|[<-|[<-|[]]]].
    + exists (lit "Google"), (LOGIN_GOOGLE w). split; [left|]; reflexivity.
    + exists (lit "Outlook"), (LOGIN_MICROSOFT w).
      split; [right; left|]; reflexivity.
    + exists (lit "GitHub"), (LOGIN_GITHUB w).
      split; [right; right; left|]; reflexivity.
  - rewrite ClickDownload_run.
    destruct (HomePage_render (home w)); try exact Inv.
    destruct (isFormValid (home w)); exact Inv.
Qed.

(** X9. A loaded page navigates at most once: in every state it can
    reach, the assignments to [location.href] are none or one; the one is
    the login endpoint of a provider and the dialog is then loading; and
    while the dialog is loading a click on a provider button changes
    nothing. *)
Theorem at_most_one_navigation :
  forall w : World,
    reachable w ->
    length (navigations w) <= 1 /\
    (forall target, In target (navigations w) ->
       dlg_loading (dialog w) = true /\
       exists name, In (name, target) (sso_endpoints w)) /\
    (forall name, dlg_loading (dialog w) = true ->
       exec (dispatch (ClickProvider name)) w = w).
Proof.
  intros w R.
  assert (Inv : navigation_invariant w).
  { induction R as [base storage loc clk | w ev _ IH].
    - left. destruct (hydrates storage) eqn:H.
      + unfold exec. rewrite (mount_run base storage loc clk H). reflexivity.
      + rewrite (mount_cases base storage loc clk H). reflexivity.
    - apply dispatch_preserves_navigation_invariant. exact IH. }
  split; [|split].
  - destruct Inv as [E|(_ & name & target & _ & E)]; rewrite E; simpl; lia.
  - intros target Hin.
    destruct Inv as [E|(L & name & target' & Hn & E)].
    + rewrite E in Hin. destruct Hin.
    + rewrite E in Hin. destruct Hin as [<-|[]].
      split; [exact L|]. exists name. exact Hn.
  - intros name L. rewrite ClickProvider_run, L. reflexivity.
Qed.

Lemma at_most_one_navigation_witness :
  let w0 := exec AuthProvider_useEffect (example_page [] []) in
  let w1 := exec (dispatch (ClickProvider (lit "Google"))) w0 in
  let w := exec (dispatch (ClickProvider (lit "GitHub"))) w1 in
  navigations w = [lit "http://localhost:8000/login/google"] /\
  length (navigations w) <= 1 /\
  dlg_loading (dialog w) = true.
Proof.
  intros w0 w1 w.
  assert (R : reachable w)
    by (repeat apply reach_event; apply reach_mount).
  destruct (at_most_one_navigation w R) as (A & B & _).
  split; [reflexivity|]. split; [exact A|].
  apply (B (lit "http://localhost:8000/login/google")). left; reflexivity.
Defined.

(* ----------------------------------------------------------------- *)
(** *** The requests a page sends *)

Lemma dispatch_requests (ev : Event) (w : World) :
  let w' := exec (dispatch ev) w in
  REACT_APP_API_BASE_URL w' = REACT_APP_API_BASE_URL w /\
  (fetches w' = fetches w \/
   exists r, fetches w' = fetches w ++ [r] /\ to_backend w r).
Proof.
  intros w'. subst w'.
  destruct ev as [i o| |name|text|value| | | | ].
  4, 5, 7, 8, 9:
    match goal with
    | |- context [dispatch ?ev] =>
        split;
        [ apply (keeps_map _ _ _
                   (fun t => match t with
                             | (_, _, e, _, _, _, _) => e
                             end) _ _
                   (quiet_event_keeps_requests ev I) w)
        | left;
          apply (keeps_map _ _ _
                   (fun t => match t with
                             | (f, _, _, _, _, _, _) => f
                             end) _ _
                   (quiet_event_keeps_requests ev I) w) ]
    end.
  - assert (K : keeps (fun w => (fetches w, REACT_APP_API_BASE_URL w))
                  (settle i o)).
    { apply keeps_settle; [reflexivity|]. intros k.
      apply (keeps_map _ _ _ (fun t => match t with
                                       | (f, _, e, _, _) => (f, e)
                                       end) _ _
               (resume_keeps_requests k o)). }
    specialize (K w). cbv beta in K.
    change (snd (settle i o w)) with (exec (dispatch (Settle i o)) w) in K.
    split; [exact (f_equal snd K) | left; exact (f_equal fst K)].
  - rewrite ClickLogout_run.
    destruct (negb (loading (auth w)) && isAuthenticated w);
      (split; [reflexivity|]); [right | left; reflexivity].
    exists (logout_request w). split; [reflexivity|].
    split; [reflexivity|]. right; right; left; reflexivity.
  - rewrite ClickProvider_run.
    destruct (negb (dlg_loading (dialog w)) && mem name ssoProviders);
      split; try reflexivity; left; reflexivity.
  - rewrite ClickDownload_run.
    destruct (HomePage_render (home w));
      try (split; [reflexivity | left; reflexivity]).
    destruct (isFormValid (home w));
      (split; [reflexivity|]); [right | left; reflexivity].
    eexists. split; [reflexivity|].
    split; [reflexivity|]. right; right; right; left; reflexivity.
Qed.

Lemma to_backend_env (w w' : World) (r : Request) :
  REACT_APP_API_BASE_URL w' = REACT_APP_API_BASE_URL w ->
  to_backend w r -> to_backend w' r.
Proof.
  intros E. unfold to_backend.
  rewrite (proj2 (endpoints_of_env w w' E)). tauto.
Qed.

(** X10. Every request of a loaded page goes to the backend with the
    session's cookies: in every state the page can reach, each request
    sent so far has [credentials: 'include'] and its address is the
    callback, status or logout endpoint, or the generation endpoint; an
    event sends no request or one such request; and no continuation of
    an async function sends any: whatever call settles, with whatever
    outcome and in whatever state, the part that runs after its [await]
    leaves the requests sent as they were, and so does the event of a
    settled call. *)
Theorem every_request_goes_to_the_backend :
  forall w : World,
    reachable w ->
    Forall (to_backend w) (fetches w) /\
    (forall ev,
        let w' := exec (dispatch ev) w in
        fetches w' = fetches w \/
        exists r, fetches w' = fetches w ++ [r] /\ to_backend w r) /\
    (forall (k : Awaiting) (o : Outcome) (v : World),
        fetches (exec (resume k o) v) = fetches v) /\
    (forall (i : nat) (o : Outcome),
        fetches (exec (dispatch (Settle i o)) w) = fetches w).
Proof.
  intros w R.
  assert (C : forall (k : Awaiting) (o : Outcome) (v : World),
             fetches (exec (resume k o) v) = fetches v).
  { intros k o v.
    exact (keeps_map _ _ _ (fun t => match t with
                                     | (f, _, _, _, _) => f
                                     end) _ _
             (resume_keeps_requests k o) v). }
  split; [|split; [intros ev; apply dispatch_requests|split; [exact C|]]].
  2: { intros i o.
       apply (keeps_settle _ fetches i o); [reflexivity|].
       intros k v. apply C. }
  induction R as [base storage loc clk | w ev _ IH].
  - destruct (hydrates storage) eqn:H.
    + unfold exec. rewrite (mount_run base storage loc clk H).
      cbn [snd fetches with_network with_auth page_load app].
      assert (S : to_backend
                    (with_network
                       (fun l => l ++ (if truthy (search_param (lit "code") loc)
                                       then [callback_request
                                               (page_load base storage loc clk)]
                                       else [])
                                 ++ [status_request
                                       (page_load base storage loc clk)])
                       (fun l => l ++ (if truthy (search_param (lit "code") loc)
                                       then [AwaitCallback] else [])
                                 ++ [AwaitStatus])
                       (with_auth (fun a =>
                          {| user := match lookup (lit "user") storage with
                                     | Some (c :: s) =>
                                         match JSON_parse (c :: s) with
                                         | Some v => v
                                         | None => JNull
                                         end
                                     | _ => JNull
                                     end;
                             loading := loading a |})
                          (page_load base storage loc clk)))
                    (status_request (page_load base storage loc clk)))
        by (split; [reflexivity | right; left; reflexivity]).
      destruct (truthy (search_param (lit "code") loc)).
      * constructor; [|constructor; [exact S | constructor]].
        split; [reflexivity | left; reflexivity].
      * constructor; [exact S | constructor].
    + rewrite (mount_cases base storage loc clk H). constructor.
  - destruct (dispatch_requests ev w) as [E [F|(r & F & B)]].
    + rewrite F. eapply Forall_impl; [|exact IH].
      intros r. apply to_backend_env. exact E.
    + rewrite F. apply Forall_app. split.
      * eapply Forall_impl; [|exact IH].
        intros r'. apply to_backend_env. exact E.
      * constructor; [|constructor].
        apply (to_backend_env w _ r E B).
Qed.

Lemma every_request_goes_to_the_backend_witness :
  let w0 := exec AuthProvider_useEffect (example_page [] []) in
  let w1 := exec (dispatch (TypeQuery (lit "SELECT * FROM orders"))) w0 in
  let w2 := exec (dispatch (SelectDomain (lit "retail"))) w1 in
  let w := exec (dispatch ClickDownload) w2 in
  let settled := exec (dispatch (Settle 1 (Response 200 (json_text
                    "{'documentId':'DOC-1'}")))) w in
  map url (fetches w) = [lit "http://localhost:8000/status";
                         lit "http://localhost:8001/prompt/sql"] /\
  Forall (to_backend w) (fetches w) /\
  fetches settled = fetches w.
Proof.
  intros w0 w1 w2 w settled.
  assert (R : reachable w)
    by (repeat apply reach_event; apply reach_mount).
  destruct (every_request_goes_to_the_backend w R) as (A & _ & _ & B).
  split; [reflexivity|]. split; [exact A | apply B].
Defined.

(* ----------------------------------------------------------------- *)
(** *** The store *)

Lemma lookup_setItem_other (k k' v : jsstring) (w : World) :
  k' <> k ->
  lookup k' (localStorage (snd (localStorage_setItem k v w)))
  = lookup k' (localStorage w).
Proof.
  intros N. unfold localStorage_setItem, modify.
  cbn [snd localStorage with_localStorage].
  assert (E : str_eqb k k' = false) by (apply str_eqb_neq; congruence).
  destruct (lookup k (localStorage w)) eqn:L.
  - rewrite lookup_replace_prop by congruence. rewrite E. reflexivity.
  - rewrite lookup_app. destruct (lookup k' (localStorage w)); [reflexivity|].
    simpl. rewrite E. reflexivity.
Qed.

Lemma lookup_removeItem_other (k k' : jsstring) (w : World) :
  k' <> k ->
  lookup k' (localStorage (snd (localStorage_removeItem k w)))
  = lookup k' (localStorage w).
Proof.
  intros N. unfold localStorage_removeItem, modify.
  cbn [snd localStorage with_localStorage].
  rewrite lookup_remove_prop.
  assert (E : str_eqb k k' = false) by (apply str_eqb_neq; congruence).
  rewrite E. reflexivity.
Qed.

Ltac frame_store :=
  repeat first
    [ lazymatch goal with
      | |- keeps _ (localStorage_setItem _ _) =>
          intros ?; apply lookup_setItem_other; assumption
      | |- keeps _ (localStorage_removeItem _) =>
          intros ?; apply lookup_removeItem_other; assumption
      end
    | frame_step ].

Lemma resume_keeps_other_entries (key : jsstring) (k : Awaiting) (o : Outcome) :
  key <> lit "user" ->
  keeps (fun w => lookup key (localStorage w)) (resume k o).
Proof.
  intros N.
  destruct k; simpl resume;
    unfold checkOAuthCallback_resume, checkAuthStatus_resume, logout_resume,
      handleDownload_resume, generateDocument_resume, performDownload,
      generateDocumentFilename, downloadFile, console_log,
      login, setUser, setLoading, history_replaceState, console_error,
      setLastDocument, setError, setShowSuccess, setIsLoading;
    frame_store.
Qed.

(** X11. The page writes one entry of the store only: no event changes
    what the store holds under a key other than [user], and the mount
    effect leaves the whole store as it found it. *)
Theorem only_the_user_entry_is_written :
  forall (key : jsstring),
    key <> lit "user" ->
    (forall (ev : Event) (w : World),
        lookup key (localStorage (exec (dispatch ev) w))
        = lookup key (localStorage w)) /\
    (forall base storage loc clk,
        localStorage (exec AuthProvider_useEffect
                        (page_load base storage loc clk)) = storage).
Proof.
  intros key N. split.
  - intros ev w.
    destruct ev as [i o| |name|text|value| | | | ].
    4, 5, 7, 8, 9:
      match goal with
      | |- context [dispatch ?ev] =>
          apply (keeps_map _ _ _
                   (fun t => match t with
                             | (_, _, _, _, _, _, ls) => lookup key ls
                             end) _ _
                   (quiet_event_keeps_requests ev I) w)
      end.
    + apply (keeps_settle _ (fun w => lookup key (localStorage w)) i o);
        [reflexivity|].
      intros k. apply resume_keeps_other_entries. exact N.
    + rewrite ClickLogout_run.
      destruct (negb (loading (auth w)) && isAuthenticated w); reflexivity.
    + rewrite ClickProvider_run.
      destruct (negb (dlg_loading (dialog w)) && mem name ssoProviders);
        reflexivity.
    + rewrite ClickDownload_run.
      destruct (HomePage_render (home w)); try reflexivity.
      destruct (isFormValid (home w)); reflexivity.
  - intros base storage loc clk.
    destruct (hydrates storage) eqn:H.
    + unfold exec. rewrite (mount_run base storage loc clk H). reflexivity.
    + rewrite (mount_cases base storage loc clk H). reflexivity.
Qed.

Lemma only_the_user_entry_is_written_witness :
  let entry := json_text
    "{'name':'Ann','email':'ann@example.com','id':'7','provider':'google'}" in
  let w := exec AuthProvider_useEffect
             (example_page [(lit "theme", lit "dark"); (lit "user", entry)] []) in
  let w' := exec (dispatch (Settle 0 (Response 401 []))) w in
  stored_user w' = None /\
  lookup (lit "theme") (localStorage w') = Some (lit "dark").
Proof.
  intros entry w w'.
  assert (N : lit "theme" <> lit "user") by (vm_compute; discriminate).
  destruct (only_the_user_entry_is_written (lit "theme") N) as [A _].
  split; [reflexivity|].
  subst w'. rewrite (A (Settle 0 (Response 401 [])) w). reflexivity.
Defined.

(* ================================================================= *)
(** ** The generation call, from the request to the file *)

(** X12. The generation request carries the submission as it is:
    [generateDocument] throws nothing before the [await], logs nothing
    and sends one request, a POST to the generation endpoint of the second
    base URL, with credentials and a JSON content type, whose body is JSON
    text that reads back as the object of [script], the query, and
    [business], the domain, whatever characters the query holds. *)
Theorem generation_request_carries_the_submission :
  forall (w : World) (query domain : jsstring),
    let w' := exec (generateDocument query domain) w in
    fst (generateDocument query domain w) = Normal tt /\
    awaiting w' = awaiting w ++ [AwaitGenerate query domain] /\
    console w' = console w /\
    exists (r : Request) (text : jsstring),
      fetches w' = fetches w ++ [r] /\
      url r = API_BASE_URL1 w ++ lit "/prompt/sql" /\
      method r = lit "POST" /\
      content_type r = Some (lit "application/json") /\
      credentials r = lit "include" /\
      body r = Some text /\
      JSON_parse text = Some (JObj [(lit "script", JStr query);
                                    (lit "business", JStr domain)]).
Proof.
  intros w query domain w'. subst w'.
  unfold generateDocument, exec, try_catch, bind, gets, fetch, modify.
  cbn [fst snd awaiting console fetches with_network].
  repeat split.
  eexists. eexists. split; [reflexivity|].
  cbn [url method content_type credentials body].
  repeat split.
  apply (JSON_round_trip_flat [(lit "script", JStr query);
                               (lit "business", JStr domain)]).
  reflexivity.
Qed.

(** [generateDocument] on a 2xx answer with a JSON body other than
    [null]: the result, the clock reads it made, and what it left. *)
Lemma generateDocument_resume_ok (domain : jsstring) (status : Z)
  (text : jsstring) (data : jsval) (w : World) :
  response_ok status = true ->
  JSON_parse text = Some data ->
  data <> JNull ->
  exists (six : props) (c : nat) (w1 : World),
    generateDocument_resume domain (Response status text) w =
    (Normal (JObj [(lit "success", JBool true);
                   (lit "data", JObj (spread data six))]), w1) /\
    ticks w1 = c + ticks w /\
    clock w1 = clock w /\ home w1 = home w /\
    downloads w1 = downloads w /\ fetches w1 = fetches w /\
    lookup (lit "sqlQuery") six = None /\
    lookup (lit "businessDomain") six = None /\
    (lookup (lit "documentId") (own_props data) = None ->
     exists s, lookup (lit "documentId") six = Some (JStr s)) /\
    (lookup (lit "fileName") (own_props data) = None ->
     exists n, n < c /\
       lookup (lit "fileName") six
       = Some (JStr (pdf_name domain (clock w (ticks w + n))))).
Proof.
  intros Hok Hparse Hnull.
  pose proof (JSON_parse_defined text data Hparse) as Hundef.
  unfold generateDocument_resume.
  cbv beta iota zeta delta [await bind ret try_catch fst snd lift throw
                            JSON_parse_or_throw or_else new_Date].
  rewrite Hok, Hparse.
  assert (A1 : lookup (lit "documentId") (own_props data) = None ->
               truthy (property data (lit "documentId")) = false)
    by (intros L; rewrite (property_absent data _ L eq_refl); reflexivity).
  assert (A2 : lookup (lit "fileName") (own_props data) = None ->
               truthy (property data (lit "fileName")) = false)
    by (intros L; rewrite (property_absent data _ L eq_refl); reflexivity).
  assert (G : forall k, get_prop data k = Normal (property data k))
    by (intros k; destruct data; congruence || reflexivity).
  cbv beta iota zeta delta [negb].
  repeat match goal with
         | |- context [get_prop data ?k] => rewrite (G k)
         end.
  destruct (truthy (property data (lit "documentId"))) eqn:B1;
    destruct (truthy (property data (lit "fileName"))) eqn:B2;
    destruct (truthy (property data (lit "generatedAt"))) eqn:B3.
  all: cbv beta iota zeta.
  all: eexists.
  1: exists 0. 2: exists 1. 3: exists 1. 4: exists 2.
  5: exists 1. 6: exists 2. 7: exists 2. 8: exists 3.
  all: eexists.
  all: do 8 (split; [reflexivity|]).
  all: split;
    [intros L; specialize (A1 L); try congruence; eexists; reflexivity|].
  all: intros L; specialize (A2 L); try congruence.
  all: unfold pdf_name.
  1, 2: exists 0; split; [lia|]; rewrite Nat.add_0_r; reflexivity.
  all: exists 1; split; [lia|]; rewrite Nat.add_1_r; reflexivity.
Qed.

Lemma performDownload_effect (doc : jsval) (w : World) :
  doc <> JNull -> doc <> JUndefined ->
  downloadable doc = true ->
  exists w1,
    performDownload doc w = (Normal tt, w1) /\
    downloads w1 = downloads w
                   ++ [delivery doc (clock w (ticks w)) (clock w (S (ticks w)))] /\
    home w1 = home w /\ fetches w1 = fetches w.
Proof.
  intros N1 N2 D. rewrite (performDownload_run doc w N1 N2 D).
  eexists. repeat split.
Qed.

Lemma performDownload_no_effect (doc : jsval) (w : World) :
  doc <> JNull -> doc <> JUndefined ->
  downloadable doc = false ->
  exists w1,
    performDownload doc w = (Thrown not_primitive, w1) /\
    downloads w1 = downloads w /\
    home w1 = home w /\ fetches w1 = fetches w.
Proof.
  intros N1 N2 D.
  destruct (performDownload_refused doc w N1 N2 D) as (w1 & E & Q).
  exists w1. split; [exact E|].
  split; [exact (f_equal downloads Q)|].
  split; [exact (f_equal home Q) | exact (f_equal fetches Q)].
Qed.

(** X13. A generation call answered 2xx with a JSON body other than
    [null] caches a document and tries to deliver it: [handleDownload]
    throws nothing, clears [isLoading], leaves the form fields as they
    were and sends nothing.  The cached document is an object in which
    every field of the body has the body's value, and [sqlQuery] and
    [businessDomain] are the submitted ones unless the body has fields of
    these names (the body is spread last).  If [performDownload] can make
    a file of the document (ToString accepts its [businessDomain],
    [documentId], [sqlQuery] and its [fileName]), as it can whenever
    ToString accepts every field of the body, [HomePage] renders
    [SuccessState], the error is as it was and one file is delivered,
    made of the cached document; when the body has no [fileName] its name
    is the submitted domain, "_analysis_", the first ten characters of
    the ISO time of a clock read of the call, and ".pdf".  If not (one of
    these fields is, in the body, an object with a [toString] of its own
    or an array that holds one), the call ends in the error state: the
    error is the text of the TypeError, no file is delivered and the
    success flag is as it was, though the document stays cached. *)
Theorem successful_generation_is_cached_and_delivered :
  forall (w : World) (query domain : jsstring) (status : Z)
         (text : jsstring) (data : jsval),
    response_ok status = true ->
    JSON_parse text = Some data ->
    data <> JNull ->
    let w' := exec (handleDownload_resume query domain
                      (Response status text)) w in
    let doc := lastDocument (home w') in
    fst (handleDownload_resume query domain (Response status text) w)
    = Normal tt /\
    isLoading (home w') = false /\
    sqlQuery (home w') = sqlQuery (home w) /\
    businessDomain (home w') = businessDomain (home w) /\
    (exists fields, doc = JObj fields) /\
    (forall k v, lookup k (own_props data) = Some v -> property doc k = v) /\
    (lookup (lit "sqlQuery") (own_props data) = None ->
     property doc (lit "sqlQuery") = JStr query) /\
    (lookup (lit "businessDomain") (own_props data) = None ->
     property doc (lit "businessDomain") = JStr domain) /\
    fetches w' = fetches w /\
    ((forall k v, lookup k (own_props data) = Some v -> converts v = true) ->
     downloadable doc = true) /\
    if downloadable doc then
      HomePage_render (home w') = SuccessState /\
      error (home w') = error (home w) /\
      (exists n, ticks w <= n /\
         downloads w' = downloads w
                        ++ [delivery doc (clock w n) (clock w (S n))]) /\
      (lookup (lit "fileName") (own_props data) = None ->
       exists n d, ticks w <= n /\
         downloads w' = downloads w ++ [d] /\
         filename d = pdf_name domain (clock w n))
    else
      showSuccess (home w') = showSuccess (home w) /\
      error (home w') = JStr (message not_primitive) /\
      downloads w' = downloads w.
Proof.
  intros w query domain status text data Hok Hparse Hnull w' doc.
  destruct (generateDocument_resume_ok domain status text data w
              Hok Hparse Hnull)
    as (six & c & w1 & E & Ht & V1 & V2 & V3 & V4 & Hq & Hd & Hi & Hf).
  set (info := JObj (spread (JObj (spread data six))
                       (object_literal
                          [(lit "sqlQuery", JStr query);
                           (lit "businessDomain", JStr domain)]))).
  set (v := exec (console_log (lit "Document generated:")
                    (JObj (spread data six)))
              (exec (setLastDocument info) w1)).
  assert (S1 : forall r,
             performDownload info v = r ->
             handleDownload_resume query domain (Response status text) w
             = try_finally
                 (try_catch
                    (fun u => let (c0, u') := r in
                              match c0 with
                              | Normal _ => setShowSuccess true u'
                              | Thrown e => (Thrown e, u')
                              end)
                    (fun err =>
                       setError
                         (js_or (JStr (message err))
                            (JStr (lit "An error occurred while generating the document")))))
                 (setIsLoading false) w1).
  { intros r <-.
    unfold handleDownload_resume, try_finally, try_catch.
    unfold bind at 1. rewrite E.
    unfold bind at 1.
    change (lift (get_prop (JObj [(lit "success", JBool true);
                                  (lit "data", JObj (spread data six))])
                    (lit "success")) w1)
      with (Normal (JBool true), w1).
    cbn [truthy when]. unfold bind at 1.
    change (lift (get_prop (JObj [(lit "success", JBool true);
                                  (lit "data", JObj (spread data six))])
                    (lit "data")) w1)
      with (Normal (JObj (spread data six)), w1).
    cbv beta iota. fold info.
    unfold bind at 1. unfold setLastDocument at 1, modify at 1. cbv beta iota.
    unfold bind at 1. unfold console_log at 1, modify at 1. cbv beta iota.
    unfold bind at 1. reflexivity. }
  assert (Hv : home v = with_lastDocument info (home w)
               /\ downloads v = downloads w /\ fetches v = fetches w
               /\ clock v = clock w /\ ticks v = c + ticks w).
  { unfold v, exec, console_log, setLastDocument, modify.
    cbn [snd home downloads fetches clock ticks with_home with_console].
    rewrite V2, V3, V4, V1, Ht. repeat split. }
  destruct Hv as (Hvh & Hvd & Hvf & Hvc & Hvt).
  assert (P : forall k, property info k =
                        match lookup k (own_props data) with
                        | Some x => x
                        | None =>
                            match lookup k six with
                            | Some x => x
                            | None =>
                                property (JObj [(lit "sqlQuery", JStr query);
                                                (lit "businessDomain",
                                                  JStr domain)]) k
                            end
                        end).
  { intros k. unfold info. rewrite property_spread.
    cbn [own_props]. rewrite lookup_spread.
    destruct (lookup k (own_props data)); [reflexivity|].
    destruct (lookup k six); reflexivity. }
  assert (Shared : forall h : HomeState,
             home w' = h ->
             lastDocument h = info ->
             sqlQuery h = sqlQuery (home w) ->
             businessDomain h = businessDomain (home w) ->
             sqlQuery (home w') = sqlQuery (home w) /\
             businessDomain (home w') = businessDomain (home w) /\
             (exists fields, doc = JObj fields) /\
             (forall k x, lookup k (own_props data) = Some x ->
                          property doc k = x) /\
             (lookup (lit "sqlQuery") (own_props data) = None ->
              property doc (lit "sqlQuery") = JStr query) /\
             (lookup (lit "businessDomain") (own_props data) = None ->
              property doc (lit "businessDomain") = JStr domain)).
  { intros h Hh Hl Hs Hb.
    assert (Hdoc : doc = info) by (unfold doc; rewrite Hh; exact Hl).
    rewrite Hdoc, Hh.
    split; [exact Hs|]. split; [exact Hb|].
    split; [eexists; reflexivity|].
    split; [intros k x L; rewrite P, L; reflexivity|].
    split; [intros L; rewrite P, L, Hq; reflexivity|].
    intros L; rewrite P, L, Hd; reflexivity. }
  assert (Conv : (forall k x, lookup k (own_props data) = Some x ->
                              converts x = true) ->
                 downloadable info = true).
  { intros Hc.
    assert (C : forall k,
               (lookup k (own_props data) = None ->
                exists s, property info k = JStr s) ->
               converts (property info k) = true).
    { intros k Hk. destruct (lookup k (own_props data)) as [x|] eqn:L.
      - rewrite P, L. exact (Hc _ _ L).
      - destruct (Hk eq_refl) as (s & ->). reflexivity. }
    unfold downloadable.
    rewrite (C (lit "businessDomain")), (C (lit "documentId")),
      (C (lit "sqlQuery")).
    - destruct (truthy (property info (lit "fileName"))); [|reflexivity].
      apply C. intros L. destruct (Hf L) as (n & _ & Hs).
      rewrite P, L, Hs. eexists; reflexivity.
    - intros L. rewrite P, L, Hq. eexists; reflexivity.
    - intros L. destruct (Hi L) as (s & Hs).
      rewrite P, L, Hs. eexists; reflexivity.
    - intros L. rewrite P, L, Hd. eexists; reflexivity. }
  destruct (downloadable info) eqn:D.
  - destruct (performDownload_effect info v ltac:(discriminate)
                ltac:(discriminate) D) as (w2 & E2 & Hdl & Kh & Kf).
    pose proof (S1 _ E2) as R.
    assert (R' : handleDownload_resume query domain (Response status text) w
                 = (Normal tt,
                    exec (setIsLoading false) (exec (setShowSuccess true) w2)))
      by (rewrite R; reflexivity).
    assert (Hhome : home w' =
                    with_isLoading false
                      (with_showSuccess true
                         (with_lastDocument info (home w)))).
    { subst w'. unfold exec at 1. rewrite R'.
      unfold exec, setIsLoading, setShowSuccess, modify.
      cbn [snd home with_home]. rewrite Kh, Hvh. reflexivity. }
    assert (Hdown : downloads w' = downloads w
                    ++ [delivery info (clock w (c + ticks w))
                          (clock w (S (c + ticks w)))]).
    { subst w'. unfold exec at 1. rewrite R'.
      unfold exec, setIsLoading, setShowSuccess, modify.
      cbn [snd downloads with_home]. rewrite Hdl, Hvd, Hvc, Hvt.
      reflexivity. }
    assert (Hdoc : doc = info) by (unfold doc; rewrite Hhome; reflexivity).
    split; [rewrite R'; reflexivity|].
    split; [rewrite Hhome; reflexivity|].
    destruct (Shared _ Hhome eq_refl eq_refl eq_refl)
      as (A1 & A2 & A3 & A4 & A5 & A6).
    split; [exact A1|]. split; [exact A2|]. split; [exact A3|].
    split; [exact A4|]. split; [exact A5|]. split; [exact A6|].
    split.
    { subst w'. unfold exec at 1. rewrite R'.
      unfold exec, setIsLoading, setShowSuccess, modify.
      cbn [snd fetches with_home]. rewrite Kf. exact Hvf. }
    rewrite Hdoc. split; [intros Hc; rewrite D; exact (Conv Hc)|].
    rewrite D.
    split; [rewrite Hhome; reflexivity|].
    split; [rewrite Hhome; reflexivity|].
    split; [exists (c + ticks w); split; [lia | exact Hdown]|].
    intros L. destruct (Hf L) as (n & Hn & Hs).
    exists (ticks w + n). eexists. split; [lia|]. split; [exact Hdown|].
    unfold delivery. cbn [filename]. rewrite P, L, Hs.
    assert (T : truthy (JStr (pdf_name domain (clock w (ticks w + n)))) = true)
      by (unfold pdf_name; destruct domain; reflexivity).
    rewrite T. reflexivity.
  - destruct (performDownload_no_effect info v ltac:(discriminate)
                ltac:(discriminate) D) as (w2 & E2 & Hdl & Kh & Kf).
    pose proof (S1 _ E2) as R.
    assert (R' : handleDownload_resume query domain (Response status text) w
                 = (Normal tt,
                    exec (setIsLoading false)
                      (exec (setError (JStr (message not_primitive))) w2)))
      by (rewrite R; reflexivity).
    assert (Hhome : home w' =
                    with_isLoading false
                      (with_error (JStr (message not_primitive))
                         (with_lastDocument info (home w)))).
    { subst w'. unfold exec at 1. rewrite R'.
      unfold exec, setIsLoading, setError, modify.
      cbn [snd home with_home]. rewrite Kh, Hvh. reflexivity. }
    assert (Hdoc : doc = info) by (unfold doc; rewrite Hhome; reflexivity).
    split; [rewrite R'; reflexivity|].
    split; [rewrite Hhome; reflexivity|].
    destruct (Shared _ Hhome eq_refl eq_refl eq_refl)
      as (A1 & A2 & A3 & A4 & A5 & A6).
    split; [exact A1|]. split; [exact A2|]. split; [exact A3|].
    split; [exact A4|]. split; [exact A5|]. split; [exact A6|].
    split.
    { subst w'. unfold exec at 1. rewrite R'.
      unfold exec, setIsLoading, setError, modify.
      cbn [snd fetches with_home]. rewrite Kf. exact Hvf. }
    rewrite Hdoc. split; [intros Hc; rewrite D; exact (Conv Hc)|].
    rewrite D.
    split; [rewrite Hhome; reflexivity|].
    split; [rewrite Hhome; reflexivity|].
    subst w'. unfold exec at 1. rewrite R'.
    unfold exec, setIsLoading, setError, modify.
    cbn [snd downloads with_home]. rewrite Hdl. exact Hvd.
Qed.

Lemma successful_generation_is_cached_and_delivered_witness :
  let w := exec AuthProvider_useEffect (example_page [] []) in
  let text := json_text "{'documentId':'DOC-1','businessDomain':'sales'}" in
  let w' := exec (handleDownload_resume (lit "SELECT 1") (lit "retail")
                    (Response 200 text)) w in
  let doc := lastDocument (home w') in
  let refused := json_text "{'documentId':{'toString':0}}" in
  let w'' := exec (handleDownload_resume (lit "SELECT 1") (lit "retail")
                     (Response 200 refused)) w in
  (HomePage_render (home w') = SuccessState /\
   property doc (lit "documentId") = JStr (lit "DOC-1") /\
   property doc (lit "sqlQuery") = JStr (lit "SELECT 1") /\
   property doc (lit "businessDomain") = JStr (lit "sales") /\
   exists n d, ticks w <= n /\
     downloads w' = downloads w ++ [d] /\
     filename d = pdf_name (lit "retail") (clock w n)) /\
  (showSuccess (home w'') = false /\
   error (home w'') = JStr (lit "Cannot convert object to primitive value") /\
   downloads w'' = [] /\
   property (lastDocument (home w'')) (lit "documentId")
   = JObj [(lit "toString", JInt 0)]).
Proof.
  intros w text w' doc refused w''.
  split.
  - destruct (successful_generation_is_cached_and_delivered w
                (lit "SELECT 1") (lit "retail") 200 text
                (JObj [(lit "documentId", JStr (lit "DOC-1"));
                       (lit "businessDomain", JStr (lit "sales"))])
                eq_refl eq_refl ltac:(discriminate))
      as (_ & _ & _ & _ & _ & A & B & _ & _ & _ & C).
    match type of C with
    | if ?b then _ else _ =>
        assert (Dd : b = true) by (vm_compute; reflexivity);
        rewrite Dd in C
    end.
    destruct C as (S & _ & _ & D).
    split; [exact S|].
    split; [exact (A (lit "documentId") _ eq_refl)|].
    split; [exact (B eq_refl)|].
    split; [exact (A (lit "businessDomain") _ eq_refl)|].
    exact (D eq_refl).
  - destruct (successful_generation_is_cached_and_delivered w
                (lit "SELECT 1") (lit "retail") 200 refused
                (JObj [(lit "documentId", JObj [(lit "toString", JInt 0)])])
                eq_refl eq_refl ltac:(discriminate))
      as (_ & _ & _ & _ & _ & A & _ & _ & _ & _ & C).
    match type of C with
    | if ?b then _ else _ =>
        assert (Dd : b = false) by (vm_compute; reflexivity);
        rewrite Dd in C
    end.
    destruct C as (S & Er & Dl).
    split; [exact S|]. split; [exact Er|]. split; [exact Dl|].
    exact (A (lit "documentId") _ eq_refl).
Defined.

(** X14. A 2xx answer no document can be made of is an error like any
    other: when the body is not JSON, or is [null], [handleDownload]
    throws nothing and ends with [isLoading] cleared and an error text
    that is not empty (the text of the SyntaxError when the body is not
    JSON); the form fields, the success flag and the cached document are
    as they were, no file is delivered, nothing is sent, and
    [generateDocument] has logged the error once. *)
Theorem unusable_success_body_is_reported :
  forall (w : World) (query domain : jsstring) (status : Z) (text : jsstring),
    response_ok status = true ->
    unusable_body text = true ->
    let w' := exec (handleDownload_resume query domain
                      (Response status text)) w in
    fst (handleDownload_resume query domain (Response status text) w)
    = Normal tt /\
    isLoading (home w') = false /\
    (exists msg, msg <> [] /\ error (home w') = JStr msg) /\
    (JSON_parse text = None ->
     error (home w') = JStr (message syntax_error)) /\
    sqlQuery (home w') = sqlQuery (home w) /\
    businessDomain (home w') = businessDomain (home w) /\
    showSuccess (home w') = showSuccess (home w) /\
    lastDocument (home w') = lastDocument (home w) /\
    downloads w' = downloads w /\
    fetches w' = fetches w /\
    (exists e, console w' =
               console w ++ [LogError (lit "Error generating document:") e]).
Proof.
  intros w query domain status text Hok Hbad w'. subst w'.
  unfold unusable_body in Hbad.
  unfold exec, handleDownload_resume, generateDocument_resume.
  cbv beta iota zeta delta [await bind ret try_catch try_finally fst snd
                            lift throw JSON_parse_or_throw].
  rewrite Hok. cbv beta iota zeta delta [negb].
  destruct (JSON_parse text) as [data|].
  - destruct data; try discriminate Hbad.
    cbn. repeat split; try discriminate.
    + eexists. split; [|reflexivity]. discriminate.
    + eexists. reflexivity.
  - cbn. repeat split.
    + eexists. split; [|reflexivity]. discriminate.
    + eexists. reflexivity.
Qed.

Lemma unusable_success_body_is_reported_witness :
  let w0 := exec AuthProvider_useEffect (example_page [] []) in
  let w1 := exec (dispatch (TypeQuery (lit "SELECT * FROM orders"))) w0 in
  let w2 := exec (dispatch (SelectDomain (lit "retail"))) w1 in
  let w := exec (dispatch ClickDownload) w2 in
  let w' := exec (handleDownload_resume (lit "SELECT * FROM orders")
                    (lit "retail") (Response 200 (lit "<html>"))) w in
  isLoading (home w) = true /\
  isLoading (home w') = false /\
  error (home w') = JStr (lit "Unexpected token in JSON") /\
  showSuccess (home w') = false /\
  downloads w' = [].
Proof.
  intros w0 w1 w2 w w'.
  destruct (unusable_success_body_is_reported w
              (lit "SELECT * FROM orders") (lit "retail") 200 (lit "<html>")
              eq_refl eq_refl)
    as (_ & L & _ & E & _ & _ & S & _ & D & _).
  split; [reflexivity|]. split; [exact L|]. split; [exact (E eq_refl)|].
  split; [exact (eq_trans S eq_refl) | exact (eq_trans D eq_refl)].
Defined.

(* ================================================================= *)
(** ** The form and the helpers *)

(** X15. "Analyze Another Script" brings the page back to what it was at
    load: from a state in which [HomePage] shows success, [handleNewQuery]
    leaves [HomePage] in its initial state (empty query and domain,
    nothing cached, no error), the form is rendered and is not valid, so
    the download and re-download buttons change nothing; requests,
    delivered files and the session are untouched. *)
Theorem new_query_restores_the_initial_form :
  forall w : World,
    HomePage_render (home w) = SuccessState ->
    let w' := exec (dispatch ClickNewQuery) w in
    home w' = initial_home /\
    HomePage_render (home w') = QueryForm /\
    isFormValid (home w') = false /\
    exec (dispatch ClickRedownload) w' = w' /\
    exec (dispatch ClickDownload) w' = w' /\
    fetches w' = fetches w /\
    downloads w' = downloads w /\
    auth w' = auth w.
Proof.
  intros w R w'. subst w'.
  unfold exec, dispatch, bind, gets. cbn [fst snd]. rewrite R.
  unfold HomePage_render in R.
  destruct (isLoading (home w)) eqn:L; [discriminate|].
  assert (H : home (snd (handleNewQuery w)) = initial_home).
  { unfold handleNewQuery, bind, setSqlQuery, setBusinessDomain,
      setShowSuccess, setLastDocument, setError, modify.
    simpl. unfold with_error, with_lastDocument, with_showSuccess,
      with_businessDomain, with_sqlQuery. simpl.
    rewrite L. reflexivity. }
  rewrite H. repeat split.
Qed.

Lemma new_query_restores_the_initial_form_witness :
  let w0 := exec AuthProvider_useEffect (example_page [] []) in
  let w1 := exec (dispatch (TypeQuery (lit "SELECT * FROM orders"))) w0 in
  let w2 := exec (dispatch (SelectDomain (lit "retail"))) w1 in
  let w3 := exec (dispatch ClickDownload) w2 in
  let w := exec (dispatch (Settle 1 (Response 200 (json_text
             "{'documentId':'DOC-1','message':'ok'}")))) w3 in
  let w' := exec (dispatch ClickNewQuery) w in
  sqlQuery (home w) = lit "SELECT * FROM orders" /\
  home w' = initial_home /\
  exec (dispatch ClickRedownload) w' = w'.
Proof.
  intros w0 w1 w2 w3 w w'.
  destruct (new_query_restores_the_initial_form w eq_refl)
    as (H & _ & _ & A & _).
  split; [reflexivity|]. split; [exact H | exact A].
Defined.

Lemma has_visible_trim (s : jsstring) :
  has_visible s = true <-> trim s <> [].
Proof.
  rewrite trim_blank. unfold has_visible.
  induction s as [|c s IH]; simpl.
  - split; [discriminate | intros H; exfalso; apply H; reflexivity].
  - destruct (is_js_space c); simpl; [exact IH|].
    split; [discriminate | reflexivity].
Qed.

(** X16. The exported validator and the form agree: [isValidSqlQuery]
    accepts exactly the strings that have a character other than white
    space; on the query of the form it is the negation of [isQueryEmpty],
    so whatever the form accepts the validator accepts. *)
Theorem query_validation_agrees_with_the_form :
  (forall v : jsval,
      isValidSqlQuery v = true <->
      exists s, v = JStr s /\ has_visible s = true) /\
  (forall h : HomeState,
      isValidSqlQuery (JStr (sqlQuery h)) = negb (isQueryEmpty h)) /\
  (forall h : HomeState,
      isFormValid h = true ->
      isValidSqlQuery (JStr (sqlQuery h)) = true).
Proof.
  assert (A : forall s, isValidSqlQuery (JStr s) = true <-> trim s <> []).
  { intros s. unfold isValidSqlQuery. destruct s as [|c s].
    - split; [discriminate | intros H; exfalso; apply H; reflexivity].
    - rewrite Nat.ltb_lt. destruct (trim (c :: s)); simpl.
      + split; [lia | intros H; exfalso; apply H; reflexivity].
      + split; [discriminate | lia]. }
  assert (B : forall h, isValidSqlQuery (JStr (sqlQuery h))
                        = negb (isQueryEmpty h)).
  { intros h. unfold isQueryEmpty.
    destruct (isValidSqlQuery (JStr (sqlQuery h))) eqn:V.
    - apply A in V. symmetry. apply negb_true_iff. apply orb_false_iff.
      split.
      + destruct (sqlQuery h); [exfalso; apply V; reflexivity | reflexivity].
      + apply str_eqb_neq. exact V.
    - symmetry. apply negb_false_iff.
      destruct (sqlQuery h) as [|c s] eqn:Q; [reflexivity|].
      cbn [truthy negb orb]. apply str_eqb_eq.
      destruct (trim (c :: s)) eqn:T; [reflexivity|].
      assert (isValidSqlQuery (JStr (c :: s)) = true)
        by (apply A; rewrite T; discriminate).
      congruence. }
  split; [|split].
  - intros v. split.
    + intros H. destruct v; try discriminate H.
      exists s. split; [reflexivity|]. apply has_visible_trim, A. exact H.
    + intros (s & -> & H). apply A, has_visible_trim. exact H.
  - exact B.
  - intros h V. rewrite B. unfold isFormValid in V.
    apply andb_true_iff in V. tauto.
Qed.

Lemma query_validation_agrees_with_the_form_witness :
  let h := with_businessDomain (lit "retail")
             (with_sqlQuery (lit "  SELECT 1 ") initial_home) in
  isFormValid h = true /\
  isValidSqlQuery (JStr (sqlQuery h)) = true /\
  isValidSqlQuery (JStr (lit "   ")) = false /\
  isValidSqlQuery (JInt 1) = false.
Proof.
  intros h.
  destruct query_validation_agrees_with_the_form as (_ & _ & C).
  split; [reflexivity|].
  split; [exact (C h eq_refl)|].
  split; reflexivity.
Defined.

(** X17. The fallback file name has no colon and no dot in its time
    stamp: [generateDocumentFilename] reads the clock once and returns
    what ToString makes of the domain, "_analysis_", a stamp and ".doc",
    where the stamp is the ISO time of that read with every colon and dot
    replaced by a hyphen and every other character in its place.  On a
    domain ToString refuses it throws the TypeError, after the read. *)
Theorem fallback_filename_is_portable :
  forall (domain : jsval) (w : World),
    let iso := toISOString (clock w (ticks w)) in
    exists stamp,
      generateDocumentFilename domain w =
      (match to_string domain with
       | Normal name =>
           Normal (JStr (name ++ lit "_analysis_" ++ stamp ++ lit ".doc"))
       | Thrown e => Thrown e
       end,
       with_ticks S w) /\
      length stamp = length iso /\
      ~ In 58%N stamp /\ ~ In 46%N stamp /\
      (forall i c, nth_error iso i = Some c -> c <> 58%N -> c <> 46%N ->
                   nth_error stamp i = Some c) /\
      (forall i c, nth_error iso i = Some c -> c = 58%N \/ c = 46%N ->
                   nth_error stamp i = Some 45%N).
Proof.
  intros domain w iso. exists (replace_colon_dot iso).
  split.
  { unfold generateDocumentFilename, bind, new_Date, lift, ret.
    destruct (to_string domain); reflexivity. }
  unfold replace_colon_dot.
  split; [apply length_map|].
  assert (N : forall x, ~ In x (map (fun c => if N.eqb c 58 || N.eqb c 46
                                              then 45%N else c) iso) \/
                        (x <> 58%N /\ x <> 46%N)).
  { intros x. destruct (N.eq_dec x 58) as [->|N1];
      [|destruct (N.eq_dec x 46) as [->|N2]; [|right; split; assumption]].
    all: left; intros H; apply in_map_iff in H; destruct H as (c & E & _).
    all: destruct (N.eqb c 58) eqn:E1; destruct (N.eqb c 46) eqn:E2;
      cbn [orb] in E; try discriminate E.
    all: subst c; discriminate. }
  split; [destruct (N 58%N) as [H|[H _]]; [exact H | congruence]|].
  split; [destruct (N 46%N) as [H|[_ H]]; [exact H | congruence]|].
  split.
  - intros i c H N1 N2. rewrite nth_error_map.
    match goal with
    | |- option_map _ ?x = _ => replace x with (Some c) by (symmetry; exact H)
    end.
    cbn [option_map].
    apply N.eqb_neq in N1, N2. rewrite N1, N2. reflexivity.
  - intros i c H E. rewrite nth_error_map.
    match goal with
    | |- option_map _ ?x = _ => replace x with (Some c) by (symmetry; exact H)
    end.
    destruct E as [-> | ->]; reflexivity.
Qed.

(* ================================================================= *)
(** ** The status service and the two base URLs *)

Lemma strip_prefix_app (p s : jsstring) : strip_prefix p (p ++ s) = Some s.
Proof.
  induction p as [|c p IH]; [reflexivity|].
  cbn [app strip_prefix]. rewrite N.eqb_refl. exact IH.
Qed.

Lemma getDocumentStatus_resume_cases (o : Outcome) (w : World) :
  getDocumentStatus_resume o w =
  match o with
  | Rejected e =>
      (Thrown e,
       exec (console_error (lit "Error getting document status:") e) w)
  | Response status text =>
      if response_ok status then
        match JSON_parse text with
        | Some data => (Normal data, w)
        | None =>
            (Thrown syntax_error,
             exec (console_error (lit "Error getting document status:")
                     syntax_error) w)
        end
      else
        let e := Error_ (lit "Error")
                   (lit "Failed to get document status: "
                    ++ number_to_string status 0) in
        (Thrown e,
         exec (console_error (lit "Error getting document status:") e) w)
  end.
Proof.
  unfold getDocumentStatus_resume, try_catch, bind.
  destruct o as [e|status text]; simpl; [reflexivity|].
  destruct (response_ok status); simpl; [|reflexivity].
  unfold JSON_parse_or_throw.
  destruct (JSON_parse text); reflexivity.
Qed.

(** X18. [getDocumentStatus] resolves or logs and rejects: once its
    request has settled it resolves, to the parsed body and without
    touching anything, exactly when the answer is 2xx with a JSON body;
    in every other case it rejects after logging the error it rejects
    with, once.  On a status outside 2xx the error text is "Failed to get
    document status: " and the status, whatever the body says.  It sends
    nothing more and leaves [HomePage], the session and the store alone. *)
Theorem document_status_resolves_or_logs_and_rejects :
  forall (o : Outcome) (w : World),
    let r := getDocumentStatus_resume o w in
    (forall data,
        fst r = Normal data <->
        exists status text,
          o = Response status text /\ response_ok status = true /\
          JSON_parse text = Some data) /\
    (forall data, fst r = Normal data -> snd r = w) /\
    (forall e, fst r = Thrown e ->
       snd r = exec (console_error (lit "Error getting document status:") e) w) /\
    (forall status text,
        o = Response status text -> response_ok status = false ->
        exists e, fst r = Thrown e /\
          message e = lit "Failed to get document status: "
                      ++ number_to_string status 0) /\
    fetches (snd r) = fetches w /\ home (snd r) = home w /\
    auth (snd r) = auth w /\ localStorage (snd r) = localStorage w.
Proof.
  intros o w r. subst r. rewrite getDocumentStatus_resume_cases.
  destruct o as [e|status text].
  - split; [|split; [|split; [|split]]].
    + intros data. split; [discriminate|].
      intros (st & tx & H & _). discriminate H.
    + discriminate.
    + intros e0 H. inversion H. reflexivity.
    + intros st tx H. discriminate H.
    + repeat split.
  - destruct (response_ok status) eqn:Hok.
    + destruct (JSON_parse text) as [data|] eqn:P.
      * split; [|split; [|split; [|split]]].
        -- intros d. split.
           ++ intros H. inversion H. subst d. exists status, text. auto.
           ++ intros (st & tx & H & _ & Q). inversion H. subst st tx.
              rewrite P in Q. inversion Q. reflexivity.
        -- reflexivity.
        -- discriminate.
        -- intros st tx H F. inversion H. subst st tx. congruence.
        -- repeat split.
      * split; [|split; [|split; [|split]]].
        -- intros d. split; [discriminate|].
           intros (st & tx & H & _ & Q). inversion H. subst st tx. congruence.
        -- discriminate.
        -- intros e0 H. inversion H. reflexivity.
        -- intros st tx H F. inversion H. subst st tx. congruence.
        -- repeat split.
    + cbv zeta. split; [|split; [|split; [|split]]].
      * intros d. split; [discriminate|].
        intros (st & tx & H & Q & _). inversion H. subst st tx. congruence.
      * discriminate.
      * intros e0 H. inversion H. reflexivity.
      * intros st tx H _. inversion H. subst st tx.
        eexists. split; reflexivity.
      * repeat split.
Qed.

Lemma document_status_resolves_or_logs_and_rejects_witness :
  let w := exec AuthProvider_useEffect (example_page [] []) in
  let o := Response 404 (json_text "{'message':'no such request'}") in
  exists e,
    fst (getDocumentStatus_resume o w) = Thrown e /\
    message e = lit "Failed to get document status: 404" /\
    console (snd (getDocumentStatus_resume o w))
    = [LogError (lit "Error getting document status:") e].
Proof.
  intros w o.
  destruct (document_status_resolves_or_logs_and_rejects o w)
    as (_ & _ & L & F & _).
  destruct (F 404%Z (json_text "{'message':'no such request'}")
              eq_refl eq_refl) as (e & E & M).
  exists e. split; [exact E|]. split; [exact M|].
  rewrite (L e E). reflexivity.
Defined.

(** X19. The two base URLs agree only when one is configured: with
    REACT_APP_API_BASE_URL set, [API_BASE_URL] and [API_BASE_URL1] are
    that value, and the address [getDocumentStatus] fetches is the
    DOCUMENT_STATUS endpoint followed by "/" and the request id; with it
    unset or empty, the session endpoints are on port 8000 and the
    generation service on port 8001, and the address [getDocumentStatus]
    fetches (first base) is not under DOCUMENT_STATUS (second base).  The
    request id is what ToString makes of the argument; on an argument
    ToString refuses, [getDocumentStatus] makes no request and throws. *)
Theorem service_bases_agree_only_when_configured :
  forall (w : World) (requestId : jsval),
    (truthy (REACT_APP_API_BASE_URL w) = true ->
     API_BASE_URL w = API_BASE_URL1 w /\
     forall id, to_string requestId = Normal id ->
       exists r, getDocumentStatus_request requestId w = Normal r /\
         strip_prefix (DOCUMENT_STATUS w) (url r) = Some (lit "/" ++ id)) /\
    (truthy (REACT_APP_API_BASE_URL w) = false ->
     API_BASE_URL w = lit "http://localhost:8000" /\
     API_BASE_URL1 w = lit "http://localhost:8001" /\
     forall id, to_string requestId = Normal id ->
       exists r, getDocumentStatus_request requestId w = Normal r /\
         url r = lit "http://localhost:8000/documents/status/" ++ id /\
         strip_prefix (DOCUMENT_STATUS w) (url r) = None) /\
    (forall e, to_string requestId = Thrown e ->
       getDocumentStatus_request requestId w = Thrown e).
Proof.
  intros w requestId.
  unfold DOCUMENT_STATUS, getDocumentStatus_request, API_BASE_URL,
    API_BASE_URL1, js_or.
  split; [|split].
  - intros T; rewrite T.
    split; [reflexivity|]. intros id ->.
    eexists. split; [reflexivity|]. cbn [url].
    replace (text_of (REACT_APP_API_BASE_URL w)
             ++ lit "/documents/status/" ++ id)
      with ((text_of (REACT_APP_API_BASE_URL w) ++ lit "/documents/status")
            ++ lit "/" ++ id)
      by (rewrite <- app_assoc; reflexivity).
    apply strip_prefix_app.
  - intros T; rewrite T.
    split; [reflexivity|]. split; [reflexivity|]. intros id ->.
    eexists. split; [reflexivity|]. split; reflexivity.
  - intros e ->. reflexivity.
Qed.

Lemma service_bases_agree_only_when_configured_witness :
  let w := example_page [] [] in
  let w' := page_load (JStr (lit "https://api.example.com")) []
              {| pathname := lit "/"; search := []; hash := [] |}
              example_clock in
  DOCUMENT_STATUS w = lit "http://localhost:8001/documents/status" /\
  (exists r, getDocumentStatus_request (JStr (lit "r1")) w = Normal r /\
     url r = lit "http://localhost:8000/documents/status/r1" /\
     strip_prefix (DOCUMENT_STATUS w) (url r) = None) /\
  (exists r, getDocumentStatus_request (JStr (lit "r1")) w' = Normal r /\
     strip_prefix (DOCUMENT_STATUS w') (url r) = Some (lit "/r1")) /\
  getDocumentStatus_request (JObj [(lit "toString", JNull)]) w
  = Thrown not_primitive.
Proof.
  intros w w'.
  destruct (service_bases_agree_only_when_configured w (JStr (lit "r1")))
    as (_ & B & _).
  destruct (service_bases_agree_only_when_configured w' (JStr (lit "r1")))
    as (A & _).
  destruct (service_bases_agree_only_when_configured w
              (JObj [(lit "toString", JNull)])) as (_ & _ & C).
  split; [reflexivity|].
  split; [exact (proj2 (proj2 (B eq_refl)) _ eq_refl)|].
  split; [exact (proj2 (A eq_refl) _ eq_refl)|].
  exact (C _ eq_refl).
Defined.
